(** * kyc_extractor: the rule-based validator of [validators.py]

    A shallow embedding of [DocumentValidator] and of the parts of the
    Python library it calls ([str] methods, the [re] patterns it uses,
    [datetime.strptime] for the format [%Y-%m-%d], [datetime] comparison
    and subtraction), followed by the properties of the validator.

    Conventions of the embedding.
    - A Python [str] is a [string]; its characters are read as the code
      points below 256.  On that range the only decimal digits are
      [0]..[9], the white space of [str.strip], [str.split] and of the
      pattern [\s] is the set given by [is_space], and ignoring case
      pairs each ASCII letter with its other case and nothing else.
      Text with a character from U+0100 on is outside the embedding:
      there [\d] and [int()] take every Unicode decimal digit, [\s] more
      white space, [re.IGNORECASE] pairs [i] with U+0130 and U+0131, [s]
      with U+017F and [k] with U+212A, and [str.upper] turns some
      ligatures into ASCII letters.  Every property below that reads a
      text is a property of the texts of the embedding.
    - The input is the dictionary the extractor builds from the result of
      [json.loads] (model.py, lines 239 to 458): its values are JSON
      values, that is [None], [str], numbers, booleans, lists and
      dictionaries.  Each position of the input has a type listing what
      the validator can observe of the JSON value found there ([scalar],
      [field], [topval]).  Objects that JSON cannot produce, such as
      [bytes], are outside the embedding.
    - [self.results] is threaded as state; an exception is a result
      [Raise e] that stops the run and leaves the state as it was then.
    - Every call of [datetime.now()] of one run reads the same instant,
      the parameter [now]. *)

From Stdlib Require Import String Ascii List ZArith NArith QArith Qround Qabs Lia Bool DecimalString.
From stdpp Require Import base option gmap strings.
Import ListNotations.

Local Open Scope string_scope.
Local Open Scope Z_scope.

(** ** Python [str] *)

Module PyStr.

Definition code (c : ascii) : N := N_of_ascii c.

Definition in_range (lo hi c : ascii) : bool :=
  ((code lo <=? code c) && (code c <=? code hi))%N.

Definition is_digit (c : ascii) : bool := in_range "0" "9" c.

(** [Py_UNICODE_ISSPACE] below 256: TAB..CR, FS..US, space, NEL, NBSP. *)
Definition is_space (c : ascii) : bool :=
  let n := code c in
  (((9 <=? n) && (n <=? 13)) || ((28 <=? n) && (n <=? 32))
   || (n =? 133) || (n =? 160))%N.

Definition is_empty (s : string) : bool :=
  match s with EmptyString => true | String _ _ => false end.

Fixpoint lstrip (s : string) : string :=
  match s with
  | String c t => if is_space c then lstrip t else s
  | EmptyString => EmptyString
  end.

Fixpoint rstrip (s : string) : string :=
  match s with
  | String c t =>
      let t' := rstrip t in
      if is_space c && is_empty t' then EmptyString else String c t'
  | EmptyString => EmptyString
  end.

(** [s.strip()] *)
Definition strip (s : string) : string := rstrip (lstrip s).

(** [s.split()]: the maximal runs of characters that are not white
    space, in order; [cur] is the run being read. *)
Fixpoint split_from (cur : option string) (s : string) : list string :=
  match s with
  | EmptyString => match cur with Some w => [w] | None => [] end
  | String c t =>
      if is_space c
      then match cur with
           | Some w => w :: split_from None t
           | None => split_from None t
           end
      else split_from
             (Some (match cur with Some w => w | None => EmptyString end
                    ++ String c EmptyString)) t
  end.

Definition split (s : string) : list string := split_from None s.

(** [c.upper()] of one character.  Sharp s becomes two letters.  The
    capitals of the micro sign and of y with diaeresis lie above 255;
    those two are left as they are, which the uses below (deleting what
    is outside [A-Z0-9], looking up a list of ASCII names) cannot tell
    from the real capital. *)
Definition upper_char (c : ascii) : string :=
  let n := code c in
  if in_range "a" "z" c then String (ascii_of_N (n - 32)) EmptyString
  else if (n =? 223)%N then "SS"
  else if ((224 <=? n) && (n <=? 254) && negb (n =? 247))%N
       then String (ascii_of_N (n - 32)) EmptyString
  else String c EmptyString.

Fixpoint upper (s : string) : string :=
  match s with
  | String c t => upper_char c ++ upper t
  | EmptyString => EmptyString
  end.

Definition len (s : string) : Z := Z.of_nat (String.length s).

(** [str(n)] of an integer, as an f-string prints it. *)
Definition of_int (n : Z) : string := NilZero.string_of_int (Z.to_int n).

(** [int(s)] on a text of digits, possibly after blanks (the only
    texts the date pattern captures). *)
Definition digit_val (c : ascii) : Z := Z.of_N (code c) - 48.

Fixpoint int_digits (acc : Z) (s : string) : Z :=
  match s with
  | String c t => int_digits (10 * acc + digit_val c) t
  | EmptyString => acc
  end.

Definition to_int (s : string) : Z := int_digits 0 (lstrip s).

End PyStr.

(** ** The [re] module, for the patterns the validator uses

    Patterns are given as syntax trees.  Matching follows the
    backtracking engine: [rems e s] lists, in the engine's order of
    preference, what is left of [s] after each way of matching [e] at its
    start. *)

Module Re.
Import PyStr.

Inductive cset : Type :=
| Lit (c : ascii)
| Digit
| Space
| Range (lo hi : ascii)
| Union (a b : cset)
| Compl (a : cset).

Inductive regex : Type :=
| Eps
| Chr (k : cset)
| Cat (a b : regex)
| Alt (a b : regex)
| Star (k : cset).

Fixpoint mem (k : cset) (c : ascii) : bool :=
  match k with
  | Lit l => Ascii.eqb c l
  | Digit => is_digit c
  | Space => is_space c
  | Range lo hi => in_range lo hi c
  | Union a b => mem a c || mem b c
  | Compl a => negb (mem a c)
  end.

Definition ascii_lower (c : ascii) : ascii :=
  if in_range "A" "Z" c then ascii_of_N (code c + 32) else c.

Definition ascii_upper (c : ascii) : ascii :=
  if in_range "a" "z" c then ascii_of_N (code c - 32) else c.

(** Membership under the flags of the pattern; [ic] is [re.IGNORECASE].
    The patterns below have ASCII letters only, for which ignoring case
    is trying the other case of the character as well, on the
    characters of the embedding (the code points below 256). *)
Definition cmem (ic : bool) (k : cset) (c : ascii) : bool :=
  match k with
  | Digit | Space => mem k c
  | _ => mem k c || (ic && (mem k (ascii_lower c) || mem k (ascii_upper c)))
  end.

(** Greedy repetition of a one-character set: longest first. *)
Fixpoint star_rems (p : ascii -> bool) (s : string) : list string :=
  match s with
  | String c t => if p c then star_rems p t ++ [s] else [s]
  | EmptyString => [s]
  end.

Fixpoint rems (ic : bool) (e : regex) (s : string) : list string :=
  match e with
  | Eps => [s]
  | Chr k =>
      match s with
      | String c t => if cmem ic k c then [t] else []
      | EmptyString => []
      end
  | Cat a b => flat_map (rems ic b) (rems ic a s)
  | Alt a b => rems ic a s ++ rems ic b s
  | Star k => star_rems (cmem ic k) s
  end.

(** [re.match(e, s)]: the rest of [s] after the match, if any. *)
Definition re_match (ic : bool) (e : regex) (s : string) : option string :=
  hd_error (rems ic e s).

(** [re.search(e, s)] as a truth value: a match at some position. *)
Fixpoint search (ic : bool) (e : regex) (s : string) : bool :=
  match re_match ic e s with
  | Some _ => true
  | None =>
      match s with
      | String _ t => search ic e t
      | EmptyString => false
      end
  end.

(** [re.sub(k, empty, s)] for a pattern [k] that is one character set:
    every character of the set is deleted. *)
Fixpoint sub_delete (k : cset) (s : string) : string :=
  match s with
  | String c t => if mem k c then sub_delete k t else String c (sub_delete k t)
  | EmptyString => EmptyString
  end.

Definition lit (c : ascii) : regex := Chr (Lit c).
Definition plus (k : cset) : regex := Cat (Chr k) (Star k).
Definition opt (e : regex) : regex := Alt e Eps.

Fixpoint cats (l : list regex) : regex :=
  match l with
  | [] => Eps
  | [e] => e
  | e :: l' => Cat e (cats l')
  end.

Fixpoint alts (e : regex) (l : list regex) : regex :=
  match l with
  | [] => e
  | e' :: l' => Alt e (alts e' l')
  end.

(** The language of a pattern, as the textbook defines it. *)
Inductive star_lang (p : ascii -> bool) : string -> Prop :=
| star_nil : star_lang p EmptyString
| star_cons c w : p c = true -> star_lang p w -> star_lang p (String c w).

Fixpoint lang (ic : bool) (e : regex) (w : string) : Prop :=
  match e with
  | Eps => w = EmptyString
  | Chr k => exists c, w = String c EmptyString /\ cmem ic k c = true
  | Cat a b => exists u v, w = u ++ v /\ lang ic a u /\ lang ic b v
  | Alt a b => lang ic a w \/ lang ic b w
  | Star k => star_lang (cmem ic k) w
  end.

End Re.

(** ** Exceptions *)

Inductive exn : Type := AttributeError | TypeError | ValueError.

Inductive result (A : Type) : Type :=
| Ok (a : A)
| Raise (e : exn).

Arguments Ok {A} a.
Arguments Raise {A} e.

(** ** [datetime] *)

Module PyDate.
Import PyStr Re.

Record datetime : Type := mkdt {
  year : Z; month : Z; day : Z;
  hour : Z; minute : Z; second : Z; microsecond : Z
}.

Definition is_leap (y : Z) : bool :=
  (y mod 4 =? 0) && (negb (y mod 100 =? 0) || (y mod 400 =? 0)).

Definition DAYS_IN_MONTH : list Z :=
  [-1; 31; 28; 31; 30; 31; 30; 31; 31; 30; 31; 30; 31].

Definition DAYS_BEFORE_MONTH : list Z :=
  [-1; 0; 31; 59; 90; 120; 151; 181; 212; 243; 273; 304; 334].

Definition days_in_month (y m : Z) : Z :=
  if (m =? 2) && is_leap y then 29
  else nth (Z.to_nat m) DAYS_IN_MONTH 0.

Definition days_before_year (y : Z) : Z :=
  let y' := y - 1 in y' * 365 + y' / 4 - y' / 100 + y' / 400.

Definition days_before_month (y m : Z) : Z :=
  nth (Z.to_nat m) DAYS_BEFORE_MONTH 0
  + (if (2 <? m) && is_leap y then 1 else 0).

Definition ymd2ord (y m d : Z) : Z :=
  days_before_year y + days_before_month y m + d.

Definition toordinal (t : datetime) : Z :=
  ymd2ord (year t) (month t) (day t).

(** What the constructor of a date checks before it raises
    [ValueError]. *)
Definition check_date_fields (y m d : Z) : bool :=
  (1 <=? y) && (y <=? 9999) && (1 <=? m) && (m <=? 12)
  && (1 <=? d) && (d <=? days_in_month y m).

(** Comparison is that of the tuples of fields. *)
Definition fields (t : datetime) : list Z :=
  [year t; month t; day t; hour t; minute t; second t; microsecond t].

Fixpoint lex_compare (a b : list Z) : comparison :=
  match a, b with
  | [], [] => Eq
  | [], _ :: _ => Lt
  | _ :: _, [] => Gt
  | x :: a', y :: b' =>
      match x ?= y with
      | Eq => lex_compare a' b'
      | c => c
      end
  end.

Definition lt (a b : datetime) : bool :=
  match lex_compare (fields a) (fields b) with Lt => true | _ => false end.

Definition gt (a b : datetime) : bool := lt b a.

(** [(a - b).days]: a [timedelta] keeps its seconds and microseconds
    non-negative, so its days are the floor of the difference. *)
Definition sub_days (a b : datetime) : Z :=
  let secs t := second t + minute t * 60 + hour t * 3600 in
  let us := (secs a - secs b) * 1000000 + (microsecond a - microsecond b) in
  (toordinal a - toordinal b) + us / 86400000000.

(** The groups of the pattern [_strptime] builds for [%Y-%m-%d]. *)
Definition re_Y : regex := cats [Chr Digit; Chr Digit; Chr Digit; Chr Digit].

Definition re_m : regex :=
  alts (Cat (lit "1") (Chr (Range "0" "2")))
       [Cat (lit "0") (Chr (Range "1" "9")); Chr (Range "1" "9")].

Definition re_d : regex :=
  alts (Cat (lit "3") (Chr (Range "0" "1")))
       [Cat (Chr (Range "1" "2")) (Chr Digit);
        Cat (lit "0") (Chr (Range "1" "9"));
        Chr (Range "1" "9");
        Cat (lit " ") (Chr (Range "1" "9"))].

(** The text a group matched: what was read between two remainders. *)
Definition took (s r : string) : string :=
  substring 0 (String.length s - String.length r) s.

(** The ways of matching, from the month on, the groups [m] and [d]
    and the hyphen between them: the texts of the two groups and what
    is left of the string, in the engine's order. *)
Definition match_md (t : string) : list (string * string * string) :=
  flat_map (fun r3 =>
  flat_map (fun r4 =>
  map (fun r5 => (took t r3, took r4 r5, r5)) (rems true re_d r4))
    (rems true (lit "-") r3))
    (rems true re_m t).

(** [format_regex.match(data_string)]: the first way, in the engine's
    order, of matching the three groups and the two hyphens; with the
    texts of the groups and what is left of the string. *)
Definition match_ymd (s : string) : option (string * string * string * string) :=
  hd_error
    (flat_map (fun r1 =>
     flat_map (fun r2 =>
     map (fun '(m, d, rest) => (took s r1, m, d, rest)) (match_md r2))
       (rems true (lit "-") r1))
       (rems true re_Y s)).

(** [datetime.strptime(s, "%Y-%m-%d")] on a [str] of the embedding
    (code points below 256, where the digits of the pattern and of
    [int()] are [0]..[9]). *)
Definition strptime (s : string) : result datetime :=
  match match_ymd s with
  | None => Raise ValueError
  | Some (Y, m, d, rest) =>
      if negb (is_empty rest) then Raise ValueError
      else
        let y := to_int Y in
        let m := to_int m in
        let d := to_int d in
        if check_date_fields y m d then Ok (mkdt y m d 0 0 0 0)
        else Raise ValueError
  end.

End PyDate.

(** ** The values of the input

    [extraction_result] is a [Dict[str, Any]].  The validator reads it at
    three depths, and at each depth a value is seen through a few
    operations only; the three types list the cases those operations
    tell apart. *)

(** What sits under the key ["value"] of a field: [None], a [str], or
    another JSON value (a number, a boolean, a list, a dictionary), of
    which only [bool(v)] and [str(v)] are observed: none of these has a
    method [strip] or [upper], none is equal to a [str], and [strptime]
    and [re.search] refuse them with [TypeError]. *)
Inductive scalar : Type :=
| SNone
| SStr (s : string)
| SOther (truthy : bool) (text : string).

(** What sits under a field name such as ["full_name"]: a [dict], or
    another JSON value ([None], a [str], a number, a boolean, a list),
    of which only [bool(v)] is observed: none of these has a method
    [get]. *)
Inductive field : Type :=
| FDict (d : gmap string scalar)
| FOther (truthy : bool).

(** What sits under a key of [extraction_result]: a [str], a [dict], or
    another JSON value ([None], which is [TOther false], a number, a
    boolean, a list); none of these has a method [get] or [values]. *)
Inductive topval : Type :=
| TStr (s : string)
| TDict (d : gmap string field)
| TOther (truthy : bool).

Module PyVal.
Import PyStr.

Definition is_nil {A : Type} (l : list A) : bool :=
  match l with [] => true | _ :: _ => false end.

(** [bool(v)] *)
Definition scalar_truthy (v : scalar) : bool :=
  match v with
  | SNone => false
  | SStr s => negb (is_empty s)
  | SOther b _ => b
  end.

Definition field_truthy (f : field) : bool :=
  match f with
  | FDict d => negb (is_nil (map_to_list d))
  | FOther b => b
  end.

Definition top_truthy (v : topval) : bool :=
  match v with
  | TStr s => negb (is_empty s)
  | TDict d => negb (is_nil (map_to_list d))
  | TOther b => b
  end.

(** [v == s] for a [str] literal [s] *)
Definition scalar_eq_str (v : scalar) (s : string) : bool :=
  match v with SStr t => String.eqb t s | _ => false end.

Definition top_eq_str (v : topval) (s : string) : bool :=
  match v with TStr t => String.eqb t s | _ => false end.

(** [f"{v}"] *)
Definition fmt (v : scalar) : string :=
  match v with
  | SNone => "None"
  | SStr s => s
  | SOther _ t => t
  end.

(** [m.get(k, dflt)] where [m] is expected to map field names to fields *)
Definition fields_get (m : topval) (k : string) (dflt : field) : result field :=
  match m with
  | TDict d => Ok (default dflt (d !! k))
  | _ => Raise AttributeError
  end.

(** [f.get(k, dflt)] where [f] is expected to be a field *)
Definition field_get (f : field) (k : string) (dflt : scalar) : result scalar :=
  match f with
  | FDict d => Ok (default dflt (d !! k))
  | FOther _ => Raise AttributeError
  end.

(** [m.get(k, {}).get("value", dflt)] *)
Definition value_of (m : topval) (k : string) (dflt : scalar) : result scalar :=
  match fields_get m k (FDict empty) with
  | Ok f => field_get f "value" dflt
  | Raise e => Raise e
  end.

(** [v.strip()], [v.upper()]: among the JSON values only a [str] has
    the method; on [None], a number, a boolean, a list or a dictionary
    the attribute is missing. *)
Definition py_strip (v : scalar) : result string :=
  match v with SStr s => Ok (strip s) | _ => Raise AttributeError end.

Definition py_upper (v : scalar) : result string :=
  match v with SStr s => Ok (upper s) | _ => Raise AttributeError end.

(** [any(re.search(p, v, re.IGNORECASE) for p in patterns)] *)
Definition search_any (patterns : list Re.regex) (v : scalar) : result bool :=
  match patterns, v with
  | [], _ => Ok false
  | _ :: _, SStr s => Ok (existsb (fun p => Re.search true p s) patterns)
  | _ :: _, _ => Raise TypeError
  end.

End PyVal.

(** ** [ValidationResult] and the report *)

Record ValidationResult : Type := mkResult {
  test_name : string;
  passed : bool;
  message : string;
  severity : string
}.

(** The dictionary [to_dict] returns. *)
Record outcome : Type := mkOutcome {
  o_test : string;
  o_passed : bool;
  o_message : string;
  o_severity : string
}.

Definition to_dict (r : ValidationResult) : outcome :=
  mkOutcome (test_name r) (passed r) (message r) (severity r).

(** The two dictionaries [validate] returns. *)
Inductive report : Type :=
| Skipped (validation_run : bool) (message : string)
| Report (validation_run : bool)
         (total_tests passed failed errors warnings : nat)
         (all_tests_passed : bool)
         (test_results error_details warning_details : list outcome).

(** ** The validator's monad: [self.results] as state, exceptions *)

Definition M (A : Type) : Type :=
  list ValidationResult -> result A * list ValidationResult.

Definition ret {A : Type} (a : A) : M A := fun st => (Ok a, st).

Definition bind {A B : Type} (c : M A) (k : A -> M B) : M B :=
  fun st =>
    match c st with
    | (Ok a, st') => k a st'
    | (Raise e, st') => (Raise e, st')
    end.

Definition lift {A : Type} (r : result A) : M A := fun st => (r, st).

Definition get_results : M (list ValidationResult) := fun st => (Ok st, st).

Definition set_results (l : list ValidationResult) : M unit :=
  fun _ => (Ok tt, l).

Declare Scope py_scope.
Delimit Scope py_scope with py.
Notation "x <- c ;; k" := (bind c (fun x => k))
  (at level 100, c at next level, right associativity) : py_scope.
Notation "c ;; k" := (bind c (fun _ => k))
  (at level 100, right associativity) : py_scope.
Local Open Scope py_scope.

(** ** Quotients by 365.25

    [days / 365.25] is a float in the source and the exact rational
    [4 * days / 1461] here.  [days] is an integer below four million, so
    the quotient is either equal to, or at least 1/29220 away from, each
    bound it is compared with (1, 150, 0.5, 20), each integer and each
    odd multiple of 0.05: float rounding, which is below 1e-12 there,
    changes neither a comparison, nor [int(age)], nor the digit printed
    by [:.1f]. *)

Module PyNum.
Import PyStr.

Definition years (days : Z) : Q := (inject_Z days / (1461 # 4))%Q.

(** [int(q)]: truncation towards zero *)
Definition int_of (q : Q) : Z := Z.quot (Qnum q) (Zpos (Qden q)).

(** [f"{q:.1f}"] *)
Definition format_1f (q : Q) : string :=
  let tenths := Qfloor (Qabs.Qabs q * (10 # 1) + (1 # 2))%Q in
  (if Qnum q <? 0 then "-" else EmptyString)
  ++ of_int (tenths / 10) ++ "." ++ of_int (tenths mod 10).

Definition between (lo hi q : Q) : bool := Qle_bool lo q && Qle_bool q hi.

End PyNum.

(** ** [DocumentValidator] *)

Module DocumentValidator.
Import PyStr PyVal PyDate PyNum.

Definition VALID_COUNTRIES : list string :=
  ["USA"; "US"; "UNITED STATES"; "UNITED STATES OF AMERICA";
   "UK"; "GB"; "UNITED KINGDOM"; "GREAT BRITAIN";
   "CANADA"; "CA"; "CAN"; "AUSTRALIA"; "AU"; "AUS";
   "INDIA"; "IN"; "IND"; "CHINA"; "CN"; "CHN";
   "JAPAN"; "JP"; "JPN"; "GERMANY"; "DE"; "DEU";
   "FRANCE"; "FR"; "FRA"; "ITALY"; "IT"; "ITA";
   "SPAIN"; "ES"; "ESP"; "MEXICO"; "MX"; "MEX";
   "BRAZIL"; "BR"; "BRA"; "RUSSIA"; "RU"; "RUS";
   "SOUTH AFRICA"; "ZA"; "ZAF"].

(** [s in l] for a list or set of [str] *)
Definition str_in (s : string) (l : list string) : bool :=
  existsb (String.eqb s) l.

Definition scalar_in (v : scalar) (l : list string) : bool :=
  existsb (scalar_eq_str v) l.

(** The pattern [[^A-Z0-9]] *)
Definition not_alnum : Re.cset :=
  Re.Compl (Re.Union (Re.Range "A" "Z") (Re.Range "0" "9")).

(** The patterns [\d+'\s*\d+] followed by a double quote,
    [\d+\s*ft\s*\d*\s*in] and [\d+\s*cm] *)
Definition height_patterns : list Re.regex :=
  [ Re.cats [Re.plus Re.Digit; Re.lit "'"; Re.Star Re.Space;
             Re.plus Re.Digit; Re.lit "034"];
    Re.cats [Re.plus Re.Digit; Re.Star Re.Space; Re.lit "f"; Re.lit "t";
             Re.Star Re.Space; Re.Star Re.Digit; Re.Star Re.Space;
             Re.lit "i"; Re.lit "n"];
    Re.cats [Re.plus Re.Digit; Re.Star Re.Space; Re.lit "c"; Re.lit "m"] ].

(** The patterns [\d+\s*lbs?] and [\d+\s*kg] *)
Definition weight_patterns : list Re.regex :=
  [ Re.cats [Re.plus Re.Digit; Re.Star Re.Space; Re.lit "l"; Re.lit "b";
             Re.opt (Re.lit "s")];
    Re.cats [Re.plus Re.Digit; Re.Star Re.Space; Re.lit "k"; Re.lit "g"] ].

Definition _add_result (test_name : string) (passed : bool)
    (message severity : string) : M unit :=
  fun st => (Ok tt, (st ++ [mkResult test_name passed message severity])%list).

(** A call of [_add_result] with three arguments: [severity] takes the
    default of the signature. *)
Definition _add_result_default (test_name : string) (passed : bool)
    (message : string) : M unit :=
  _add_result test_name passed message "error".

(** [datetime.strptime(date_str, "%Y-%m-%d")] raises [TypeError] on
    what is not a [str]; both exceptions are caught. *)
Definition _validate_date (date_str : scalar) : result (bool * option datetime) :=
  match (match date_str with
         | SStr s => strptime s
         | _ => Raise TypeError
         end) with
  | Ok dt => Ok (true, Some dt)
  | Raise ValueError | Raise TypeError => Ok (false, None)
  | Raise e => Raise e
  end.

(** A comparison or subtraction of dates raises [TypeError] on [None]. *)
Definition need_dt (o : option datetime) : result datetime :=
  match o with Some d => Ok d | None => Raise TypeError end.

(** Each method below is the sequence of the tests its comments
    announce ([# Test: ...]); every test is a definition of its own,
    named after the field it checks, and takes the local variables it
    reads. *)

(** [# Test: Full name should be present and non-empty], with the
    nested test on the number of parts *)
Definition test_full_name (essential_fields : topval) : M unit :=
  v <- lift (value_of essential_fields "full_name" (SStr EmptyString)) ;;
  full_name <- lift (py_strip v) ;;
  if negb (is_empty full_name) then
    _add_result_default "essential_fields.full_name.present" true
      ("Full name is present: " ++ full_name) ;;
    let name_parts := split full_name in
    if (2 <=? length name_parts)%nat then
      _add_result_default "essential_fields.full_name.format" true
        "Name has at least first and last name"
    else
      _add_result "essential_fields.full_name.format" false
        ("Name may be incomplete - only "
         ++ of_int (Z.of_nat (length name_parts)) ++ " part(s) found")
        "warning"
  else
    _add_result_default "essential_fields.full_name.present" false
      "Full name is missing or empty".

(** [# Test: Date of birth validation] *)
Definition test_date_of_birth (now : datetime) (essential_fields : topval) : M unit :=
  dob <- lift (value_of essential_fields "date_of_birth" (SStr EmptyString)) ;;
  if scalar_truthy dob then
    r <- lift (_validate_date dob) ;;
    let '(dob_valid, dob_date) := r in
    if dob_valid then
      _add_result_default "essential_fields.date_of_birth.format" true
        ("Date of birth is in valid format: " ++ fmt dob) ;;
      d <- lift (need_dt dob_date) ;;
      (if lt d now then
         _add_result_default "essential_fields.date_of_birth.past" true
           "Date of birth is in the past"
       else
         _add_result_default "essential_fields.date_of_birth.past" false
           "Date of birth is in the future - invalid") ;;
      d' <- lift (need_dt dob_date) ;;
      let age := years (sub_days now d') in
      if between (1 # 1) (150 # 1) age then
        _add_result_default "essential_fields.date_of_birth.reasonable" true
          ("Age is reasonable: ~" ++ of_int (int_of age) ++ " years")
      else
        _add_result_default "essential_fields.date_of_birth.reasonable" false
          ("Age seems unreasonable: ~" ++ of_int (int_of age) ++ " years")
    else
      _add_result_default "essential_fields.date_of_birth.format" false
        ("Date of birth format is invalid: " ++ fmt dob)
  else
    _add_result_default "essential_fields.date_of_birth.present" false
      "Date of birth is missing".

(** [# Test: Sex validation] *)
Definition test_sex (essential_fields : topval) : M unit :=
  sex <- lift (value_of essential_fields "sex" (SStr EmptyString)) ;;
  if scalar_in sex ["M"; "F"; "X"] then
    _add_result_default "essential_fields.sex.valid" true
      ("Sex is valid: " ++ fmt sex)
  else if scalar_truthy sex then
    _add_result "essential_fields.sex.valid" false
      ("Sex value is invalid: " ++ fmt sex ++ " (expected M, F, or X)")
      "warning"
  else
    _add_result "essential_fields.sex.present" false "Sex is missing" "warning".

Definition _validate_essential_fields (now : datetime)
    (essential_fields : topval) : M unit :=
  test_full_name essential_fields ;;
  test_date_of_birth now essential_fields ;;
  test_sex essential_fields.

(** The tests of [_validate_document_dates]; [issue], [expiry] and
    [birth] are the pairs [(valid, dt)] the method computes first. *)

(** [# Test: Issue date should be valid] *)
Definition test_issue_format (doc_type : string)
    (issue_date : scalar) (issue : bool * option datetime) : M unit :=
  if scalar_truthy issue_date then
    if issue.1 then
      _add_result_default (doc_type ++ ".date_of_issue.format") true
        ("Date of issue is valid: " ++ fmt issue_date)
    else
      _add_result_default (doc_type ++ ".date_of_issue.format") false
        ("Date of issue format is invalid: " ++ fmt issue_date)
  else ret tt.

(** [# Test: Expiry date should be valid] *)
Definition test_expiry_format (doc_type : string)
    (expiry_date : scalar) (expiry : bool * option datetime) : M unit :=
  if scalar_truthy expiry_date then
    if expiry.1 then
      _add_result_default (doc_type ++ ".date_of_expiry.format") true
        ("Date of expiry is valid: " ++ fmt expiry_date)
    else
      _add_result_default (doc_type ++ ".date_of_expiry.format") false
        ("Date of expiry format is invalid: " ++ fmt expiry_date)
  else ret tt.

(** [# Test: Expiry should be after issue] *)
Definition test_expiry_after_issue (doc_type : string)
    (issue_date expiry_date : scalar)
    (issue expiry : bool * option datetime) : M unit :=
  if issue.1 && expiry.1 then
    e <- lift (need_dt expiry.2) ;;
    i <- lift (need_dt issue.2) ;;
    if gt e i then
      _add_result_default (doc_type ++ ".dates.expiry_after_issue") true
        "Expiry date is after issue date"
    else
      _add_result_default (doc_type ++ ".dates.expiry_after_issue") false
        ("Expiry date (" ++ fmt expiry_date
         ++ ") is not after issue date (" ++ fmt issue_date ++ ")")
  else ret tt.

(** [# Test: Issue date should be after DOB] *)
Definition test_issue_after_birth (doc_type : string)
    (issue_date dob : scalar)
    (issue birth : bool * option datetime) : M unit :=
  if issue.1 && birth.1 then
    i <- lift (need_dt issue.2) ;;
    b <- lift (need_dt birth.2) ;;
    if gt i b then
      _add_result_default (doc_type ++ ".dates.issue_after_birth") true
        "Issue date is after date of birth"
    else
      _add_result_default (doc_type ++ ".dates.issue_after_birth") false
        ("Issue date (" ++ fmt issue_date
         ++ ") is before date of birth (" ++ fmt dob ++ ")")
  else ret tt.

(** [# Test: Document validity period should be reasonable] *)
Definition test_validity_period (doc_type : string)
    (issue expiry : bool * option datetime) : M unit :=
  if issue.1 && expiry.1 then
    e <- lift (need_dt expiry.2) ;;
    i <- lift (need_dt issue.2) ;;
    let validity_years := years (sub_days e i) in
    if between (1 # 2) (20 # 1) validity_years then
      _add_result_default (doc_type ++ ".dates.validity_period") true
        ("Document validity period is reasonable: ~"
         ++ format_1f validity_years ++ " years")
    else
      _add_result (doc_type ++ ".dates.validity_period") false
        ("Document validity period seems unusual: ~"
         ++ format_1f validity_years ++ " years")
        "warning"
  else ret tt.

(** [# Test: Check if document is expired] *)
Definition test_not_expired (now : datetime) (doc_type : string)
    (expiry_date : scalar) (expiry : bool * option datetime) : M unit :=
  if expiry.1 then
    e <- lift (need_dt expiry.2) ;;
    if gt e now then
      _add_result_default (doc_type ++ ".dates.not_expired") true
        ("Document is not expired (expires " ++ fmt expiry_date ++ ")")
    else
      _add_result (doc_type ++ ".dates.not_expired") false
        ("Document has expired (expired on " ++ fmt expiry_date ++ ")")
        "warning"
  else ret tt.

(** [self._validate_date(d) if d else (False, None)] *)
Definition parse_if_given (date : scalar) : result (bool * option datetime) :=
  if scalar_truthy date then _validate_date date else Ok (false, None).

Definition _validate_document_dates (now : datetime)
    (issue_date expiry_date dob : scalar) (doc_type : string) : M unit :=
  issue <- lift (parse_if_given issue_date) ;;
  expiry <- lift (parse_if_given expiry_date) ;;
  birth <- lift (parse_if_given dob) ;;
  test_issue_format doc_type issue_date issue ;;
  test_expiry_format doc_type expiry_date expiry ;;
  test_expiry_after_issue doc_type issue_date expiry_date issue expiry ;;
  test_issue_after_birth doc_type issue_date dob issue birth ;;
  test_validity_period doc_type issue expiry ;;
  test_not_expired now doc_type expiry_date expiry.

(** [# Test: Date validations]: the three arguments every caller
    computes for [_validate_document_dates], in evaluation order, and
    the call. *)
Definition test_document_dates (now : datetime)
    (essential_fields metadata : topval) (doc_type : string) : M unit :=
  issue_date <- lift (value_of metadata "date_of_issue" SNone) ;;
  expiry_date <- lift (value_of metadata "date_of_expiry" SNone) ;;
  dob <- lift (value_of essential_fields "date_of_birth" SNone) ;;
  _validate_document_dates now issue_date expiry_date dob doc_type.

(** [len(re.sub(r, empty, u))] for the pattern [[^A-Z0-9]] *)
Definition clean_len (u : string) : Z := len (Re.sub_delete not_alnum u).

(** [# Test: Passport number should be present and typically 6-9
    alphanumeric characters] *)
Definition test_passport_number (metadata : topval) : M unit :=
  passport_num <- lift (value_of metadata "passport_number" (SStr EmptyString)) ;;
  if scalar_truthy passport_num then
    u <- lift (py_upper passport_num) ;;
    let n := clean_len u in
    if (6 <=? n) && (n <=? 15) then
      _add_result_default "passport.passport_number.length" true
        ("Passport number length is valid: " ++ of_int n ++ " characters")
    else
      _add_result "passport.passport_number.length" false
        ("Passport number length is unusual: " ++ of_int n
         ++ " characters (expected 6-15)")
        "warning"
  else
    _add_result_default "passport.passport_number.present" false
      "Passport number is missing".

(** [# Test: Country of issue should be valid] *)
Definition test_country_of_issue (metadata : topval) : M unit :=
  country <- lift (value_of metadata "country_of_issue" (SStr EmptyString)) ;;
  if scalar_truthy country then
    u <- lift (py_upper country) ;;
    if str_in u VALID_COUNTRIES then
      _add_result_default "passport.country_of_issue.valid" true
        ("Country of issue is valid: " ++ fmt country)
    else
      _add_result "passport.country_of_issue.valid" false
        ("Country of issue may be invalid or unrecognized: " ++ fmt country)
        "warning"
  else
    _add_result_default "passport.country_of_issue.present" false
      "Country of issue is missing".

(** [# Test: Nationality should be valid] *)
Definition test_nationality (metadata : topval) : M unit :=
  nationality <- lift (value_of metadata "nationality" (SStr EmptyString)) ;;
  if scalar_truthy nationality then
    u <- lift (py_upper nationality) ;;
    if str_in u VALID_COUNTRIES then
      _add_result_default "passport.nationality.valid" true
        ("Nationality is valid: " ++ fmt nationality)
    else
      _add_result "passport.nationality.valid" false
        ("Nationality may be invalid or unrecognized: " ++ fmt nationality)
        "warning"
  else ret tt.

Definition _validate_passport (now : datetime)
    (essential_fields metadata : topval) : M unit :=
  test_passport_number metadata ;;
  test_country_of_issue metadata ;;
  test_nationality metadata ;;
  test_document_dates now essential_fields metadata "passport".

(** [# Test: DL number should be present] *)
Definition test_dl_number (metadata : topval) : M unit :=
  dl_number <- lift (value_of metadata "dl_number" (SStr EmptyString)) ;;
  if scalar_truthy dl_number then
    u <- lift (py_upper dl_number) ;;
    let n := clean_len u in
    if (5 <=? n) && (n <=? 20) then
      _add_result_default "license.dl_number.length" true
        ("License number length is valid: " ++ of_int n ++ " characters")
    else
      _add_result "license.dl_number.length" false
        ("License number length is unusual: " ++ of_int n ++ " characters")
        "warning"
  else
    _add_result_default "license.dl_number.present" false
      "License number is missing".

(** [# Test: Address should be present for licenses (required field)];
    [complete] is [address and len(address.strip()) > 5]. *)
Definition test_address (essential_fields : topval) : M unit :=
  address <- lift (value_of essential_fields "address" (SStr EmptyString)) ;;
  complete <- lift (if scalar_truthy address then
                      match py_strip address with
                      | Ok t => Ok (5 <? len t)
                      | Raise e => Raise e
                      end
                    else Ok false) ;;
  if complete : bool then
    _add_result_default "license.address.present" true
      "Address is present and appears complete"
  else
    _add_result_default "license.address.present" false
      "Address is missing or incomplete".

(** [# Test: Height format validation] *)
Definition test_height (metadata : topval) : M unit :=
  height <- lift (value_of metadata "height" (SStr EmptyString)) ;;
  if scalar_truthy height then
    found <- lift (search_any height_patterns height) ;;
    if found : bool then
      _add_result_default "license.height.format" true
        ("Height format is valid: " ++ fmt height)
    else
      _add_result "license.height.format" false
        ("Height format may be invalid: " ++ fmt height) "warning"
  else ret tt.

(** [# Test: Weight format validation] *)
Definition test_weight (metadata : topval) : M unit :=
  weight <- lift (value_of metadata "weight" (SStr EmptyString)) ;;
  if scalar_truthy weight then
    found <- lift (search_any weight_patterns weight) ;;
    if found : bool then
      _add_result_default "license.weight.format" true
        ("Weight format is valid: " ++ fmt weight)
    else
      _add_result "license.weight.format" false
        ("Weight format may be invalid: " ++ fmt weight) "warning"
  else ret tt.

Definition _validate_license (now : datetime)
    (essential_fields metadata : topval) : M unit :=
  test_dl_number metadata ;;
  test_address essential_fields ;;
  test_height metadata ;;
  test_weight metadata ;;
  test_document_dates now essential_fields metadata "license".

(** [metadata and any(v.get("value") for v in metadata.values()
    if isinstance(v, dict))] *)
Definition any_value (metadata : topval) : result bool :=
  if top_truthy metadata then
    match metadata with
    | TDict d =>
        Ok (existsb
              (fun f => match f with
                        | FDict fd => scalar_truthy (default SNone (fd !! "value"))
                        | FOther _ => false
                        end)
              (map snd (map_to_list d)))
    | _ => Raise AttributeError
    end
  else Ok false.

(** [bool(metadata.get(k))] *)
Definition has_field (metadata : topval) (k : string) : result bool :=
  match metadata with
  | TDict d =>
      Ok (match d !! k with Some f => field_truthy f | None => false end)
  | _ => Raise AttributeError
  end.

(** [# Test: At least some metadata should be present] *)
Definition test_metadata_present (metadata : topval) : M unit :=
  some <- lift (any_value metadata) ;;
  if some : bool then
    _add_result_default "other_id.metadata.present" true
      "Some metadata fields were successfully extracted"
  else
    _add_result "other_id.metadata.present" false
      "No metadata could be extracted from this ID" "warning".

(** [# Test: ID type should ideally be identified] *)
Definition test_id_type (metadata : topval) : M unit :=
  id_type <- lift (value_of metadata "id_type" (SStr EmptyString)) ;;
  if scalar_truthy id_type then
    _add_result_default "other_id.id_type.identified" true
      ("ID type was identified: " ++ fmt id_type)
  else
    _add_result "other_id.id_type.identified" false
      "ID type could not be identified" "warning".

(** [# Test: Date validations (if dates are present)] *)
Definition test_dates_if_present (now : datetime)
    (essential_fields metadata : topval) : M unit :=
  issue <- lift (has_field metadata "date_of_issue") ;;
  dates <- lift (if issue : bool then Ok true
                 else has_field metadata "date_of_expiry") ;;
  if dates : bool then
    test_document_dates now essential_fields metadata "other_id"
  else ret tt.

Definition _validate_other_id (now : datetime)
    (essential_fields metadata : topval) : M unit :=
  test_metadata_present metadata ;;
  test_id_type metadata ;;
  test_dates_if_present now essential_fields metadata.

(** [sum(1 for r in results if p(r))] *)
Definition sum_ones (p : ValidationResult -> bool)
    (results : list ValidationResult) : nat :=
  fold_left (fun n r => if p r then (n + 1)%nat else n) results 0%nat.

Definition is_error (r : ValidationResult) : bool :=
  negb (passed r) && String.eqb (severity r) "error".

Definition is_warning (r : ValidationResult) : bool :=
  negb (passed r) && String.eqb (severity r) "warning".

Definition validate (now : datetime)
    (extraction_result : gmap string topval) : M report :=
  set_results [] ;;
  if negb (top_eq_str (default (TOther false) (extraction_result !! "status"))
                      "success")
  then ret (Skipped false "Validation skipped - extraction was not successful")
  else
    let doc_type := default (TOther false) (extraction_result !! "document_type") in
    let essential_fields :=
      default (TDict empty) (extraction_result !! "essential_fields") in
    let metadata := default (TDict empty) (extraction_result !! "metadata") in
    _validate_essential_fields now essential_fields ;;
    (if top_eq_str doc_type "passport" then
       _validate_passport now essential_fields metadata
     else if top_eq_str doc_type "drivers_license" then
       _validate_license now essential_fields metadata
     else if top_eq_str doc_type "other_id" then
       _validate_other_id now essential_fields metadata
     else ret tt) ;;
    results <- get_results ;;
    let passed_tests := sum_ones passed results in
    let failed_tests := sum_ones (fun r => negb (passed r)) results in
    let errors := List.filter is_error results in
    let warnings := List.filter is_warning results in
    ret (Report true (length results) passed_tests failed_tests
           (length errors) (length warnings)
           (Nat.eqb failed_tests 0)
           (map to_dict results) (map to_dict errors) (map to_dict warnings)).

End DocumentValidator.

(** ** Vocabulary of the properties *)

Module Props.
Import PyStr PyVal PyDate DocumentValidator.

(** The shape of [ExtractionResult]: a [status] string, and for
    [essential_fields] and [metadata], when present, a map whose values
    are field dictionaries; the ["value"] of a field, when present, is a
    [str].  Other keys and the [document_type] are free. *)
Definition field_ok (f : field) : bool :=
  match f with
  | FDict d =>
      match d !! "value" with
      | None | Some (SStr _) => true
      | Some _ => false
      end
  | FOther _ => false
  end.

Definition fields_ok (m : topval) : bool :=
  match m with
  | TDict d => forallb field_ok (map snd (map_to_list d))
  | _ => false
  end.

Definition conforms (x : gmap string topval) : bool :=
  match x !! "status" with Some (TStr _) => true | _ => false end
  && fields_ok (default (TDict empty) (x !! "essential_fields"))
  && fields_ok (default (TDict empty) (x !! "metadata")).

Definition status_is_success (x : gmap string topval) : bool :=
  top_eq_str (default (TOther false) (x !! "status")) "success".

(** Severity is one of the two levels, and a warning is never attached
    to a test that passed. *)
Definition graded (r : ValidationResult) : Prop :=
  severity r = "error" \/ (severity r = "warning" /\ passed r = false).

Definition o_failed_with (sev : string) (o : outcome) : bool :=
  negb (o_passed o) && String.eqb (o_severity o) sev.

(** A report whose counts agree with its lists, and whose outcomes
    have one of the two severities. *)
Definition well_formed (r : report) : Prop :=
  match r with
  | Skipped run _ => run = false
  | Report run total npassed nfailed nerrors nwarnings all tests errs warns =>
      run = true
      /\ total = length tests
      /\ npassed = length (List.filter o_passed tests)
      /\ nfailed = length (List.filter (fun o => negb (o_passed o)) tests)
      /\ errs = List.filter (o_failed_with "error") tests
      /\ warns = List.filter (o_failed_with "warning") tests
      /\ nerrors = length errs
      /\ nwarnings = length warns
      /\ all = Nat.eqb nfailed 0
      /\ Forall (fun o => o_severity o = "error" \/ o_severity o = "warning") tests
  end.

(** The texts [strptime] reads for [%Y-%m-%d]: four digits; a month
    from 1 to 12 in two digits, or in one when below 10; a day from 1 to
    31 in two digits, or, when below 10, in one digit or a blank and one
    digit. *)
Definition is_year_text (t : string) : bool :=
  match t with
  | String a (String b (String c (String d EmptyString))) =>
      is_digit a && is_digit b && is_digit c && is_digit d
  | _ => false
  end.

Definition is_numeral (hi : Z) (blank : bool) (t : string) : bool :=
  match t with
  | String a EmptyString => in_range "1" "9" a
  | String a (String b EmptyString) =>
      (blank && Ascii.eqb a " " && in_range "1" "9" b)
      || (is_digit a && is_digit b
          && (1 <=? 10 * digit_val a + digit_val b)
          && (10 * digit_val a + digit_val b <=? hi))
  | _ => false
  end.

Definition is_month_text : string -> bool := is_numeral 12 false.
Definition is_day_text : string -> bool := is_numeral 31 true.

(** [s] writes the date [dt] in the grammar the parser accepts. *)
Definition date_text (s : string) (dt : datetime) : Prop :=
  exists Y m d,
    s = Y ++ "-" ++ m ++ "-" ++ d
    /\ is_year_text Y = true /\ is_month_text m = true /\ is_day_text d = true
    /\ 1 <= to_int Y
    /\ to_int d <= days_in_month (to_int Y) (to_int m)
    /\ dt = mkdt (to_int Y) (to_int m) (to_int d) 0 0 0 0.

(** The strict form of the specification: [YYYY-MM-DD], zero-padded. *)
Definition is_strict_text (s : string) : bool :=
  match s with
  | String y1 (String y2 (String y3 (String y4 (String h1
      (String m1 (String m2 (String h2 (String d1 (String d2 EmptyString))))))))) =>
      is_digit y1 && is_digit y2 && is_digit y3 && is_digit y4
      && Ascii.eqb h1 "-" && is_digit m1 && is_digit m2
      && Ascii.eqb h2 "-" && is_digit d1 && is_digit d2
  | _ => false
  end.

(** One calendar date after another. *)
Definition date_after (a b : datetime) : Prop :=
  year b < year a
  \/ (year b = year a
      /\ (month b < month a \/ (month b = month a /\ day b < day a))).

(** A text has a part in the language of one of the patterns. *)
Definition found_in (patterns : list Re.regex) (s : string) : Prop :=
  exists p pre w post,
    In p patterns /\ s = pre ++ w ++ post /\ Re.lang true p w.

(** A run that returns [a] normally after appending [l] to the
    outcomes, with [Q a l]. *)
Definition runs {A : Type} (c : M A) (Q : A -> list ValidationResult -> Prop) : Prop :=
  forall st, exists a l, c st = (Ok a, (st ++ l)%list) /\ Q a l.

(** A run that keeps a property of all the outcomes recorded, however
    it ends. *)
Definition preserves {A : Type} (P : ValidationResult -> Prop) (c : M A) : Prop :=
  forall st, Forall P st -> Forall P (snd (c st)).

Definition named (names : list string) (r : ValidationResult) : Prop :=
  In (test_name r) names.

(** A run that returns normally and records only outcomes with [P]. *)
Definition only (P : ValidationResult -> Prop) (c : M unit) : Prop :=
  runs c (fun _ l => Forall P l).

(** The test identifiers of each group of tests. *)
Definition full_name_tests : list string :=
  ["essential_fields.full_name.present"; "essential_fields.full_name.format"].

Definition date_of_birth_tests : list string :=
  ["essential_fields.date_of_birth.format"; "essential_fields.date_of_birth.past";
   "essential_fields.date_of_birth.reasonable";
   "essential_fields.date_of_birth.present"].

Definition sex_tests : list string :=
  ["essential_fields.sex.valid"; "essential_fields.sex.present"].

Definition format_tests (doc_type : string) : list string :=
  [doc_type ++ ".date_of_issue.format"; doc_type ++ ".date_of_expiry.format"].

Definition later_date_tests (doc_type : string) : list string :=
  [doc_type ++ ".dates.issue_after_birth"; doc_type ++ ".dates.validity_period";
   doc_type ++ ".dates.not_expired"].

Definition date_tests (doc_type : string) : list string :=
  format_tests doc_type ++ [doc_type ++ ".dates.expiry_after_issue"]
  ++ later_date_tests doc_type.

Definition passport_tests : list string :=
  ["passport.passport_number.length"; "passport.passport_number.present";
   "passport.country_of_issue.valid"; "passport.country_of_issue.present";
   "passport.nationality.valid"].

Definition number_address_tests : list string :=
  ["license.dl_number.length"; "license.dl_number.present";
   "license.address.present"].

Definition other_id_tests : list string :=
  ["other_id.metadata.present"; "other_id.id_type.identified"].

Definition not_named (name : string) (r : ValidationResult) : Prop :=
  test_name r <> name.

(** Outcomes in three parts: some with [P1], then a part with [Q2],
    then some with [P3]. *)
Definition framed (P1 : ValidationResult -> Prop)
    (Q2 : list ValidationResult -> Prop) (P3 : ValidationResult -> Prop)
    (_ : unit) (l : list ValidationResult) : Prop :=
  exists l1 l2 l3,
    l = (l1 ++ l2 ++ l3)%list /\ Forall P1 l1 /\ Q2 l2 /\ Forall P3 l3.

(** The outcomes of the name tests on the value [s] of [full_name], as
    the specification lists them. *)
Definition full_name_outcomes (s : string) : list ValidationResult :=
  let name := strip s in
  let parts := split name in
  if is_empty name then
    [mkResult "essential_fields.full_name.present" false
       "Full name is missing or empty" "error"]
  else
    [mkResult "essential_fields.full_name.present" true
       ("Full name is present: " ++ name) "error";
     if (2 <=? length parts)%nat then
       mkResult "essential_fields.full_name.format" true
         "Name has at least first and last name" "error"
     else
       mkResult "essential_fields.full_name.format" false
         ("Name may be incomplete - only "
          ++ of_int (Z.of_nat (length parts)) ++ " part(s) found") "warning"].

(** The outcome of the sex test on the value [s] of [sex]. *)
Definition sex_outcome (s : string) : ValidationResult :=
  if str_in s ["M"; "F"; "X"] then
    mkResult "essential_fields.sex.valid" true ("Sex is valid: " ++ s) "error"
  else if is_empty s then
    mkResult "essential_fields.sex.present" false "Sex is missing" "warning"
  else
    mkResult "essential_fields.sex.valid" false
      ("Sex value is invalid: " ++ s ++ " (expected M, F, or X)") "warning".

(** The outcomes of the height test on the value [h] of [height]. *)
Definition height_outcomes (h : string) : list ValidationResult :=
  if is_empty h then []
  else if existsb (fun p => Re.search true p h) height_patterns then
    [mkResult "license.height.format" true ("Height format is valid: " ++ h) "error"]
  else
    [mkResult "license.height.format" false
       ("Height format may be invalid: " ++ h) "warning"].

(** The outcome of the test of expiry against issue, on two dates that
    parsed as [di] and [de]. *)
Definition expiry_after_issue_outcome (doc_type : string)
    (issue_date expiry_date : scalar) (di de : datetime) : ValidationResult :=
  if gt de di then
    mkResult (doc_type ++ ".dates.expiry_after_issue") true
      "Expiry date is after issue date" "error"
  else
    mkResult (doc_type ++ ".dates.expiry_after_issue") false
      ("Expiry date (" ++ fmt expiry_date
       ++ ") is not after issue date (" ++ fmt issue_date ++ ")") "error".

(** The outcome list of a report; the skip sentinel has none. *)
Definition outcomes_of (r : report) : list outcome :=
  match r with
  | Report _ _ _ _ _ _ _ tests _ _ => tests
  | Skipped _ _ => []
  end.

(** The test identifiers a run can record. *)
Definition all_tests : list string :=
  full_name_tests ++ date_of_birth_tests ++ sex_tests ++ passport_tests
  ++ number_address_tests ++ ["license.height.format"; "license.weight.format"]
  ++ other_id_tests
  ++ date_tests "passport" ++ date_tests "license" ++ date_tests "other_id".

(** The characters below 256, and the ones a numeral is made of. *)
Definition all_chars : list ascii := map ascii_of_nat (seq 0 256).

Definition numeral_chars : list ascii :=
  [" "; "0"; "1"; "2"; "3"; "4"; "5"; "6"; "7"; "8"; "9"]%char.

(** The texts of at most two numeral characters, and among them the
    months and the days. *)
Definition short_texts : list string :=
  flat_map (fun a => String a EmptyString
                     :: map (fun b => String a (String b EmptyString)) numeral_chars)
           numeral_chars.

Definition month_texts : list string := List.filter is_month_text short_texts.
Definition day_texts : list string := List.filter is_day_text short_texts.

End Props.

(** ** Sample inputs *)

Module Samples.
Import PyDate.

Definition noon : datetime := mkdt 2024 6 1 12 30 0 0.

Definition fv (s : string) : field :=
  FDict (list_to_map [("value", SStr s); ("confidence", SOther true "0.9")]).

Definition failed_extraction : gmap string topval :=
  list_to_map [("status", TStr "error")].

Definition license_fields : topval :=
  TDict (list_to_map
    [("full_name", fv "Madonna"); ("date_of_birth", fv "1990-05-15");
     ("sex", fv "Male")]).

Definition license_metadata : topval :=
  TDict (list_to_map
    [("dl_number", fv "AB 12-34-567"); ("height", fv "5 ft 10 in");
     ("date_of_issue", fv "2020-01-01"); ("date_of_expiry", fv "2019-01-01")]).

Definition license : gmap string topval :=
  list_to_map
    [("status", TStr "success"); ("document_type", TStr "drivers_license");
     ("essential_fields", license_fields); ("metadata", license_metadata)].

(** Malformed dates, an oversized number, characters above 127, an
    empty map. *)
Definition adversarial : gmap string topval :=
  list_to_map
    [("status", TStr "success"); ("document_type", TStr "passport");
     ("essential_fields",
      TDict (list_to_map
        [("full_name", fv (String (ascii_of_nat 233) (String (ascii_of_nat 160) EmptyString)));
         ("date_of_birth", fv "99999999999999999999-99-99");
         ("sex", FDict empty)]));
     ("metadata", TDict empty)].

(** A passport on which every test passes at [noon]. *)
Definition clean_passport : gmap string topval :=
  list_to_map
    [("status", TStr "success"); ("document_type", TStr "passport");
     ("essential_fields",
      TDict (list_to_map
        [("full_name", fv "Ada Lovelace"); ("date_of_birth", fv "1990-05-15");
         ("sex", fv "F")]));
     ("metadata",
      TDict (list_to_map
        [("passport_number", fv "X1234567"); ("country_of_issue", fv "uk");
         ("nationality", fv "United Kingdom");
         ("date_of_issue", fv "2020-01-01"); ("date_of_expiry", fv "2030-01-01")]))].

(** A field whose value is [None] instead of a string. *)
Definition null_name : gmap string topval :=
  list_to_map
    [("status", TStr "success");
     ("essential_fields",
      TDict (list_to_map [("full_name", FDict (list_to_map [("value", SNone)]))]))].

End Samples.

(** ** [config.py] *)

Module Config.

(** An entry of [MODEL_OPTIONS].  The two costs are float literals that
    are only copied, never computed with; they are kept as the decimal
    fractions written in the source. *)
Record model_info : Type := mkModel {
  id : string;
  name : string;
  speed : string;
  description : string;
  input_cost_per_1m : Q;
  output_cost_per_1m : Q
}.

(** The dictionary [get_model_pricing] returns. *)
Record pricing : Type := mkPricing {
  p_input_cost_per_1m : Q;
  p_output_cost_per_1m : Q
}.

(** [MODEL_OPTIONS], in insertion order; a key is held as the bytes of
    its UTF-8 text. *)
Definition MODEL_OPTIONS : list (string * model_info) :=
  [ ("🔬 Qwen (Accurate)",
     mkModel "accounts/fireworks/models/qwen2p5-vl-32b-instruct"
       "Qwen 2.5 VL 32B" "slow" "Most accurate, slower processing"
       (9 # 10) (9 # 10));
    ("🎯 Llama Maverick (Balanced)",
     mkModel "accounts/fireworks/models/llama-v3p2-90b-vision-instruct"
       "Llama 3.2 90B Vision Maverick" "medium" "Balanced speed and accuracy"
       (22 # 100) (88 # 100));
    ("⚡ Llama Scout (Fast)",
     mkModel "accounts/fireworks/models/llama-v3p2-11b-vision-instruct"
       "Llama 3.2 11B Vision Scout" "fast" "Fastest, good for classification"
       (15 # 100) (60 # 100)) ].

Definition DEFAULT_CLASSIFICATION_MODEL : string :=
  "accounts/fireworks/models/llama-v3p2-90b-vision-instruct".

Definition DEFAULT_EXTRACTION_MODEL : string :=
  "accounts/fireworks/models/qwen2p5-vl-32b-instruct".

(** The loop of [get_model_pricing] over the values of a table: the
    first entry with the identifier, else the fallback. *)
Fixpoint pricing_in (options : list (string * model_info)) (model_id : string) : pricing :=
  match options with
  | (_, info) :: rest =>
      if String.eqb (id info) model_id
      then mkPricing (input_cost_per_1m info) (output_cost_per_1m info)
      else pricing_in rest model_id
  | [] => mkPricing (9 # 10) (9 # 10)
  end.

Definition get_model_pricing (model_id : string) : pricing :=
  pricing_in MODEL_OPTIONS model_id.

(** The loop of [get_model_name] over the items of a table. *)
Fixpoint name_in (options : list (string * model_info)) (model_id : string) : string :=
  match options with
  | (key, info) :: rest =>
      if String.eqb (id info) model_id then key else name_in rest model_id
  | [] => "Unknown Model"
  end.

Definition get_model_name (model_id : string) : string :=
  name_in MODEL_OPTIONS model_id.

End Config.

(** ** [KYCDocumentExtractor.calculate_age] of [model.py] *)

Module KYCDocumentExtractor.
Import PyDate.

(** [(a1, a2) < (b1, b2)] on tuples of integers *)
Definition pair_lt (a1 a2 b1 b2 : Z) : bool :=
  match lex_compare [a1; a2] [b1; b2] with Lt => true | _ => false end.

(** The bare [except] turns every exception, of [strptime] on a string
    or on anything else, into [None]; [now] is [datetime.now()]. *)
Definition calculate_age (now : datetime) (dob : scalar) : option Z :=
  match (match dob with
         | SStr s => strptime s
         | _ => Raise TypeError
         end) with
  | Ok birth_date =>
      Some (year now - year birth_date
            - (if pair_lt (month now) (day now) (month birth_date) (day birth_date)
               then 1 else 0))
  | Raise _ => None
  end.

End KYCDocumentExtractor.

(** ** Vocabulary of the further properties *)

Module Shape.
Import PyStr PyVal PyDate PyNum DocumentValidator Props.

(** A run that, whenever it returns, has appended some [l] with
    [Q a l]; nothing is said of a run that raises. *)
Definition emits {A : Type} (c : M A) (Q : A -> list ValidationResult -> Prop) : Prop :=
  forall st a st', c st = (Ok a, st') -> exists l, st' = (st ++ l)%list /\ Q a l.

(** The test identifiers of a list of outcomes, in order. *)
Definition ids (l : list ValidationResult) : list string := map test_name l.

Definition ids_in (S : list (list string)) (_ : unit) (l : list ValidationResult) : Prop :=
  In (ids l) S.

(** The sequences made of one of [S1] followed by one of [S2]. *)
Definition seqs (S1 S2 : list (list string)) : list (list string) :=
  flat_map (fun a => map (fun b => (a ++ b)%list) S2) S1.

Definition optional (n : string) : list (list string) := [[]; [n]].

Definition full_name_ids : list (list string) :=
  [["essential_fields.full_name.present"];
   ["essential_fields.full_name.present"; "essential_fields.full_name.format"]].

Definition date_of_birth_ids : list (list string) :=
  [["essential_fields.date_of_birth.present"];
   ["essential_fields.date_of_birth.format"];
   ["essential_fields.date_of_birth.format"; "essential_fields.date_of_birth.past";
    "essential_fields.date_of_birth.reasonable"]].

Definition sex_ids : list (list string) :=
  [["essential_fields.sex.valid"]; ["essential_fields.sex.present"]].

Definition essential_ids : list (list string) :=
  seqs full_name_ids (seqs date_of_birth_ids sex_ids).

Definition date_ids (doc_type : string) : list (list string) :=
  seqs (optional (doc_type ++ ".date_of_issue.format"))
 (seqs (optional (doc_type ++ ".date_of_expiry.format"))
 (seqs (optional (doc_type ++ ".dates.expiry_after_issue"))
 (seqs (optional (doc_type ++ ".dates.issue_after_birth"))
 (seqs (optional (doc_type ++ ".dates.validity_period"))
       (optional (doc_type ++ ".dates.not_expired")))))).

Definition passport_ids : list (list string) :=
  seqs [["passport.passport_number.length"]; ["passport.passport_number.present"]]
 (seqs [["passport.country_of_issue.valid"]; ["passport.country_of_issue.present"]]
 (seqs (optional "passport.nationality.valid") (date_ids "passport"))).

Definition license_ids : list (list string) :=
  seqs [["license.dl_number.length"]; ["license.dl_number.present"]]
 (seqs [["license.address.present"]]
 (seqs (optional "license.height.format")
 (seqs (optional "license.weight.format") (date_ids "license")))).

Definition other_id_ids : list (list string) :=
  seqs [["other_id.metadata.present"]]
 (seqs [["other_id.id_type.identified"]] ([] :: date_ids "other_id")).

(** The sequences of test identifiers a full report can list. *)
Definition report_ids : list (list string) :=
  seqs essential_ids (passport_ids ++ license_ids ++ other_id_ids ++ [[]]).

Fixpoint distinct (l : list string) : bool :=
  match l with
  | [] => true
  | n :: l' => negb (existsb (String.eqb n) l') && distinct l'
  end.

(** The severity a test has when it fails: the tests that warn, all
    others being errors. *)
Definition warning_ids : list string :=
  ["essential_fields.full_name.format"; "essential_fields.sex.valid";
   "essential_fields.sex.present"; "passport.passport_number.length";
   "passport.country_of_issue.valid"; "passport.nationality.valid";
   "license.dl_number.length"; "license.height.format"; "license.weight.format";
   "other_id.metadata.present"; "other_id.id_type.identified";
   "passport.dates.validity_period"; "passport.dates.not_expired";
   "license.dates.validity_period"; "license.dates.not_expired";
   "other_id.dates.validity_period"; "other_id.dates.not_expired"].

Definition failure_severity (test : string) : string :=
  if str_in test warning_ids then "warning" else "error".

Definition fails_as_listed (r : ValidationResult) : Prop :=
  passed r = false -> severity r = failure_severity (test_name r).

(** Calendar vocabulary. *)
Definition year_length (y : Z) : Z := if is_leap y then 366 else 365.

Definition exists_date (t : datetime) : Prop :=
  check_date_fields (year t) (month t) (day t) = true.

(** A value [datetime.now()] can return. *)
Definition is_datetime (t : datetime) : bool :=
  check_date_fields (year t) (month t) (day t)
  && (0 <=? hour t) && (hour t <? 24) && (0 <=? minute t) && (minute t <? 60)
  && (0 <=? second t) && (second t <? 60)
  && (0 <=? microsecond t) && (microsecond t <? 1000000).

Definition is_midnight (t : datetime) : Prop :=
  hour t = 0 /\ minute t = 0 /\ second t = 0 /\ microsecond t = 0.

(** The days from the date of [a] to the date of [b]. *)
Definition days_between (a b : datetime) : Z := toordinal b - toordinal a.

(** What a character adds to the length of a document number once the
    number is put in upper case and all but [A-Z0-9] is deleted: one for
    a digit or an ASCII letter, two for a sharp s, nothing otherwise. *)
Definition counted (c : ascii) : Z :=
  if in_range "0" "9" c || in_range "A" "Z" c || in_range "a" "z" c then 1
  else if (code c =? 223)%N then 2
  else 0.

Fixpoint alnum_count (s : string) : Z :=
  match s with
  | String c t => counted c + alnum_count t
  | EmptyString => 0
  end.

(** A text of white space only. *)
Fixpoint blank (s : string) : bool :=
  match s with
  | String c t => is_space c && blank t
  | EmptyString => true
  end.

(** A text with its ASCII capitals made small. *)
Fixpoint lower (s : string) : string :=
  match s with
  | String c t => String (Re.ascii_lower c) (lower t)
  | EmptyString => EmptyString
  end.

(** Somewhere in the text: a digit, white space if any, and one of the
    units in letters of either case. *)
Definition quantity (units : list string) (s : string) : Prop :=
  exists pre d ws u post,
    s = pre ++ String d (ws ++ u ++ post)
    /\ is_digit d = true /\ blank ws = true /\ In (lower u) units.

(** The day of the year [year d + k] with the month and day of [d]. *)
Definition birthday (d : datetime) (k : Z) : datetime :=
  mkdt (year d + k) (month d) (day d) 0 0 0 0.

(** The identifiers of a table of models, in order. *)
Definition model_ids (options : list (string * Config.model_info)) : list string :=
  map (fun e => Config.id (snd e)) options.

End Shape.

(** ** The words of the specification

    Definitions written from the sentences of the specification and not
    from the code: of the embedding they use the classes of characters
    only ([is_space], [is_digit]), neither [strip], [split] and [upper]
    nor the patterns and the matcher of [Re].  The properties compare
    them with what the code computes. *)

Module Wording.
Import PyStr Shape.

(** The number of tokens of a text split on white space: a token starts
    at each character that is not white space and that begins the text
    or follows white space. *)
Fixpoint token_starts (after_space : bool) (s : string) : nat :=
  match s with
  | String c t =>
      ((if after_space && negb (is_space c) then 1 else 0)
       + token_starts (is_space c) t)%nat
  | EmptyString => 0%nat
  end.

Definition token_count (s : string) : nat := token_starts true s.

(** Digits only; one digit or more. *)
Fixpoint digits (s : string) : bool :=
  match s with
  | String c t => is_digit c && digits t
  | EmptyString => true
  end.

Definition numeral (s : string) : bool := negb (is_empty s) && digits s.

(** A letter of a unit, small in the specification, written small or
    as a capital; a text that spells a unit so. *)
Definition same_letter (c x : ascii) : bool :=
  Ascii.eqb c x || (in_range "a" "z" x && (code c + 32 =? code x)%N).

Fixpoint spelled (u unit : string) : bool :=
  match u, unit with
  | String c u', String x unit' => same_letter c x && spelled u' unit'
  | EmptyString, EmptyString => true
  | _, _ => false
  end.

(** The three height formats.  Feet and inches: a numeral, an
    apostrophe, white space if any, a numeral, a double quote. *)
Definition feet_inches (w : string) : Prop :=
  exists a ws b,
    w = a ++ "'" ++ ws ++ b ++ String "034" EmptyString
    /\ numeral a = true /\ blank ws = true /\ numeral b = true.

(** A numeral, [ft], digits if any, [in], with white space allowed
    between them, the letters in either case. *)
Definition ft_in (w : string) : Prop :=
  exists a s1 ft s2 b s3 inch,
    w = a ++ s1 ++ ft ++ s2 ++ b ++ s3 ++ inch
    /\ numeral a = true /\ blank s1 = true /\ spelled ft "ft" = true
    /\ blank s2 = true /\ digits b = true /\ blank s3 = true
    /\ spelled inch "in" = true.

(** A numeral, white space if any, [cm] in letters of either case. *)
Definition centimetres (w : string) : Prop :=
  exists a s1 cm,
    w = a ++ s1 ++ cm
    /\ numeral a = true /\ blank s1 = true /\ spelled cm "cm" = true.

Definition height_format (w : string) : Prop :=
  feet_inches w \/ ft_in w \/ centimetres w.

(** Some part of the text has the form [F]. *)
Definition has_part (F : string -> Prop) (h : string) : Prop :=
  exists pre w post, h = pre ++ w ++ post /\ F w.

End Wording.

Import PyStr PyVal PyDate PyNum DocumentValidator Props.
Local Open Scope py_scope.

(** * Properties *)

(** ** Outcomes are graded, whatever the input *)

Section Preserves.
Variable P : ValidationResult -> Prop.

Lemma preserves_ret {A} (a : A) : preserves P (ret a).
Proof. intros st H; exact H. Qed.

Lemma preserves_lift {A} (r : result A) : preserves P (lift r).
Proof. intros st H; exact H. Qed.

Lemma preserves_bind {A B} (c : M A) (k : A -> M B) :
  preserves P c -> (forall a, preserves P (k a)) -> preserves P (bind c k).
Proof.
  intros Hc Hk st H. unfold bind. specialize (Hc st H).
  destruct (c st) as [[a|e] st']; simpl in *; [apply Hk|]; assumption.
Qed.

Lemma preserves_add n p m s :
  P (mkResult n p m s) -> preserves P (_add_result n p m s).
Proof.
  intros Hr st H. simpl. apply Forall_app; split; [assumption|].
  constructor; [assumption|constructor].
Qed.
End Preserves.

Lemma graded_error n p m : graded (mkResult n p m "error").
Proof. left; reflexivity. Qed.

Lemma graded_warning n m : graded (mkResult n false m "warning").
Proof. right; split; reflexivity. Qed.

Ltac unfold_tests :=
  unfold _validate_essential_fields, test_full_name, test_date_of_birth, test_sex,
    _validate_passport, test_passport_number, test_country_of_issue, test_nationality,
    _validate_license, test_dl_number, test_address, test_height, test_weight,
    _validate_other_id, test_metadata_present, test_id_type, test_dates_if_present,
    test_document_dates, _validate_document_dates, test_issue_format,
    test_expiry_format, test_expiry_after_issue, test_issue_after_birth,
    test_validity_period, test_not_expired.

Ltac preserve :=
  repeat
    match goal with
    | |- preserves _ (ret _) => apply preserves_ret
    | |- preserves _ (lift _) => apply preserves_lift
    | |- preserves _ (_add_result_default _ _ _) =>
        apply preserves_add; apply graded_error
    | |- preserves _ (_add_result _ _ _ _) =>
        apply preserves_add; apply graded_warning
    | |- preserves _ (bind _ _) => apply preserves_bind; [| intros ? ]
    | |- preserves _ (if ?b then _ else _) => destruct b
    | |- preserves _ (let '(_, _) := ?r in _) => destruct r
    | |- preserves _ (let _ := _ in _) => cbv zeta
    end.

Lemma essential_fields_graded now ef :
  preserves graded (_validate_essential_fields now ef).
Proof. unfold_tests. preserve. Qed.

Lemma passport_graded now ef md : preserves graded (_validate_passport now ef md).
Proof. unfold_tests. preserve. Qed.

Lemma license_graded now ef md : preserves graded (_validate_license now ef md).
Proof. unfold_tests. preserve. Qed.

Lemma other_id_graded now ef md : preserves graded (_validate_other_id now ef md).
Proof. unfold_tests. preserve. Qed.

(** ** Counting *)

Lemma sum_ones_from (p : ValidationResult -> bool) l n :
  fold_left (fun n r => if p r then (n + 1)%nat else n) l n
  = (n + length (List.filter p l))%nat.
Proof.
  revert n; induction l as [|r l IH]; intros n; simpl; [lia|].
  rewrite IH. destruct (p r); simpl; lia.
Qed.

Lemma sum_ones_filter p l : sum_ones p l = length (List.filter p l).
Proof. unfold sum_ones. rewrite sum_ones_from. reflexivity. Qed.

Lemma passed_failed_split (l : list ValidationResult) :
  length l = (length (List.filter passed l)
              + length (List.filter (fun r => negb (passed r)) l))%nat.
Proof.
  induction l as [|r l IH]; simpl; [reflexivity|].
  destruct (passed r); simpl; lia.
Qed.

Lemma errors_warnings_split (l : list ValidationResult) :
  Forall graded l ->
  (length (List.filter is_error l) + length (List.filter is_warning l))%nat
  = length (List.filter (fun r => negb (passed r)) l).
Proof.
  induction 1 as [|r l Hr _ IH]; simpl; [reflexivity|].
  assert (He : (is_error r, is_warning r) = (negb (passed r), false)
               \/ (is_error r, is_warning r, passed r) = (false, true, false)).
  { unfold is_error, is_warning. destruct Hr as [-> | [-> ->]].
    - left. destruct (passed r); reflexivity.
    - right. reflexivity. }
  destruct He as [He | He].
  - injection He as -> ->. destruct (passed r); simpl; lia.
  - injection He as -> -> ->. simpl. lia.
Qed.

Lemma to_dict_filter (q : outcome -> bool) (p : ValidationResult -> bool) l :
  (forall r, q (to_dict r) = p r) ->
  map to_dict (List.filter p l) = List.filter q (map to_dict l).
Proof.
  intros H. induction l as [|r l IH]; simpl; [reflexivity|].
  rewrite H. destruct (p r); simpl; rewrite IH; reflexivity.
Qed.

(** ** The shape of a run of [validate] *)

Lemma validate_skip now x st :
  status_is_success x = false ->
  validate now x st
  = (Ok (Skipped false "Validation skipped - extraction was not successful"), []).
Proof.
  unfold status_is_success, validate, bind, set_results. intros ->. reflexivity.
Qed.

Lemma bind_ok_inv {A B} (c : M A) (k : A -> M B) st b st' :
  bind c k st = (Ok b, st') ->
  exists a st1, c st = (Ok a, st1) /\ k a st1 = (Ok b, st').
Proof.
  unfold bind. destruct (c st) as [[a|e] st1]; [eauto|discriminate].
Qed.

Lemma dispatch_graded now ef md (dt : topval) :
  preserves graded
    (if top_eq_str dt "passport" then _validate_passport now ef md
     else if top_eq_str dt "drivers_license" then _validate_license now ef md
     else if top_eq_str dt "other_id" then _validate_other_id now ef md
     else ret tt).
Proof.
  destruct (top_eq_str dt "passport"); [apply passport_graded|].
  destruct (top_eq_str dt "drivers_license"); [apply license_graded|].
  destruct (top_eq_str dt "other_id"); [apply other_id_graded|].
  apply preserves_ret.
Qed.

(** The report [validate] compiles from the outcomes recorded. *)
Lemma validate_success now x st r st' :
  status_is_success x = true ->
  validate now x st = (Ok r, st') ->
  Forall graded st'
  /\ r = Report true (length st') (sum_ones passed st')
           (sum_ones (fun r => negb (passed r)) st')
           (length (List.filter is_error st')) (length (List.filter is_warning st'))
           (Nat.eqb (sum_ones (fun r => negb (passed r)) st') 0)
           (map to_dict st') (map to_dict (List.filter is_error st'))
           (map to_dict (List.filter is_warning st')).
Proof.
  unfold status_is_success, validate. intros Hs.
  unfold bind at 1. unfold set_results. rewrite Hs. cbv zeta. simpl negb. cbv iota.
  intros H.
  apply bind_ok_inv in H as ([] & st1 & H1 & H).
  apply bind_ok_inv in H as ([] & st2 & H2 & H).
  assert (G1 : Forall graded st1).
  { change st1 with (snd (Ok tt, st1)). rewrite <- H1.
    apply essential_fields_graded. constructor. }
  assert (G2 : Forall graded st2).
  { change st2 with (snd (Ok tt, st2)). rewrite <- H2.
    apply dispatch_graded. exact G1. }
  unfold bind, get_results, ret in H. injection H as <- <-.
  split; [exact G2|reflexivity].
Qed.

(** ** Reading a conforming input *)

Lemma fields_ok_dict m : fields_ok m = true -> exists d, m = TDict d.
Proof. destruct m; try discriminate. eauto. Qed.

Lemma fields_ok_lookup (d : gmap string field) k f :
  fields_ok (TDict d) = true -> d !! k = Some f -> field_ok f = true.
Proof.
  simpl. rewrite forallb_forall. intros H Hk. apply H.
  apply in_map_iff. exists (k, f). split; [reflexivity|].
  apply list_elem_of_In, elem_of_map_to_list. exact Hk.
Qed.

Lemma value_of_conforming m k dflt :
  fields_ok m = true ->
  value_of m k dflt = Ok dflt \/ exists s, value_of m k dflt = Ok (SStr s).
Proof.
  intros H. destruct (fields_ok_dict m H) as [d ->].
  unfold value_of, fields_get.
  destruct (d !! k) as [f|] eqn:E; simpl.
  - pose proof (fields_ok_lookup d k f H E) as Hf.
    destruct f as [fd|]; [|discriminate]. simpl in *.
    destruct (fd !! "value") as [[]|]; try discriminate; simpl; eauto.
  - rewrite lookup_empty. simpl. left; reflexivity.
Qed.

Lemma value_of_str m k :
  fields_ok m = true -> exists s, value_of m k (SStr EmptyString) = Ok (SStr s).
Proof.
  intros H. destruct (value_of_conforming m k (SStr EmptyString) H) as [E|[s E]]; eauto.
Qed.

Lemma value_of_opt m k :
  fields_ok m = true ->
  value_of m k SNone = Ok SNone \/ exists s, value_of m k SNone = Ok (SStr s).
Proof. apply value_of_conforming. Qed.

(** Date parsing never raises: what it catches is all [strptime] raises. *)
Lemma strptime_raises s e : strptime s = Raise e -> e = ValueError.
Proof.
  unfold strptime. destruct (match_ymd s) as [[[[Y m] d] rest]|]; [|congruence].
  destruct (negb (is_empty rest)); [congruence|].
  destruct (check_date_fields _ _ _); congruence.
Qed.

Lemma validate_date_total v :
  (exists d, _validate_date v = Ok (true, Some d)) \/ _validate_date v = Ok (false, None).
Proof.
  unfold _validate_date. destruct v as [|s|b t]; try (right; reflexivity).
  destruct (strptime s) as [d|e] eqn:E; [left; eauto|].
  apply strptime_raises in E. subst e. right; reflexivity.
Qed.

Lemma parse_if_given_total v :
  (exists d, parse_if_given v = Ok (true, Some d)) \/ parse_if_given v = Ok (false, None).
Proof.
  unfold parse_if_given. destruct (scalar_truthy v); [apply validate_date_total|].
  right; reflexivity.
Qed.

(** ** Runs that return *)

Lemma runs_ret {A} (a : A) (Q : A -> list ValidationResult -> Prop) :
  Q a [] -> runs (ret a) Q.
Proof. intros H st. exists a, []. rewrite app_nil_r. split; [reflexivity|exact H]. Qed.

Lemma runs_add n p m s (Q : unit -> list ValidationResult -> Prop) :
  Q tt [mkResult n p m s] -> runs (_add_result n p m s) Q.
Proof. intros H st. exists tt, [mkResult n p m s]. split; [reflexivity|exact H]. Qed.

Lemma runs_bind {A B} (c : M A) (k : A -> M B) Q1 (Q : B -> list ValidationResult -> Prop) :
  runs c Q1 ->
  (forall a l1, Q1 a l1 -> runs (k a) (fun b l2 => Q b (l1 ++ l2)%list)) ->
  runs (bind c k) Q.
Proof.
  intros Hc Hk st. destruct (Hc st) as (a & l1 & E1 & H1).
  destruct (Hk a l1 H1 (st ++ l1)%list) as (b & l2 & E2 & H2).
  exists b, (l1 ++ l2)%list. unfold bind. rewrite E1, E2.
  rewrite <- app_assoc. split; [reflexivity|exact H2].
Qed.

Lemma runs_lift_bind {A B} (r : result A) (a : A) (k : A -> M B) Q :
  r = Ok a -> runs (k a) Q -> runs (bind (lift r) k) Q.
Proof. intros -> H st. exact (H st). Qed.

Lemma runs_weaken {A} (c : M A) (Q Q' : A -> list ValidationResult -> Prop) :
  runs c Q -> (forall a l, Q a l -> Q' a l) -> runs c Q'.
Proof.
  intros H HQ st. destruct (H st) as (a & l & E & Hq). exists a, l. auto.
Qed.

Section Only.
Variable P : ValidationResult -> Prop.

Lemma only_ret : only P (ret tt).
Proof. apply runs_ret. constructor. Qed.

Lemma only_add n p m s : P (mkResult n p m s) -> only P (_add_result n p m s).
Proof. intros H. apply runs_add. constructor; [exact H|constructor]. Qed.

Lemma only_bind (c : M unit) (k : unit -> M unit) :
  only P c -> (forall a, only P (k a)) -> only P (bind c k).
Proof.
  intros Hc Hk. eapply runs_bind; [exact Hc|].
  intros a l1 H1. eapply runs_weaken; [apply Hk|].
  intros ? l2 H2. apply Forall_app; split; assumption.
Qed.

Lemma only_lift_bind {A} (r : result A) (a : A) (k : A -> M unit) :
  r = Ok a -> only P (k a) -> only P (bind (lift r) k).
Proof. apply runs_lift_bind. Qed.

Lemma only_weaken (P' : ValidationResult -> Prop) c :
  (forall r, P' r -> P r) -> only P' c -> only P c.
Proof.
  intros HP H. eapply runs_weaken; [exact H|].
  intros ? l Hl. eapply List.Forall_impl; [exact HP|exact Hl].
Qed.
End Only.

Lemma named_app_l a b r : named a r -> named (a ++ b) r.
Proof. unfold named. intros H. apply in_or_app. left; exact H. Qed.

Lemma named_app_r a b r : named b r -> named (a ++ b) r.
Proof. unfold named. intros H. apply in_or_app. right; exact H. Qed.

(** Walking through a test under [H : fields_ok m = true] hypotheses. *)
Ltac read_value :=
  match goal with
  | H : fields_ok ?m = true
    |- only _ (bind (lift (value_of ?m ?k (SStr EmptyString))) _) =>
      let s := fresh "s" in let E := fresh "E" in
      destruct (value_of_str m k H) as [s E];
      eapply only_lift_bind; [exact E|]
  | H : fields_ok ?m = true |- only _ (bind (lift (value_of ?m ?k SNone)) _) =>
      let s := fresh "s" in let E := fresh "E" in
      destruct (value_of_opt m k H) as [E|[s E]];
      (eapply only_lift_bind; [exact E|])
  | |- only _ (bind (lift (_validate_date ?v)) _) =>
      let d := fresh "d" in let E := fresh "E" in
      destruct (validate_date_total v) as [[d E]|E];
      (eapply only_lift_bind; [exact E|])
  | |- only _ (bind (lift (parse_if_given ?v)) _) =>
      let d := fresh "d" in let E := fresh "E" in
      destruct (parse_if_given_total v) as [[d E]|E];
      (eapply only_lift_bind; [exact E|])
  | |- only _ (bind (lift _) _) =>
      eapply only_lift_bind; [reflexivity|]
  end.

Ltac name_it :=
  unfold named, date_tests, format_tests, later_date_tests, full_name_tests,
    date_of_birth_tests, sex_tests, passport_tests, number_address_tests,
    other_id_tests;
  simpl; tauto.

Ltac walk :=
  repeat first
    [ read_value
    | match goal with
      | |- only _ (ret tt) => apply only_ret
      | |- only _ (_add_result_default _ _ _) => apply only_add; name_it
      | |- only _ (_add_result _ _ _ _) => apply only_add; name_it
      | |- only _ (bind _ _) => apply only_bind; [| intros _ ]
      | |- only _ _ => progress cbn [fst snd andb negb]
      | |- only _ (if ?b then _ else _) =>
          first [ is_var b; destruct b
                | let E := fresh "E" in destruct b eqn:E ]
      end ].

Lemma full_name_only ef :
  fields_ok ef = true -> only (named full_name_tests) (test_full_name ef).
Proof. intros H. unfold test_full_name. walk. Qed.

Lemma date_of_birth_only now ef :
  fields_ok ef = true -> only (named date_of_birth_tests) (test_date_of_birth now ef).
Proof. intros H. unfold test_date_of_birth. walk. Qed.

Lemma sex_only ef :
  fields_ok ef = true -> only (named sex_tests) (test_sex ef).
Proof. intros H. unfold test_sex. walk. Qed.

Lemma document_dates_only now i e b p :
  only (named (date_tests p)) (_validate_document_dates now i e b p).
Proof. unfold_tests. walk. Qed.

Lemma test_document_dates_only now ef md p :
  fields_ok ef = true -> fields_ok md = true ->
  only (named (date_tests p)) (test_document_dates now ef md p).
Proof.
  intros Hef Hmd. unfold test_document_dates.
  repeat read_value; apply document_dates_only.
Qed.

Lemma passport_number_only md :
  fields_ok md = true -> only (named passport_tests) (test_passport_number md).
Proof. intros H. unfold test_passport_number. walk. Qed.

Lemma country_of_issue_only md :
  fields_ok md = true -> only (named passport_tests) (test_country_of_issue md).
Proof. intros H. unfold test_country_of_issue. walk. Qed.

Lemma nationality_only md :
  fields_ok md = true -> only (named passport_tests) (test_nationality md).
Proof. intros H. unfold test_nationality. walk. Qed.

Lemma dl_number_only md :
  fields_ok md = true -> only (named number_address_tests) (test_dl_number md).
Proof. intros H. unfold test_dl_number. walk. Qed.

Lemma address_only ef :
  fields_ok ef = true -> only (named number_address_tests) (test_address ef).
Proof.
  intros H. unfold test_address. read_value.
  destruct (scalar_truthy (SStr s)); walk.
Qed.

Lemma height_only md :
  fields_ok md = true -> only (named ["license.height.format"]) (test_height md).
Proof. intros H. unfold test_height. walk. Qed.

Lemma weight_only md :
  fields_ok md = true -> only (named ["license.weight.format"]) (test_weight md).
Proof. intros H. unfold test_weight. walk. Qed.

Lemma metadata_present_only md :
  fields_ok md = true -> only (named other_id_tests) (test_metadata_present md).
Proof.
  intros H. destruct (fields_ok_dict md H) as [d ->].
  unfold test_metadata_present, any_value.
  destruct (top_truthy (TDict d)); walk.
Qed.

Lemma id_type_only md :
  fields_ok md = true -> only (named other_id_tests) (test_id_type md).
Proof. intros H. unfold test_id_type. walk. Qed.

Lemma dates_if_present_only now ef md :
  fields_ok ef = true -> fields_ok md = true ->
  only (named (date_tests "other_id")) (test_dates_if_present now ef md).
Proof.
  intros Hef Hmd. destruct (fields_ok_dict md Hmd) as [d ->].
  unfold test_dates_if_present, has_field.
  eapply only_lift_bind; [reflexivity|].
  destruct (match d !! "date_of_issue" with Some f => field_truthy f | None => false end);
    (eapply only_lift_bind; [reflexivity|]).
  - apply test_document_dates_only; assumption.
  - destruct (match d !! "date_of_expiry" with Some f => field_truthy f | None => false end).
    + apply test_document_dates_only; assumption.
    + apply only_ret.
Qed.

(** ** The matcher and the language of a pattern *)

Lemma append_cons (x : ascii) (a b : string) : String x a ++ b = String x (a ++ b).
Proof. reflexivity. Qed.

Lemma append_assoc (a b c : string) : (a ++ b) ++ c = a ++ (b ++ c).
Proof.
  induction a as [|x a IH]; [reflexivity|]. rewrite !append_cons, IH. reflexivity.
Qed.

Lemma append_nil_r (a : string) : a ++ EmptyString = a.
Proof.
  induction a as [|x a IH]; [reflexivity|]. rewrite append_cons, IH. reflexivity.
Qed.

Lemma append_length (a b : string) :
  String.length (a ++ b) = (String.length a + String.length b)%nat.
Proof.
  induction a as [|x a IH]; [reflexivity|]. rewrite append_cons. simpl.
  rewrite IH. reflexivity.
Qed.

Lemma append_cancel_l (p a b : string) : p ++ a = p ++ b -> a = b.
Proof.
  induction p as [|x p IH]; [auto|]. rewrite !append_cons.
  intros H. injection H as H. auto.
Qed.

Section Matcher.
Import Re.
Variable ic : bool.

Lemma star_rems_self p s : In s (star_rems p s).
Proof.
  destruct s as [|c t]; simpl; [left; reflexivity|].
  destruct (p c); [apply in_or_app; right|]; left; reflexivity.
Qed.

Lemma star_rems_sound p s r :
  In r (star_rems p s) -> exists w, s = w ++ r /\ star_lang p w.
Proof.
  revert r. induction s as [|c t IH]; simpl; intros r H.
  - destruct H as [<-|[]]. exists EmptyString. split; [reflexivity|constructor].
  - destruct (p c) eqn:Ec.
    + apply in_app_or in H as [H|[<-|[]]].
      * destruct (IH r H) as (w & -> & Hw). exists (String c w).
        split; [reflexivity|constructor; assumption].
      * exists EmptyString. split; [reflexivity|constructor].
    + destruct H as [<-|[]]. exists EmptyString. split; [reflexivity|constructor].
Qed.

Lemma star_rems_complete p w r : star_lang p w -> In r (star_rems p (w ++ r)).
Proof.
  induction 1 as [|c w Hc _ IH]; [apply star_rems_self|].
  rewrite append_cons. simpl. rewrite Hc. apply in_or_app. left; exact IH.
Qed.

Lemma rems_sound e : forall s r,
  In r (rems ic e s) -> exists w, s = w ++ r /\ lang ic e w.
Proof.
  induction e as [|k|a IHa b IHb|a IHa b IHb|k]; simpl; intros s r H.
  - destruct H as [<-|[]]. exists EmptyString. split; reflexivity.
  - destruct s as [|c t]; [destruct H|].
    destruct (cmem ic k c) eqn:Ec; [|destruct H]. destruct H as [<-|[]].
    exists (String c EmptyString). split; [reflexivity|]. eauto.
  - apply in_flat_map in H as (r1 & H1 & H2).
    destruct (IHa _ _ H1) as (u & -> & Hu). destruct (IHb _ _ H2) as (v & -> & Hv).
    exists (u ++ v). split; [symmetry; apply append_assoc|]. eauto.
  - apply in_app_or in H as [H|H].
    + destruct (IHa _ _ H) as (w & -> & Hw). eauto.
    + destruct (IHb _ _ H) as (w & -> & Hw). eauto.
  - apply star_rems_sound; exact H.
Qed.

Lemma rems_complete e : forall w r, lang ic e w -> In r (rems ic e (w ++ r)).
Proof.
  induction e as [|k|a IHa b IHb|a IHa b IHb|k]; simpl; intros w r H.
  - subst w. left; reflexivity.
  - destruct H as (c & -> & Hc). rewrite append_cons. rewrite Hc. left; reflexivity.
  - destruct H as (u & v & -> & Hu & Hv). apply in_flat_map.
    exists (v ++ r). split; [rewrite append_assoc; apply IHa; exact Hu|].
    apply IHb; exact Hv.
  - apply in_or_app. destruct H as [H|H]; [left; apply IHa|right; apply IHb]; exact H.
  - apply star_rems_complete; exact H.
Qed.

Lemma re_match_iff e s :
  (exists r, re_match ic e s = Some r)
  <-> exists w post, s = w ++ post /\ lang ic e w.
Proof.
  unfold re_match. split.
  - intros [r H]. destruct (rems ic e s) as [|r' l] eqn:E; [discriminate|].
    destruct (rems_sound e s r') as (w & Hs & Hw); [rewrite E; left; reflexivity|].
    eauto.
  - intros (w & post & -> & Hw). pose proof (rems_complete e w post Hw) as H.
    destruct (rems ic e (w ++ post)) as [|r l]; [destruct H|]. simpl. eauto.
Qed.

(** [re.search] finds a match exactly when some part of the text is in
    the language of the pattern. *)
Lemma search_iff e s :
  search ic e s = true
  <-> exists pre w post, s = pre ++ w ++ post /\ lang ic e w.
Proof.
  induction s as [|c t IH]; simpl.
  - destruct (re_match ic e EmptyString) as [r|] eqn:E.
    + split; [intros _|reflexivity].
      destruct (proj1 (re_match_iff e EmptyString)) as (w & post & Hs & Hw); [eauto|].
      exists EmptyString, w, post. split; [exact Hs|exact Hw].
    + split; [discriminate|]. intros (pre & w & post & Hs & Hw).
      destruct pre; [|discriminate]. change (EmptyString = w ++ post) in Hs.
      destruct (proj2 (re_match_iff e EmptyString)) as [r Hr]; [eauto|]. congruence.
  - destruct (re_match ic e (String c t)) as [r|] eqn:E.
    + split; [intros _|reflexivity].
      destruct (proj1 (re_match_iff e (String c t))) as (w & post & Hs & Hw); [eauto|].
      exists EmptyString, w, post. split; [exact Hs|exact Hw].
    + rewrite IH. split.
      * intros (pre & w & post & -> & Hw). exists (String c pre), w, post. auto.
      * intros (pre & w & post & Hs & Hw). destruct pre as [|c' pre].
        -- change (String c t = w ++ post) in Hs.
           destruct (proj2 (re_match_iff e (String c t))) as [r Hr]; [eauto|]. congruence.
        -- rewrite append_cons in Hs. injection Hs as _ ->. eauto.
Qed.
End Matcher.

Lemma search_any_found patterns s :
  existsb (fun p => Re.search true p s) patterns = true <-> found_in patterns s.
Proof.
  unfold found_in. rewrite existsb_exists. split.
  - intros (p & Hp & H). apply search_iff in H as (pre & w & post & Hs & Hw).
    exists p, pre, w, post. auto.
  - intros (p & pre & w & post & Hp & Hs & Hw). exists p. split; [exact Hp|].
    apply search_iff. eauto.
Qed.

(** ** The grammar of [strptime] for [%Y-%m-%d] *)

(** A check made on every character holds of any character. *)
Lemma all_chars_In c : In c all_chars.
Proof.
  unfold all_chars. rewrite <- (ascii_nat_embedding c). apply in_map.
  apply in_seq. pose proof (nat_ascii_bounded c). lia.
Qed.

Lemma for_all_chars (P : ascii -> bool) :
  forallb P all_chars = true -> forall c, P c = true.
Proof. rewrite forallb_forall. intros H c. apply H, all_chars_In. Qed.

Lemma one_char (k : Re.cset) (f : string -> bool) :
  forallb (fun a => if Re.cmem true k a then f (String a EmptyString) else true)
    all_chars = true ->
  forall a, Re.cmem true k a = true -> f (String a EmptyString) = true.
Proof.
  intros H a Ha. pose proof (for_all_chars _ H a) as E. cbv beta in E.
  rewrite Ha in E. exact E.
Qed.

Lemma two_chars (k1 k2 : Re.cset) (f : string -> bool) :
  forallb (fun a => if Re.cmem true k1 a
                    then forallb (fun b => if Re.cmem true k2 b
                                           then f (String a (String b EmptyString))
                                           else true) all_chars
                    else true)
    all_chars = true ->
  forall a b, Re.cmem true k1 a = true -> Re.cmem true k2 b = true ->
    f (String a (String b EmptyString)) = true.
Proof.
  intros H a b Ha Hb. pose proof (for_all_chars _ H a) as E. cbv beta in E.
  rewrite Ha in E. pose proof (for_all_chars _ E b) as E'. cbv beta in E'.
  rewrite Hb in E'. exact E'.
Qed.

Lemma digit_facts c :
  is_digit c = true ->
  is_space c = false /\ 0 <= digit_val c <= 9 /\ In c numeral_chars.
Proof.
  intros H.
  assert (E : (if is_digit c
               then negb (is_space c) && (0 <=? digit_val c) && (digit_val c <=? 9)
                    && existsb (Ascii.eqb c) numeral_chars
               else true) = true).
  { clear H. revert c. apply for_all_chars. vm_compute. reflexivity. }
  rewrite H in E.
  apply andb_prop in E as [E E4]. apply andb_prop in E as [E E3].
  apply andb_prop in E as [E1 E2].
  apply negb_true_iff in E1. apply Z.leb_le in E2. apply Z.leb_le in E3.
  apply existsb_exists in E4 as (x & Hx & Ex). apply Ascii.eqb_eq in Ex. subst x.
  auto.
Qed.

Lemma nonzero_digit c : in_range "1" "9" c = true -> is_digit c = true.
Proof.
  intros H.
  assert (E : (if in_range "1" "9" c then is_digit c else true) = true).
  { clear H. revert c. apply for_all_chars. vm_compute. reflexivity. }
  rewrite H in E. exact E.
Qed.

Lemma blank_numeral_char c : Ascii.eqb c " " = true -> In c numeral_chars.
Proof. intros H. apply Ascii.eqb_eq in H. subst c. left; reflexivity. Qed.

Lemma took_append w r : took (w ++ r) r = w.
Proof.
  unfold took. rewrite append_length.
  replace (String.length w + String.length r - String.length r)%nat
    with (String.length w) by lia.
  induction w as [|c w IH]; [destruct r; reflexivity|].
  rewrite append_cons. simpl. rewrite IH. reflexivity.
Qed.

(** What the groups of the pattern read. *)
Lemma lang_hyphen w : Re.lang true (Re.lit "-") w -> w = "-".
Proof.
  intros (c & -> & Hc).
  apply (one_char (Re.Lit "-") (fun t => String.eqb t "-")) in Hc;
    [apply String.eqb_eq in Hc; exact Hc|vm_compute; reflexivity].
Qed.

Ltac split_lang :=
  repeat match goal with
         | H : Re.lang _ (Re.Cat _ _) _ |- _ =>
             let u := fresh "u" in let v := fresh "v" in
             destruct H as (u & v & -> & ? & ?)
         | H : Re.lang _ (Re.Chr _) _ |- _ =>
             let c := fresh "c" in destruct H as (c & -> & ?)
         | H : Re.lang _ (Re.Alt _ _) _ |- _ => destruct H as [H|H]
         end.

Lemma lang_year w : Re.lang true re_Y w -> is_year_text w = true.
Proof.
  unfold re_Y, Re.cats. intros H. split_lang.
  cbv [Re.cmem Re.mem] in *. cbv [append is_year_text].
  repeat match goal with H : is_digit _ = true |- _ => rewrite H; clear H end.
  reflexivity.
Qed.

Lemma lang_month w : Re.lang true re_m w -> is_month_text w = true.
Proof.
  unfold re_m, Re.alts, Re.lit. intros H. split_lang; cbv [append].
  - revert H H0. apply (two_chars _ _ is_month_text). vm_compute. reflexivity.
  - revert H H0. apply (two_chars _ _ is_month_text). vm_compute. reflexivity.
  - revert H. apply (one_char _ is_month_text). vm_compute. reflexivity.
Qed.

Lemma lang_day w : Re.lang true re_d w -> is_day_text w = true.
Proof.
  unfold re_d, Re.alts, Re.lit. intros H. split_lang; cbv [append].
  - revert H H0. apply (two_chars _ _ is_day_text). vm_compute. reflexivity.
  - revert H H0. apply (two_chars _ _ is_day_text). vm_compute. reflexivity.
  - revert H H0. apply (two_chars _ _ is_day_text). vm_compute. reflexivity.
  - revert H. apply (one_char _ is_day_text). vm_compute. reflexivity.
  - revert H H0. apply (two_chars _ _ is_day_text). vm_compute. reflexivity.
Qed.

Lemma hd_error_In {A} (l : list A) x : hd_error l = Some x -> In x l.
Proof. destruct l; [discriminate|]. intros [= ->]. left; reflexivity. Qed.

Lemma match_md_sound t m d rest :
  In (m, d, rest) (match_md t) ->
  t = m ++ "-" ++ d ++ rest /\ is_month_text m = true /\ is_day_text d = true.
Proof.
  unfold match_md. intros H.
  apply in_flat_map in H as (r3 & H3 & H). apply in_flat_map in H as (r4 & H4 & H).
  apply in_map_iff in H as (r5 & E & H5).
  apply rems_sound in H3 as (w3 & -> & L3). apply rems_sound in H4 as (w4 & -> & L4).
  apply rems_sound in H5 as (w5 & -> & L5).
  apply lang_hyphen in L4. subst w4.
  rewrite !took_append in E. injection E as <- <- <-.
  auto using lang_month, lang_day.
Qed.

Lemma match_ymd_sound s Y m d rest :
  match_ymd s = Some (Y, m, d, rest) ->
  s = Y ++ "-" ++ m ++ "-" ++ d ++ rest
  /\ is_year_text Y = true /\ is_month_text m = true /\ is_day_text d = true.
Proof.
  unfold match_ymd. intros H. apply hd_error_In in H.
  apply in_flat_map in H as (r1 & H1 & H). apply in_flat_map in H as (r2 & H2 & H).
  apply in_map_iff in H as ([[m' d'] rest'] & E & H).
  apply rems_sound in H1 as (w1 & -> & L1). apply rems_sound in H2 as (w2 & -> & L2).
  apply lang_hyphen in L2. subst w2.
  rewrite took_append in E. injection E as <- <- <- <-.
  apply match_md_sound in H as (-> & Hm & Hd).
  auto using lang_year.
Qed.

Lemma is_empty_true s : is_empty s = true -> s = EmptyString.
Proof. destruct s; [reflexivity|discriminate]. Qed.

Lemma check_date_fields_iff y m d :
  check_date_fields y m d = true
  <-> 1 <= y <= 9999 /\ 1 <= m <= 12 /\ 1 <= d <= days_in_month y m.
Proof. unfold check_date_fields. rewrite !andb_true_iff, !Z.leb_le. lia. Qed.

Lemma strptime_sound s dt : strptime s = Ok dt -> date_text s dt.
Proof.
  unfold strptime.
  destruct (match_ymd s) as [[[[Y m] d] rest]|] eqn:E; [|discriminate].
  destruct (is_empty rest) eqn:Er; simpl; [|discriminate].
  destruct (check_date_fields _ _ _) eqn:Ec; [|discriminate]. intros [= <-].
  apply match_ymd_sound in E as (-> & HY & Hm & Hd).
  apply is_empty_true in Er. subst rest. rewrite append_nil_r.
  apply check_date_fields_iff in Ec.
  exists Y, m, d. repeat split; try assumption; lia.
Qed.

(** Conversely, the engine's first match of a text of the grammar reads
    the whole text. *)
Lemma numeral_listed hi blank t :
  is_numeral hi blank t = true -> In t (List.filter (is_numeral hi blank) short_texts).
Proof.
  intros H. apply filter_In. split; [|exact H].
  unfold short_texts. apply in_flat_map.
  destruct t as [|a [|b [|]]]; try discriminate; simpl in H.
  - exists a. split; [|left; reflexivity].
    apply digit_facts, nonzero_digit, H.
  - exists a. apply orb_prop in H as [H|H].
    + apply andb_prop in H as [H Hb]. apply andb_prop in H as [_ Ha].
      split; [apply blank_numeral_char, Ha|]. right.
      apply (in_map (fun b => String a (String b EmptyString))).
      apply digit_facts, nonzero_digit, Hb.
    + apply andb_prop in H as [H _]. apply andb_prop in H as [H _].
      apply andb_prop in H as [Ha Hb].
      split; [apply digit_facts, Ha|]. right.
      apply (in_map (fun b => String a (String b EmptyString))).
      apply digit_facts, Hb.
Qed.

Lemma match_md_listed :
  forallb (fun m =>
    forallb (fun d =>
      match hd_error (match_md (m ++ "-" ++ d)) with
      | Some (m', d', r) => String.eqb m' m && String.eqb d' d && is_empty r
      | None => false
      end && (1 <=? to_int m) && (to_int m <=? 12) && (1 <=? to_int d))
      day_texts)
    month_texts = true.
Proof. vm_compute. reflexivity. Qed.

Lemma match_md_complete m d :
  is_month_text m = true -> is_day_text d = true ->
  hd_error (match_md (m ++ "-" ++ d)) = Some (m, d, EmptyString)
  /\ 1 <= to_int m <= 12 /\ 1 <= to_int d.
Proof.
  intros Hm Hd. apply numeral_listed in Hm, Hd.
  pose proof match_md_listed as H. rewrite forallb_forall in H.
  specialize (H m Hm). rewrite forallb_forall in H. specialize (H d Hd).
  apply andb_prop in H as [H H4]. apply andb_prop in H as [H H3].
  apply andb_prop in H as [H H2].
  destruct (hd_error (match_md (m ++ "-" ++ d))) as [[[m' d'] r]|]; [|discriminate].
  apply andb_prop in H as [H Hr]. apply andb_prop in H as [Em Ed].
  apply String.eqb_eq in Em, Ed. apply is_empty_true in Hr. subst.
  apply Z.leb_le in H2, H3, H4. auto.
Qed.

Lemma year_text_value Y :
  is_year_text Y = true -> 0 <= to_int Y <= 9999.
Proof.
  destruct Y as [|a [|b [|c [|d [|]]]]]; try discriminate. simpl.
  intros H. apply andb_prop in H as [H Hd]. apply andb_prop in H as [H Hc].
  apply andb_prop in H as [Ha Hb].
  apply digit_facts in Ha as (Sa & Va & _). apply digit_facts in Hb as (_ & Vb & _).
  apply digit_facts in Hc as (_ & Vc & _). apply digit_facts in Hd as (_ & Vd & _).
  unfold to_int. simpl. rewrite Sa. simpl. lia.
Qed.

Lemma match_ymd_year a b c e t :
  is_digit a = true -> is_digit b = true -> is_digit c = true -> is_digit e = true ->
  match_ymd (String a (String b (String c (String e (String "-" t)))))
  = hd_error (map (fun '(m, d, rest) =>
                     (String a (String b (String c (String e EmptyString))), m, d, rest))
                  (match_md t)).
Proof.
  intros Ha Hb Hc He. unfold match_ymd, re_Y, Re.cats, Re.lit.
  cbn [Re.rems Re.cmem Re.mem flat_map].
  rewrite Ha. cbn [flat_map app]. rewrite Hb. cbn [flat_map app].
  rewrite Hc. cbn [flat_map app]. rewrite He. cbn [flat_map app].
  replace (Ascii.eqb "-" "-") with true by reflexivity.
  cbn [orb flat_map app]. rewrite !app_nil_r.
  change (String a (String b (String c (String e (String "-" t)))))
    with (String a (String b (String c (String e EmptyString))) ++ String "-" t).
  rewrite took_append. reflexivity.
Qed.

Lemma match_ymd_complete Y m d :
  is_year_text Y = true -> is_month_text m = true -> is_day_text d = true ->
  match_ymd (Y ++ "-" ++ m ++ "-" ++ d) = Some (Y, m, d, EmptyString).
Proof.
  intros HY Hm Hd. destruct (match_md_complete m d Hm Hd) as (H & _).
  destruct Y as [|a [|b [|c [|e [|]]]]]; try discriminate. simpl in HY.
  apply andb_prop in HY as [HY He]. apply andb_prop in HY as [HY Hc].
  apply andb_prop in HY as [Ha Hb].
  change (String a (String b (String c (String e EmptyString))) ++ "-" ++ m ++ "-" ++ d)
    with (String a (String b (String c (String e (String "-" (m ++ "-" ++ d)))))).
  rewrite match_ymd_year by assumption.
  destruct (match_md (m ++ "-" ++ d)) as [|[[m' d'] r] l]; [discriminate|].
  simpl in H. injection H as -> -> ->. reflexivity.
Qed.

Lemma strptime_complete s dt : date_text s dt -> strptime s = Ok dt.
Proof.
  intros (Y & m & d & -> & HY & Hm & Hd & Hy & Hdim & ->).
  unfold strptime. rewrite (match_ymd_complete Y m d HY Hm Hd). simpl.
  destruct (match_md_complete m d Hm Hd) as (_ & Hmv & Hdv).
  pose proof (year_text_value Y HY) as Hyv.
  replace (check_date_fields (to_int Y) (to_int m) (to_int d)) with true;
    [reflexivity|].
  symmetry. apply check_date_fields_iff. lia.
Qed.

Lemma strptime_iff s dt : strptime s = Ok dt <-> date_text s dt.
Proof. split; [apply strptime_sound|apply strptime_complete]. Qed.

(** ** Whole methods on a conforming input *)

Ltac to_all_tests :=
  let r := fresh "r" in let Hr := fresh "Hr" in
  intros r Hr; unfold named, all_tests in *;
  repeat first [ exact Hr | apply in_or_app; first [ left; exact Hr | right ] ].

Lemma essential_fields_only now ef :
  fields_ok ef = true -> only (named all_tests) (_validate_essential_fields now ef).
Proof.
  intros H. unfold _validate_essential_fields.
  apply only_bind; [|intros _; apply only_bind; [|intros _]].
  - eapply only_weaken; [|apply full_name_only, H]. to_all_tests.
  - eapply only_weaken; [|apply date_of_birth_only, H]. to_all_tests.
  - eapply only_weaken; [|apply sex_only, H]. to_all_tests.
Qed.

Lemma passport_only now ef md :
  fields_ok ef = true -> fields_ok md = true ->
  only (named all_tests) (_validate_passport now ef md).
Proof.
  intros Hef Hmd. unfold _validate_passport.
  repeat (apply only_bind; [|intros _]).
  - eapply only_weaken; [|apply passport_number_only, Hmd]. to_all_tests.
  - eapply only_weaken; [|apply country_of_issue_only, Hmd]. to_all_tests.
  - eapply only_weaken; [|apply nationality_only, Hmd]. to_all_tests.
  - eapply only_weaken; [|apply test_document_dates_only; assumption]. to_all_tests.
Qed.

Lemma license_only now ef md :
  fields_ok ef = true -> fields_ok md = true ->
  only (named all_tests) (_validate_license now ef md).
Proof.
  intros Hef Hmd. unfold _validate_license.
  repeat (apply only_bind; [|intros _]).
  - eapply only_weaken; [|apply dl_number_only, Hmd]. to_all_tests.
  - eapply only_weaken; [|apply address_only, Hef]. to_all_tests.
  - eapply only_weaken; [|apply height_only, Hmd].
    intros r [Hr|[]]. unfold named. rewrite <- Hr. vm_compute. tauto.
  - eapply only_weaken; [|apply weight_only, Hmd].
    intros r [Hr|[]]. unfold named. rewrite <- Hr. vm_compute. tauto.
  - eapply only_weaken; [|apply test_document_dates_only; assumption]. to_all_tests.
Qed.

Lemma other_id_only now ef md :
  fields_ok ef = true -> fields_ok md = true ->
  only (named all_tests) (_validate_other_id now ef md).
Proof.
  intros Hef Hmd. unfold _validate_other_id.
  repeat (apply only_bind; [|intros _]).
  - eapply only_weaken; [|apply metadata_present_only, Hmd]. to_all_tests.
  - eapply only_weaken; [|apply id_type_only, Hmd]. to_all_tests.
  - eapply only_weaken; [|apply dates_if_present_only; assumption]. to_all_tests.
Qed.

Lemma bind_ok {A B} (c : M A) (k : A -> M B) st a st' :
  c st = (Ok a, st') -> bind c k st = k a st'.
Proof. unfold bind. intros ->. reflexivity. Qed.

Lemma validate_returns now x st :
  conforms x = true -> exists r st', validate now x st = (Ok r, st').
Proof.
  unfold conforms. intros H. apply andb_prop in H as [H Hmd].
  apply andb_prop in H as [_ Hef].
  destruct (status_is_success x) eqn:Hs.
  - unfold status_is_success in Hs. unfold validate, bind at 1, set_results.
    rewrite Hs. cbv zeta. cbn [negb].
    set (ef := default (TDict empty) (x !! "essential_fields")) in *.
    set (md := default (TDict empty) (x !! "metadata")) in *.
    set (dt := default (TOther false) (x !! "document_type")).
    destruct (essential_fields_only now ef Hef []) as ([] & l1 & E1 & _).
    rewrite (bind_ok _ _ _ _ _ E1).
    assert (D : only (named all_tests)
                  (if top_eq_str dt "passport" then _validate_passport now ef md
                   else if top_eq_str dt "drivers_license" then _validate_license now ef md
                   else if top_eq_str dt "other_id" then _validate_other_id now ef md
                   else ret tt)).
    { destruct (top_eq_str dt "passport"); [apply passport_only; assumption|].
      destruct (top_eq_str dt "drivers_license"); [apply license_only; assumption|].
      destruct (top_eq_str dt "other_id"); [apply other_id_only; assumption|].
      apply only_ret. }
    destruct (D ([] ++ l1)%list) as ([] & l2 & E2 & _).
    rewrite (bind_ok _ _ _ _ _ E2). unfold bind, get_results, ret. eauto.
  - rewrite validate_skip by exact Hs. eauto.
Qed.

Lemma well_formed_compiled (l : list ValidationResult) :
  Forall graded l ->
  well_formed
    (Report true (length l) (sum_ones passed l)
       (sum_ones (fun r => negb (passed r)) l)
       (length (List.filter is_error l)) (length (List.filter is_warning l))
       (Nat.eqb (sum_ones (fun r => negb (passed r)) l) 0)
       (map to_dict l) (map to_dict (List.filter is_error l))
       (map to_dict (List.filter is_warning l))).
Proof.
  intros G. unfold well_formed.
  rewrite !sum_ones_filter.
  rewrite <- (to_dict_filter o_passed passed l) by reflexivity.
  rewrite <- (to_dict_filter (fun o => negb (o_passed o)) (fun r => negb (passed r)) l)
    by reflexivity.
  rewrite <- (to_dict_filter (o_failed_with "error") is_error l) by reflexivity.
  rewrite <- (to_dict_filter (o_failed_with "warning") is_warning l) by reflexivity.
  rewrite !length_map. repeat split.
  apply Forall_map. eapply List.Forall_impl; [|exact G].
  intros r [H|[H _]]; simpl; auto.
Qed.

(** ** One test among the others of its method *)

Section Framed.
Variables (P1 P3 : ValidationResult -> Prop) (Q2 : list ValidationResult -> Prop).

Lemma framed_before (c k : M unit) :
  only P1 c -> runs k (framed P1 Q2 P3) -> runs (bind c (fun _ => k)) (framed P1 Q2 P3).
Proof.
  intros Hc Hk. eapply runs_bind; [exact Hc|]. intros a l0 H0.
  eapply runs_weaken; [exact Hk|].
  intros b l (l1 & l2 & l3 & -> & H1 & H2 & H3).
  exists (l0 ++ l1)%list, l2, l3. rewrite <- app_assoc.
  repeat split; try assumption. apply Forall_app; split; assumption.
Qed.

Lemma framed_here (c k : M unit) :
  runs c (fun _ l => Q2 l) -> only P3 k -> runs (bind c (fun _ => k)) (framed P1 Q2 P3).
Proof.
  intros Hc Hk. eapply runs_bind; [exact Hc|]. intros a l2 H2.
  eapply runs_weaken; [exact Hk|]. intros b l3 H3.
  exists [], l2, l3. repeat split; try assumption. constructor.
Qed.

Lemma framed_last (c : M unit) :
  runs c (fun _ l => Q2 l) -> runs c (framed P1 Q2 P3).
Proof.
  intros Hc. eapply runs_weaken; [exact Hc|]. intros a l2 H2.
  exists [], l2, []. rewrite app_nil_r. repeat split; try assumption; constructor.
Qed.

Lemma framed_result (c : M unit) st :
  runs c (framed P1 Q2 P3) ->
  exists l1 l2 l3,
    c st = (Ok tt, (st ++ l1 ++ l2 ++ l3)%list)
    /\ Forall P1 l1 /\ Q2 l2 /\ Forall P3 l3.
Proof.
  intros H. destruct (H st) as ([] & l & E & l1 & l2 & l3 & -> & H1 & H2 & H3).
  exists l1, l2, l3. auto.
Qed.
End Framed.

Lemma str_in_iff s l : str_in s l = true <-> In s l.
Proof.
  unfold str_in. rewrite existsb_exists. split.
  - intros (x & Hx & E). apply String.eqb_eq in E. subst x. exact Hx.
  - intros H. exists s. split; [exact H|apply String.eqb_refl].
Qed.

(** Test identifiers that differ. *)
Lemma named_apart (A : list string) name r :
  forallb (fun n => negb (String.eqb n name)) A = true ->
  named A r -> not_named name r.
Proof.
  rewrite forallb_forall. unfold named, not_named. intros H Hr E.
  specialize (H _ Hr). rewrite E, String.eqb_refl in H. discriminate.
Qed.

Lemma prefixed_apart p (A : list string) name r :
  forallb (fun n => negb (String.eqb n name)) A = true ->
  named (map (String.append p) A) r -> not_named (p ++ name) r.
Proof.
  rewrite forallb_forall. unfold named, not_named. intros H Hr E.
  apply in_map_iff in Hr as (n & En & Hn). rewrite E in En.
  apply append_cancel_l in En. subst n.
  specialize (H _ Hn). rewrite String.eqb_refl in H. discriminate.
Qed.

Lemma named_among (A B : list string) r :
  forallb (fun n => negb (existsb (String.eqb n) B)) A = true ->
  named A r -> ~ named B r.
Proof.
  rewrite forallb_forall. unfold named. intros H Hr Hb.
  specialize (H _ Hr). apply negb_true_iff in H.
  assert (E : existsb (String.eqb (test_name r)) B = true).
  { apply existsb_exists. exists (test_name r). split; [exact Hb|apply String.eqb_refl]. }
  congruence.
Qed.

(** ** The name tests *)

Lemma lstrip_head s :
  lstrip s = EmptyString \/ exists c t, lstrip s = String c t /\ is_space c = false.
Proof.
  induction s as [|c t IH]; simpl; [left; reflexivity|].
  destruct (is_space c) eqn:E; [exact IH|]. right. eauto.
Qed.

Lemma strip_head s :
  strip s = EmptyString \/ exists c t, strip s = String c t /\ is_space c = false.
Proof.
  unfold strip. destruct (lstrip_head s) as [->|(c & t & -> & E)]; [left; reflexivity|].
  right. simpl. rewrite E. simpl. eauto.
Qed.

Lemma split_from_some w t : split_from (Some w) t <> [].
Proof.
  revert w. induction t as [|c t IH]; intros w; simpl; [discriminate|].
  destruct (is_space c); [discriminate|apply IH].
Qed.

(** A name that is not empty once trimmed has at least one part. *)
Lemma split_strip_parts s :
  is_empty (strip s) = false -> (1 <= length (split (strip s)))%nat.
Proof.
  destruct (strip_head s) as [->|(c & t & -> & E)]; [discriminate|]. intros _.
  unfold split. simpl. rewrite E.
  pose proof (split_from_some (EmptyString ++ String c EmptyString) t) as H.
  destruct (split_from _ t); [congruence|simpl; lia].
Qed.

Lemma runs_add_bind {B} n p m s (k : M B) (Q : B -> list ValidationResult -> Prop) :
  runs k (fun b l => Q b (mkResult n p m s :: l)) ->
  runs (bind (_add_result n p m s) (fun _ => k)) Q.
Proof.
  intros H. eapply runs_bind.
  - apply runs_add with (Q := fun _ l => l = [mkResult n p m s]). reflexivity.
  - intros _ l1 ->. exact H.
Qed.

Lemma full_name_exact ef s :
  value_of ef "full_name" (SStr EmptyString) = Ok (SStr s) ->
  runs (test_full_name ef) (fun _ l => l = full_name_outcomes s).
Proof.
  intros E. unfold test_full_name, full_name_outcomes.
  eapply runs_lift_bind; [exact E|]. eapply runs_lift_bind; [reflexivity|].
  destruct (is_empty (strip s)); cbn [negb].
  - apply runs_add. reflexivity.
  - apply runs_add_bind. cbv zeta.
    destruct (2 <=? length (split (strip s)))%nat; apply runs_add; reflexivity.
Qed.

(** ** The sex test *)

Lemma sex_exact ef s :
  value_of ef "sex" (SStr EmptyString) = Ok (SStr s) ->
  runs (test_sex ef) (fun _ l => l = [sex_outcome s]).
Proof.
  intros E. unfold test_sex, sex_outcome.
  eapply runs_lift_bind; [exact E|].
  change (scalar_in (SStr s) ["M"; "F"; "X"]) with (str_in s ["M"; "F"; "X"]).
  destruct (str_in s ["M"; "F"; "X"]); [apply runs_add; reflexivity|].
  cbn [scalar_truthy]. destruct (is_empty s); cbn [negb]; apply runs_add; reflexivity.
Qed.

(** ** The height test *)

Lemma height_exact md h :
  value_of md "height" (SStr EmptyString) = Ok (SStr h) ->
  runs (test_height md) (fun _ l => l = height_outcomes h).
Proof.
  intros E. unfold test_height, height_outcomes.
  eapply runs_lift_bind; [exact E|]. cbn [scalar_truthy].
  destruct (is_empty h); cbn [negb]; [apply runs_ret; reflexivity|].
  eapply runs_lift_bind; [reflexivity|].
  destruct (existsb _ height_patterns); apply runs_add; reflexivity.
Qed.

(** ** The test of expiry against issue *)

Lemma validate_date_ok v d :
  _validate_date v = Ok (true, Some d) -> exists s, v = SStr s /\ strptime s = Ok d.
Proof.
  unfold _validate_date. destruct v as [|s|b t]; try discriminate.
  destruct (strptime s) as [d'|[]] eqn:E; try discriminate.
  intros [= <-]. eauto.
Qed.

Lemma strptime_midnight s d :
  strptime s = Ok d -> d = mkdt (year d) (month d) (day d) 0 0 0 0.
Proof.
  unfold strptime. destruct (match_ymd s) as [[[[Y m] d'] rest]|]; [|discriminate].
  destruct (negb (is_empty rest)); [discriminate|].
  destruct (check_date_fields _ _ _); [|discriminate]. intros [= <-]. reflexivity.
Qed.

Lemma validate_date_truthy v d :
  _validate_date v = Ok (true, Some d) -> scalar_truthy v = true.
Proof.
  intros H. destruct (validate_date_ok v d H) as (s & -> & E).
  destruct s; [discriminate E|reflexivity].
Qed.

Lemma parse_if_given_ok v d :
  _validate_date v = Ok (true, Some d) -> parse_if_given v = Ok (true, Some d).
Proof.
  intros H. unfold parse_if_given. rewrite (validate_date_truthy v d H). exact H.
Qed.

Lemma gt_midnight ya ma da yb mb db :
  gt (mkdt ya ma da 0 0 0 0) (mkdt yb mb db 0 0 0 0) = true
  <-> date_after (mkdt ya ma da 0 0 0 0) (mkdt yb mb db 0 0 0 0).
Proof.
  unfold gt, lt, fields, date_after. simpl.
  destruct (Z.compare_spec yb ya); destruct (Z.compare_spec mb ma);
    destruct (Z.compare_spec db da); split; intros; try discriminate;
    try reflexivity; try lia.
Qed.

Lemma expiry_after_issue_exact p i e di de :
  runs (test_expiry_after_issue p i e (true, Some di) (true, Some de))
       (fun _ l => l = [expiry_after_issue_outcome p i e di de]).
Proof.
  unfold test_expiry_after_issue, expiry_after_issue_outcome. cbn [fst snd andb].
  eapply runs_lift_bind; [reflexivity|]. eapply runs_lift_bind; [reflexivity|].
  destruct (gt de di); apply runs_add; reflexivity.
Qed.

Lemma issue_format_only p i r :
  only (named (format_tests p)) (test_issue_format p i r).
Proof. unfold test_issue_format. walk. Qed.

Lemma expiry_format_only p e r :
  only (named (format_tests p)) (test_expiry_format p e r).
Proof. unfold test_expiry_format. walk. Qed.

Lemma later_dates_only now p i e b ri re rb :
  (ri.1 = true -> exists d, ri.2 = Some d) ->
  (re.1 = true -> exists d, re.2 = Some d) ->
  (rb.1 = true -> exists d, rb.2 = Some d) ->
  only (named (later_date_tests p))
    (test_issue_after_birth p i b ri rb ;;
     test_validity_period p ri re ;;
     test_not_expired now p e re).
Proof.
  destruct ri as [[] oi], re as [[] oe], rb as [[] ob]; cbn [fst snd];
    intros Hi He Hb;
    try (destruct Hi as [di ->]; [reflexivity|]);
    try (destruct He as [de ->]; [reflexivity|]);
    try (destruct Hb as [db ->]; [reflexivity|]);
    unfold test_issue_after_birth, test_validity_period, test_not_expired;
    walk.
Qed.

(** ** The words of the specification and the methods of [str] *)

Import Shape Wording.

Lemma lstrip_blank s : is_empty (lstrip s) = blank s.
Proof.
  induction s as [|c t IH]; simpl; [reflexivity|].
  destruct (is_space c); simpl; [exact IH|reflexivity].
Qed.

Lemma strip_blank s : is_empty (strip s) = blank s.
Proof.
  unfold strip. rewrite <- lstrip_blank.
  destruct (lstrip_head s) as [->|(c & t & -> & E)]; [reflexivity|].
  simpl. rewrite E. reflexivity.
Qed.

Lemma split_from_count cur s :
  length (split_from cur s)
  = match cur with
    | Some _ => S (token_starts false s)
    | None => token_starts true s
    end.
Proof.
  revert cur. induction s as [|c t IH]; intros cur; simpl.
  - destruct cur; reflexivity.
  - destruct (is_space c); simpl.
    + destruct cur; simpl; rewrite (IH None); reflexivity.
    + rewrite IH. destruct cur; reflexivity.
Qed.

Lemma token_starts_lstrip s : token_starts true (lstrip s) = token_starts true s.
Proof.
  induction s as [|c t IH]; simpl; [reflexivity|].
  destruct (is_space c) eqn:E; simpl; [exact IH|rewrite E; reflexivity].
Qed.

Lemma token_starts_rstrip b s : token_starts b (rstrip s) = token_starts b s.
Proof.
  revert b. induction s as [|c t IH]; intros b; simpl; [reflexivity|].
  destruct (is_space c) eqn:E; simpl.
  - destruct (rstrip t) as [|c' t'] eqn:R; simpl.
    + rewrite <- (IH true). rewrite andb_false_r. reflexivity.
    + rewrite E, <- (IH true). reflexivity.
  - rewrite E, IH. reflexivity.
Qed.

(** [len(name.strip().split())] is the number of tokens of the name. *)
Lemma split_strip_count s : length (split (strip s)) = token_count s.
Proof.
  unfold split, strip, token_count.
  rewrite (split_from_count None), token_starts_rstrip. apply token_starts_lstrip.
Qed.

Lemma token_starts_blank s : blank s = false -> (1 <= token_starts true s)%nat.
Proof.
  induction s as [|c t IH]; simpl; [discriminate|].
  destruct (is_space c); simpl; [exact IH|lia].
Qed.

(** ** The words of the specification and the height patterns *)

Lemma star_blank ws : Re.star_lang (Re.cmem true Re.Space) ws <-> blank ws = true.
Proof.
  split.
  - induction 1 as [|c w Hc Hw IH]; [reflexivity|]. simpl in *. rewrite Hc, IH. reflexivity.
  - induction ws as [|c w IH]; simpl; intros H; [constructor|].
    apply andb_prop in H as [Hc Hw]. constructor; [exact Hc|apply IH, Hw].
Qed.

Lemma star_digits b : Re.star_lang (Re.cmem true Re.Digit) b <-> digits b = true.
Proof.
  split.
  - induction 1 as [|c w Hc Hw IH]; [reflexivity|]. simpl in *. rewrite Hc, IH. reflexivity.
  - induction b as [|c w IH]; simpl; intros H; [constructor|].
    apply andb_prop in H as [Hc Hw]. constructor; [exact Hc|apply IH, Hw].
Qed.

Lemma plus_numeral a : Re.lang true (Re.plus Re.Digit) a <-> numeral a = true.
Proof.
  unfold Re.plus, numeral. split.
  - intros (u & v & -> & (c & -> & Hc) & Hv). apply star_digits in Hv.
    change (String c EmptyString ++ v) with (String c v).
    simpl in *. rewrite Hc, Hv. reflexivity.
  - destruct a as [|c t]; [discriminate|]. simpl. intros H.
    apply andb_prop in H as [Hc Ht].
    exists (String c EmptyString), t. split; [reflexivity|].
    split; [exists c; auto|apply star_digits, Ht].
Qed.

Lemma letter_either_case (x c : ascii) :
  In x ["f"; "t"; "i"; "n"; "c"; "m"]%char ->
  (Re.cmem true (Re.Lit x) c = true <-> same_letter c x = true).
Proof.
  intros Hx.
  assert (E : forallb (fun x => Bool.eqb (Re.cmem true (Re.Lit x) c) (same_letter c x))
                ["f"; "t"; "i"; "n"; "c"; "m"]%char = true).
  { revert c. apply for_all_chars. vm_compute. reflexivity. }
  rewrite forallb_forall in E. specialize (E x Hx). apply eqb_prop in E.
  rewrite E. tauto.
Qed.

Lemma sign_itself (x c : ascii) :
  In x ["'"; "034"]%char -> (Re.cmem true (Re.Lit x) c = true <-> c = x).
Proof.
  intros Hx.
  assert (E : forallb (fun x => Bool.eqb (Re.cmem true (Re.Lit x) c) (Ascii.eqb c x))
                ["'"; "034"]%char = true).
  { revert c. apply for_all_chars. vm_compute. reflexivity. }
  rewrite forallb_forall in E. specialize (E x Hx). apply eqb_prop in E.
  rewrite E. apply Ascii.eqb_eq.
Qed.

Lemma lang_sign (x : ascii) w :
  In x ["'"; "034"]%char -> (Re.lang true (Re.lit x) w <-> w = String x EmptyString).
Proof.
  intros Hx. unfold Re.lit. simpl. split.
  - intros (c & -> & Hc). apply (sign_itself x c Hx) in Hc. subst c. reflexivity.
  - intros ->. exists x. split; [reflexivity|]. apply (sign_itself x x Hx). reflexivity.
Qed.

(** Two letters of a pattern, one after the other, and a text that
    spells them in either case. *)
Lemma lang_unit (x y : ascii) u v :
  In x ["f"; "t"; "i"; "n"; "c"; "m"]%char ->
  In y ["f"; "t"; "i"; "n"; "c"; "m"]%char ->
  Re.lang true (Re.lit x) u -> Re.lang true (Re.lit y) v ->
  spelled (u ++ v) (String x (String y EmptyString)) = true.
Proof.
  intros Hx Hy (c & -> & Hc) (d & -> & Hd).
  apply (letter_either_case x c Hx) in Hc. apply (letter_either_case y d Hy) in Hd.
  simpl. rewrite Hc, Hd. reflexivity.
Qed.

Lemma unit_lang (x y : ascii) w :
  In x ["f"; "t"; "i"; "n"; "c"; "m"]%char ->
  In y ["f"; "t"; "i"; "n"; "c"; "m"]%char ->
  spelled w (String x (String y EmptyString)) = true ->
  exists c d, w = String c (String d EmptyString)
              /\ Re.lang true (Re.lit x) (String c EmptyString)
              /\ Re.lang true (Re.lit y) (String d EmptyString).
Proof.
  intros Hx Hy H. destruct w as [|c [|d [|e w]]]; simpl in H; try discriminate.
  - rewrite andb_false_r in H. discriminate.
  - apply andb_prop in H as [Hc H]. apply andb_prop in H as [Hd _].
    exists c, d. split; [reflexivity|].
    split; eexists; (split; [reflexivity|]); apply letter_either_case; assumption.
  - apply andb_prop in H as [_ H]. apply andb_prop in H as [_ H]. discriminate.
Qed.

Ltac flat_append :=
  repeat first [rewrite append_assoc | rewrite append_cons | rewrite append_nil_r].

Ltac letters := simpl; tauto.

Lemma lang_feet_inches w :
  Re.lang true (Re.cats [Re.plus Re.Digit; Re.lit "'"; Re.Star Re.Space;
                         Re.plus Re.Digit; Re.lit "034"]) w
  <-> feet_inches w.
Proof.
  unfold Re.cats, feet_inches. split.
  - intros (a & r1 & -> & Ha & q & r2 & -> & Hq & ws & r3 & -> & Hws
            & b & q2 & -> & Hb & Hq2).
    apply plus_numeral in Ha, Hb. apply star_blank in Hws.
    apply lang_sign in Hq; [|letters]. apply lang_sign in Hq2; [|letters].
    subst q q2. exists a, ws, b. auto.
  - intros (a & ws & b & -> & Ha & Hws & Hb).
    exists a, ("'" ++ ws ++ b ++ String "034" EmptyString).
    split; [reflexivity|]. split; [apply plus_numeral, Ha|].
    exists "'", (ws ++ b ++ String "034" EmptyString).
    split; [reflexivity|]. split; [apply lang_sign; [letters|reflexivity]|].
    exists ws, (b ++ String "034" EmptyString).
    split; [reflexivity|]. split; [apply star_blank, Hws|].
    exists b, (String "034" EmptyString).
    split; [reflexivity|]. split; [apply plus_numeral, Hb|].
    apply lang_sign; [letters|reflexivity].
Qed.

Lemma lang_ft_in w :
  Re.lang true (Re.cats [Re.plus Re.Digit; Re.Star Re.Space; Re.lit "f"; Re.lit "t";
                         Re.Star Re.Space; Re.Star Re.Digit; Re.Star Re.Space;
                         Re.lit "i"; Re.lit "n"]) w
  <-> ft_in w.
Proof.
  unfold Re.cats, ft_in. split.
  - intros (a & r1 & -> & Ha & s1 & r2 & -> & Hs1 & f & r3 & -> & Hf
            & t & r4 & -> & Ht & s2 & r5 & -> & Hs2 & b & r6 & -> & Hb
            & s3 & r7 & -> & Hs3 & i & n & -> & Hi & Hn).
    apply plus_numeral in Ha. apply star_blank in Hs1, Hs2, Hs3.
    apply star_digits in Hb.
    pose proof (lang_unit "f" "t" f t ltac:(letters) ltac:(letters) Hf Ht) as Hft.
    pose proof (lang_unit "i" "n" i n ltac:(letters) ltac:(letters) Hi Hn) as Hin.
    exists a, s1, (f ++ t), s2, b, s3, (i ++ n).
    split; [flat_append; reflexivity|]. auto 10.
  - intros (a & s1 & ft & s2 & b & s3 & inch & -> & Ha & Hs1 & Hft & Hs2 & Hb & Hs3 & Hin).
    apply unit_lang in Hft as (f & t & -> & Hf & Ht); [|letters..].
    apply unit_lang in Hin as (i & n & -> & Hi & Hn); [|letters..].
    exists a, (s1 ++ String f (String t EmptyString) ++ s2 ++ b ++ s3
               ++ String i (String n EmptyString)).
    split; [reflexivity|]. split; [apply plus_numeral, Ha|].
    exists s1, (String f (String t EmptyString) ++ s2 ++ b ++ s3
                ++ String i (String n EmptyString)).
    split; [reflexivity|]. split; [apply star_blank, Hs1|].
    exists (String f EmptyString),
           (String t (s2 ++ b ++ s3 ++ String i (String n EmptyString))).
    split; [reflexivity|]. split; [exact Hf|].
    exists (String t EmptyString), (s2 ++ b ++ s3 ++ String i (String n EmptyString)).
    split; [reflexivity|]. split; [exact Ht|].
    exists s2, (b ++ s3 ++ String i (String n EmptyString)).
    split; [reflexivity|]. split; [apply star_blank, Hs2|].
    exists b, (s3 ++ String i (String n EmptyString)).
    split; [reflexivity|]. split; [apply star_digits, Hb|].
    exists s3, (String i (String n EmptyString)).
    split; [reflexivity|]. split; [apply star_blank, Hs3|].
    exists (String i EmptyString), (String n EmptyString). auto.
Qed.

Lemma lang_centimetres w :
  Re.lang true (Re.cats [Re.plus Re.Digit; Re.Star Re.Space; Re.lit "c"; Re.lit "m"]) w
  <-> centimetres w.
Proof.
  unfold Re.cats, centimetres. split.
  - intros (a & r1 & -> & Ha & s1 & r2 & -> & Hs1 & c & m & -> & Hc & Hm).
    apply plus_numeral in Ha. apply star_blank in Hs1.
    pose proof (lang_unit "c" "m" c m ltac:(letters) ltac:(letters) Hc Hm) as Hcm.
    exists a, s1, (c ++ m). auto.
  - intros (a & s1 & cm & -> & Ha & Hs1 & Hcm).
    apply unit_lang in Hcm as (c & m & -> & Hc & Hm); [|letters..].
    exists a, (s1 ++ String c (String m EmptyString)).
    split; [reflexivity|]. split; [apply plus_numeral, Ha|].
    exists s1, (String c (String m EmptyString)).
    split; [reflexivity|]. split; [apply star_blank, Hs1|].
    exists (String c EmptyString), (String m EmptyString). auto.
Qed.

(** The three patterns of the height test have the three formats of the
    specification for languages. *)
Lemma height_found h : found_in height_patterns h <-> has_part height_format h.
Proof.
  unfold found_in, has_part, height_format, height_patterns. split.
  - intros (p & pre & w & post & Hp & -> & Hw). exists pre, w, post.
    split; [reflexivity|].
    destruct Hp as [<-|[<-|[<-|[]]]].
    + left. apply lang_feet_inches, Hw.
    + right; left. apply lang_ft_in, Hw.
    + right; right. apply lang_centimetres, Hw.
  - intros (pre & w & post & -> & [H|[H|H]]).
    + eexists _, pre, w, post. split; [left; reflexivity|].
      split; [reflexivity|]. apply lang_feet_inches, H.
    + eexists _, pre, w, post. split; [right; left; reflexivity|].
      split; [reflexivity|]. apply lang_ft_in, H.
    + eexists _, pre, w, post. split; [right; right; left; reflexivity|].
      split; [reflexivity|]. apply lang_centimetres, H.
Qed.

(** * The claims *)

(** C1, as the specification words it, fails: on an extraction whose
    status is ["error"] the message of the skip sentinel does not start
    with a lower-case letter. *)
Lemma skip_message_counterexample :
  status_is_success Samples.failed_extraction = false
  /\ fst (validate Samples.noon Samples.failed_extraction [])
     <> Ok (Skipped false "validation skipped - extraction was not successful").
Proof. split; [reflexivity|]. vm_compute. discriminate. Qed.

(** C1 (amended): for every input whose status is not ["success"] (absent
    and non-string statuses included), [validate] returns, without
    raising, exactly the skip sentinel with [validation_run] false and
    the message "Validation skipped - extraction was not successful"; no
    outcome list, no counts, and the outcome buffer is left empty. *)
Theorem skip_law now x st :
  status_is_success x = false ->
  validate now x st
  = (Ok (Skipped false "Validation skipped - extraction was not successful"), []).
Proof.
  intros Hs. unfold validate.
  change (top_eq_str (default (TOther false) (x !! "status")) "success")
    with (status_is_success x).
  rewrite Hs. reflexivity.
Qed.

Lemma skip_law_witness :
  status_is_success Samples.failed_extraction = false
  /\ validate Samples.noon Samples.failed_extraction []
     = (Ok (Skipped false "Validation skipped - extraction was not successful"), []).
Proof.
  split; [reflexivity|].
  apply (skip_law Samples.noon Samples.failed_extraction []). reflexivity.
Defined.

(** C2: for every input with status ["success"], a conforming input gets
    a report, and every report returned is a full report with
    [total_tests = passed + failed], [errors + warnings = failed],
    [all_tests_passed] true exactly when [failed] is 0, [errors] the
    number of failed outcomes of severity ["error"] and [warnings] the
    number of failed outcomes of severity ["warning"]. *)
Theorem count_law now x st :
  status_is_success x = true ->
  (conforms x = true -> exists r st', validate now x st = (Ok r, st'))
  /\ forall r st', validate now x st = (Ok r, st') ->
     exists total npassed nfailed nerrors nwarnings all tests errs warns,
       r = Report true total npassed nfailed nerrors nwarnings all tests errs warns
       /\ total = (npassed + nfailed)%nat
       /\ (nerrors + nwarnings)%nat = nfailed
       /\ (all = true <-> nfailed = 0%nat)
       /\ nerrors = length (List.filter (o_failed_with "error") tests)
       /\ nwarnings = length (List.filter (o_failed_with "warning") tests).
Proof.
  intros Hs. split; [intros Hc; apply validate_returns, Hc|].
  intros r st' H. destruct (validate_success now x st r st' Hs H) as [G ->].
  do 9 eexists. split; [reflexivity|].
  rewrite !sum_ones_filter.
  rewrite <- (to_dict_filter (o_failed_with "error") is_error st') by reflexivity.
  rewrite <- (to_dict_filter (o_failed_with "warning") is_warning st') by reflexivity.
  rewrite !length_map.
  repeat split.
  - apply passed_failed_split.
  - apply errors_warnings_split, G.
  - apply Nat.eqb_eq.
  - apply Nat.eqb_eq.
Qed.

Lemma count_law_witness :
  status_is_success Samples.license = true
  /\ (conforms Samples.license = true ->
      exists r st', validate Samples.noon Samples.license [] = (Ok r, st'))
  /\ forall r st', validate Samples.noon Samples.license [] = (Ok r, st') ->
     exists total npassed nfailed nerrors nwarnings all tests errs warns,
       r = Report true total npassed nfailed nerrors nwarnings all tests errs warns
       /\ total = (npassed + nfailed)%nat
       /\ (nerrors + nwarnings)%nat = nfailed
       /\ (all = true <-> nfailed = 0%nat)
       /\ nerrors = length (List.filter (o_failed_with "error") tests)
       /\ nwarnings = length (List.filter (o_failed_with "warning") tests).
Proof.
  split; [reflexivity|].
  apply (count_law Samples.noon Samples.license []). reflexivity.
Defined.

(** C3: the code departs from the claim, and from the docstring of
    [_validate_date], which reads "Validate date string in YYYY-MM-DD
    format".  The texts ["1990-5-15"] and ["1990-05- 5"] are not of the
    zero-padded form [YYYY-MM-DD]; the parser does not reject them as
    (false, none) but accepts them, as 15 May 1990 and as 5 May 1990. *)
Theorem unpadded_dates_accepted :
  is_strict_text "1990-5-15" = false
  /\ _validate_date (SStr "1990-5-15") = Ok (true, Some (mkdt 1990 5 15 0 0 0 0))
  /\ is_strict_text "1990-05- 5" = false
  /\ _validate_date (SStr "1990-05- 5") = Ok (true, Some (mkdt 1990 5 5 0 0 0 0)).
Proof. repeat split; vm_compute; reflexivity. Qed.

(** What the parser accepts among the texts of the embedding (code
    points below 256; a digit from U+0100 on is not covered): a year of
    four digits, a hyphen, a month from 1 to 12 written with two digits
    or, below 10, with one, a hyphen, and a day from 1 to 31 written with
    two digits or, below 10, with one digit or a blank and one digit,
    where the year is at least 1 and the day exists in that month of
    that year; the date returned is the one written.  Every other text
    of the embedding is rejected as (false, none). *)
Lemma validate_date_accepts s :
  (forall dt, _validate_date (SStr s) = Ok (true, Some dt) <-> date_text s dt)
  /\ (_validate_date (SStr s) = Ok (false, None) <-> ~ exists dt, date_text s dt).
Proof.
  assert (A : forall dt, _validate_date (SStr s) = Ok (true, Some dt) <-> date_text s dt).
  { intros dt. rewrite <- strptime_iff. unfold _validate_date. split.
    - destruct (strptime s) as [d|[]]; try discriminate. intros [= ->]. reflexivity.
    - intros ->. reflexivity. }
  split; [exact A|]. split.
  - intros H [dt Hdt]. apply A in Hdt. congruence.
  - intros H. destruct (validate_date_total (SStr s)) as [[d E]|E]; [|exact E].
    exfalso. apply H. exists d. apply A, E.
Qed.

(** C4: on every input of the shape of an extraction result, [validate]
    returns, without raising, a well-formed report or the skip sentinel;
    and the date parser turns every failure of [strptime], on a string
    or on anything else, into (false, none). *)
Theorem validate_never_raises now x st :
  conforms x = true ->
  (exists r st', validate now x st = (Ok r, st') /\ well_formed r)
  /\ forall v, _validate_date v = Ok (false, None)
               \/ exists d, _validate_date v = Ok (true, Some d).
Proof.
  intros Hc. split.
  - destruct (validate_returns now x st Hc) as (r & st' & E).
    exists r, st'. split; [exact E|].
    destruct (status_is_success x) eqn:Hs.
    + destruct (validate_success now x st r st' Hs E) as [G ->].
      apply well_formed_compiled, G.
    + rewrite (validate_skip now x st Hs) in E. injection E as <- _. reflexivity.
  - intros v. destruct (validate_date_total v); auto.
Qed.

Lemma validate_never_raises_witness :
  conforms Samples.adversarial = true
  /\ exists r st', validate Samples.noon Samples.adversarial [] = (Ok r, st')
                   /\ well_formed r.
Proof.
  split; [reflexivity|].
  apply (validate_never_raises Samples.noon Samples.adversarial []). reflexivity.
Defined.

(** C5: a run of [validate] does not depend on what the instance recorded
    before, so a second call on the same input at the same instant
    returns what the first returned, exception included, and leaves the
    same outcomes in the buffer. *)
Theorem validate_idempotent now x st :
  validate now x (snd (validate now x st)) = validate now x st
  /\ forall st', validate now x st' = validate now x st.
Proof.
  assert (F : forall st1 st2, validate now x st1 = validate now x st2).
  { intros st1 st2. unfold validate, bind at 1, set_results. reflexivity. }
  split; [apply F|intros st'; apply F].
Qed.

(** C6: among the common checks on conforming essential fields, the sex
    test records one outcome, the last of the method: for a value in
    [{M, F, X}], [essential_fields.sex.valid] passed; for another
    non-empty value, [essential_fields.sex.valid] failed with severity
    ["warning"]; for an empty or absent value (read as the empty string),
    [essential_fields.sex.present] failed with severity ["warning"]. *)
Theorem sex_check now ef s st :
  fields_ok ef = true ->
  value_of ef "sex" (SStr EmptyString) = Ok (SStr s) ->
  exists before r,
    _validate_essential_fields now ef st = (Ok tt, (st ++ before ++ [r])%list)
    /\ Forall (fun o => ~ named sex_tests o) before
    /\ (In s ["M"; "F"; "X"] ->
        test_name r = "essential_fields.sex.valid" /\ passed r = true)
    /\ (~ In s ["M"; "F"; "X"] -> s <> EmptyString ->
        test_name r = "essential_fields.sex.valid" /\ passed r = false
        /\ severity r = "warning")
    /\ (s = EmptyString ->
        test_name r = "essential_fields.sex.present" /\ passed r = false
        /\ severity r = "warning").
Proof.
  intros Hef E.
  assert (R : runs (_validate_essential_fields now ef)
                (framed (named (full_name_tests ++ date_of_birth_tests))
                        (fun l => l = [sex_outcome s]) (fun _ => False))).
  { unfold _validate_essential_fields.
    apply framed_before.
    { eapply only_weaken; [|apply full_name_only, Hef]. intros r. apply named_app_l. }
    apply framed_before.
    { eapply only_weaken; [|apply date_of_birth_only, Hef]. intros r. apply named_app_r. }
    apply framed_last. apply sex_exact, E. }
  destruct (framed_result _ _ _ _ st R) as (l1 & l2 & l3 & Er & H1 & -> & H3).
  destruct l3 as [|o l3]; [|inversion H3; contradiction].
  exists l1, (sex_outcome s). split; [exact Er|].
  split.
  { eapply List.Forall_impl; [|exact H1]. intros o. apply named_among. reflexivity. }
  unfold sex_outcome.
  destruct (str_in s ["M"; "F"; "X"]) eqn:Hin.
  - apply str_in_iff in Hin.
    split; [intros _; split; reflexivity|].
    split; [intros Hn; exfalso; apply Hn, Hin|].
    intros ->. exfalso. simpl in Hin. intuition discriminate.
  - assert (Hn : ~ In s ["M"; "F"; "X"]).
    { intros Hi. apply str_in_iff in Hi. congruence. }
    split; [intros Hi; contradiction|].
    destruct s as [|c t]; cbn [is_empty].
    + split; [intros _ Hne; congruence|intros _; repeat split; reflexivity].
    + split; [intros _ _; repeat split; reflexivity|intros; discriminate].
Qed.

Lemma sex_check_witness :
  exists before r,
    _validate_essential_fields Samples.noon Samples.license_fields []
    = (Ok tt, ([] ++ before ++ [r])%list)
    /\ Forall (fun o => ~ named sex_tests o) before
    /\ (In "Male" ["M"; "F"; "X"] ->
        test_name r = "essential_fields.sex.valid" /\ passed r = true)
    /\ (~ In "Male" ["M"; "F"; "X"] -> "Male" <> EmptyString ->
        test_name r = "essential_fields.sex.valid" /\ passed r = false
        /\ severity r = "warning")
    /\ ("Male" = EmptyString ->
        test_name r = "essential_fields.sex.present" /\ passed r = false
        /\ severity r = "warning").
Proof.
  apply (sex_check Samples.noon Samples.license_fields "Male" []);
    vm_compute; reflexivity.
Defined.

(** C7: when the issue date and the expiry date both parse, the date
    checks record exactly one outcome [{prefix}.dates.expiry_after_issue];
    it passes if and only if the expiry date is a later calendar date than
    the issue date, and when it fails its severity is ["error"]. *)
Theorem expiry_after_issue_check now issue_date expiry_date dob doc_type di de st :
  _validate_date issue_date = Ok (true, Some di) ->
  _validate_date expiry_date = Ok (true, Some de) ->
  exists before r after,
    _validate_document_dates now issue_date expiry_date dob doc_type st
    = (Ok tt, (st ++ before ++ [r] ++ after)%list)
    /\ test_name r = doc_type ++ ".dates.expiry_after_issue"
    /\ (passed r = true <-> date_after de di)
    /\ (passed r = false -> severity r = "error")
    /\ Forall (not_named (doc_type ++ ".dates.expiry_after_issue")) (before ++ after).
Proof.
  intros Hi He.
  assert (R : runs (_validate_document_dates now issue_date expiry_date dob doc_type)
                (framed (named (format_tests doc_type))
                   (fun l => l = [expiry_after_issue_outcome doc_type issue_date
                                    expiry_date di de])
                   (named (later_date_tests doc_type)))).
  { unfold _validate_document_dates.
    eapply runs_lift_bind; [apply parse_if_given_ok, Hi|].
    eapply runs_lift_bind; [apply parse_if_given_ok, He|].
    assert (B : exists rb, parse_if_given dob = Ok rb
                           /\ (rb.1 = true -> exists d, rb.2 = Some d)).
    { destruct (parse_if_given_total dob) as [[d E]|E]; rewrite E; eexists;
        (split; [reflexivity|]); simpl; [eauto|discriminate]. }
    destruct B as (rb & Eb & Hb).
    eapply runs_lift_bind; [exact Eb|].
    apply framed_before; [apply issue_format_only|].
    apply framed_before; [apply expiry_format_only|].
    apply framed_here; [apply expiry_after_issue_exact|].
    apply later_dates_only; [simpl; eauto|simpl; eauto|exact Hb]. }
  destruct (framed_result _ _ _ _ st R) as (l1 & l2 & l3 & Er & H1 & -> & H3).
  exists l1, (expiry_after_issue_outcome doc_type issue_date expiry_date di de), l3.
  split; [exact Er|].
  destruct (validate_date_ok _ _ Hi) as (si & _ & Si).
  destruct (validate_date_ok _ _ He) as (se & _ & Se).
  apply strptime_midnight in Si, Se.
  unfold expiry_after_issue_outcome.
  split; [destruct (gt de di); reflexivity|].
  split.
  { rewrite Si, Se. rewrite <- gt_midnight.
    destruct (gt _ _); simpl; split; congruence. }
  split; [destruct (gt de di); reflexivity|].
  apply Forall_app. split.
  - eapply List.Forall_impl; [|exact H1]. intros o.
    apply (prefixed_apart doc_type [".date_of_issue.format"; ".date_of_expiry.format"]).
    reflexivity.
  - eapply List.Forall_impl; [|exact H3]. intros o.
    apply (prefixed_apart doc_type
             [".dates.issue_after_birth"; ".dates.validity_period"; ".dates.not_expired"]).
    reflexivity.
Qed.

Lemma expiry_after_issue_witness :
  exists before r after,
    _validate_document_dates Samples.noon (SStr "2020-01-01") (SStr "2019-01-01")
      SNone "license" []
    = (Ok tt, ([] ++ before ++ [r] ++ after)%list)
    /\ test_name r = "license" ++ ".dates.expiry_after_issue"
    /\ (passed r = true
        <-> date_after (mkdt 2019 1 1 0 0 0 0) (mkdt 2020 1 1 0 0 0 0))
    /\ (passed r = false -> severity r = "error")
    /\ Forall (not_named ("license" ++ ".dates.expiry_after_issue")) (before ++ after).
Proof.
  apply (expiry_after_issue_check Samples.noon (SStr "2020-01-01") (SStr "2019-01-01")
           SNone "license" (mkdt 2020 1 1 0 0 0 0) (mkdt 2019 1 1 0 0 0 0) []);
    vm_compute; reflexivity.
Defined.





(** C10: in every full report, an outcome that passed has severity
    ["error"], the default of the constructor, and an outcome of severity
    ["warning"] did not pass. *)
Theorem passed_outcomes_carry_error now x st r st' :
  validate now x st = (Ok r, st') ->
  Forall (fun o => (o_passed o = true -> o_severity o = "error")
                   /\ (o_severity o = "warning" -> o_passed o = false))
         (outcomes_of r).
Proof.
  intros H. destruct (status_is_success x) eqn:Hs.
  - destruct (validate_success now x st r st' Hs H) as [G ->]. simpl.
    apply Forall_map. eapply List.Forall_impl; [|exact G].
    intros o [He|[Hw Hp]]; simpl.
    + split; [auto|]. rewrite He. discriminate.
    + split; [congruence|auto].
  - rewrite (validate_skip now x st Hs) in H. injection H as <- _. constructor.
Qed.

Lemma passed_outcomes_witness :
  exists r st',
    validate Samples.noon Samples.license [] = (Ok r, st')
    /\ length (List.filter o_passed (outcomes_of r)) = 9%nat
    /\ Forall (fun o => (o_passed o = true -> o_severity o = "error")
                        /\ (o_severity o = "warning" -> o_passed o = false))
              (outcomes_of r).
Proof.
  eexists. eexists. split; [vm_compute; reflexivity|]. split; [reflexivity|].
  eapply (passed_outcomes_carry_error Samples.noon Samples.license []).
  vm_compute. reflexivity.
Defined.

(** * Runs on the sample inputs *)

(** Outside the shape the validator can raise: a name whose value is
    [None] has no [strip]. *)
Example null_name_raises :
  conforms Samples.null_name = false
  /\ validate Samples.noon Samples.null_name [] = (Raise AttributeError, []).
Proof. split; vm_compute; reflexivity. Qed.

(** The single-part name, the age on 1 June 2024 of a person born on 15
    May 1990, the sex ["Male"], the cleaned license number, and the
    expiry before the issue. *)
Example license_run :
  exists r st',
    validate Samples.noon Samples.license [] = (Ok r, st')
    /\ incl
         [mkOutcome "essential_fields.full_name.format" false
            "Name may be incomplete - only 1 part(s) found" "warning";
          mkOutcome "essential_fields.date_of_birth.reasonable" true
            "Age is reasonable: ~34 years" "error";
          mkOutcome "essential_fields.sex.valid" false
            "Sex value is invalid: Male (expected M, F, or X)" "warning";
          mkOutcome "license.dl_number.length" true
            "License number length is valid: 9 characters" "error";
          mkOutcome "license.dates.expiry_after_issue" false
            "Expiry date (2019-01-01) is not after issue date (2020-01-01)" "error"]
         (outcomes_of r).
Proof.
  eexists. eexists. split; [vm_compute; reflexivity|].
  intros o Ho. simpl in Ho. simpl.
  repeat (destruct Ho as [<-|Ho]; [tauto|]). destruct Ho.
Qed.

(** A conforming input made of malformed and oversized values is
    validated, and every check on it fails. *)
Example adversarial_run :
  exists tests errs warns st',
    validate Samples.noon Samples.adversarial []
    = (Ok (Report true 6 1 5 3 2 false tests errs warns), st').
Proof. do 4 eexists. vm_compute. reflexivity. Qed.

(** [strptime] on dates that are well written and do not exist, on a
    blank-padded day, and on a date followed by a time. *)
Example strptime_samples :
  map strptime ["2023-02-30"; "0000-01-01"; "2024-02-29"; "1990-05- 5";
                "1990-05-15T00:00"; "1990/05/15"]
  = [Raise ValueError; Raise ValueError; Ok (mkdt 2024 2 29 0 0 0 0);
     Ok (mkdt 1990 5 5 0 0 0 0); Raise ValueError; Raise ValueError].
Proof. vm_compute. reflexivity. Qed.

(** * Further properties of the validator *)

Import Shape.

(** ** What a run that returns has recorded *)

Lemma emits_ret {A} (a : A) (Q : A -> list ValidationResult -> Prop) :
  Q a [] -> emits (ret a) Q.
Proof.
  intros H st a' st' [= <- <-]. exists []. rewrite app_nil_r. auto.
Qed.

Lemma emits_add n p m s (Q : unit -> list ValidationResult -> Prop) :
  Q tt [mkResult n p m s] -> emits (_add_result n p m s) Q.
Proof. intros H st [] st' [= <-]. eauto. Qed.

Lemma emits_bind {A B} (c : M A) (k : A -> M B) Q1 (Q : B -> list ValidationResult -> Prop) :
  emits c Q1 ->
  (forall a l1, Q1 a l1 -> emits (k a) (fun b l2 => Q b (l1 ++ l2)%list)) ->
  emits (bind c k) Q.
Proof.
  intros Hc Hk st b st' H. apply bind_ok_inv in H as (a & st1 & E1 & E2).
  destruct (Hc _ _ _ E1) as (l1 & -> & H1).
  destruct (Hk a l1 H1 _ _ _ E2) as (l2 & -> & H2).
  exists (l1 ++ l2)%list. rewrite app_assoc. auto.
Qed.

Lemma emits_lift_bind {A B} (r : result A) (k : A -> M B) Q :
  (forall a, r = Ok a -> emits (k a) Q) -> emits (bind (lift r) k) Q.
Proof.
  intros H st b st' E. unfold bind, lift in E.
  destruct r as [a|e]; [|discriminate]. exact (H a eq_refl st b st' E).
Qed.

Lemma emits_add_bind {B} n p m s (k : M B) (Q : B -> list ValidationResult -> Prop) :
  emits k (fun b l => Q b (mkResult n p m s :: l)) ->
  emits (bind (_add_result n p m s) (fun _ => k)) Q.
Proof.
  intros H. eapply emits_bind.
  - apply emits_add with (Q := fun _ l => l = [mkResult n p m s]). reflexivity.
  - intros _ l1 ->. exact H.
Qed.

Lemma emits_weaken {A} (c : M A) (Q Q' : A -> list ValidationResult -> Prop) :
  emits c Q -> (forall a l, Q a l -> Q' a l) -> emits c Q'.
Proof.
  intros H HQ st a st' E. destruct (H _ _ _ E) as (l & -> & Hl). eauto.
Qed.

(** Walking through a test: a value read is any value, a branch is
    either branch; [leaf] closes what is asked of the outcomes listed. *)
Ltac trace leaf :=
  repeat
    match goal with
    | |- emits (bind (lift _) _) _ => apply emits_lift_bind; intros ? ?
    | |- emits (bind (_add_result_default _ _ _) _) _ =>
        unfold _add_result_default at 1; apply emits_add_bind
    | |- emits (bind (_add_result _ _ _ _) _) _ => apply emits_add_bind
    | |- emits (bind (if ?b then _ else _) _) _ => destruct b
    | |- emits (if ?b then _ else _) _ => destruct b
    | |- emits (let '(_, _) := ?r in _) _ => destruct r
    | |- emits (let _ := _ in _) _ => cbv zeta
    | |- emits (_add_result_default _ _ _) _ =>
        unfold _add_result_default; apply emits_add; leaf
    | |- emits (_add_result _ _ _ _) _ => apply emits_add; leaf
    | |- emits (ret tt) _ => apply emits_ret; leaf
    end.

Ltac listed :=
  unfold ids_in, ids; simpl; repeat first [ left; reflexivity | right ].

(** ** The test identifiers of a report *)

Lemma ids_app l1 l2 : ids (l1 ++ l2) = (ids l1 ++ ids l2)%list.
Proof. apply map_app. Qed.

Lemma seqs_In (S1 S2 : list (list string)) a b :
  In a S1 -> In b S2 -> In (a ++ b)%list (seqs S1 S2).
Proof.
  intros Ha Hb. unfold seqs. apply in_flat_map. exists a. split; [exact Ha|].
  apply (in_map (fun b => (a ++ b)%list)). exact Hb.
Qed.

Lemma ids_seq (c k : M unit) S1 S2 :
  emits c (ids_in S1) -> emits k (ids_in S2) ->
  emits (bind c (fun _ => k)) (ids_in (seqs S1 S2)).
Proof.
  intros Hc Hk. eapply emits_bind; [exact Hc|]. intros ? l1 H1.
  eapply emits_weaken; [exact Hk|]. intros ? l2 H2.
  unfold ids_in in *. rewrite ids_app. apply seqs_In; assumption.
Qed.

Lemma ids_wider (c : M unit) (S S' : list (list string)) :
  incl S S' -> emits c (ids_in S) -> emits c (ids_in S').
Proof. intros HS H. eapply emits_weaken; [exact H|]. intros ? l Hl. apply HS, Hl. Qed.

Lemma full_name_ids_cover ef : emits (test_full_name ef) (ids_in full_name_ids).
Proof. unfold test_full_name. trace listed. Qed.

Lemma date_of_birth_ids_cover now ef :
  emits (test_date_of_birth now ef) (ids_in date_of_birth_ids).
Proof. unfold test_date_of_birth. trace listed. Qed.

Lemma sex_ids_cover ef : emits (test_sex ef) (ids_in sex_ids).
Proof. unfold test_sex. trace listed. Qed.

Lemma essential_ids_cover now ef :
  emits (_validate_essential_fields now ef) (ids_in essential_ids).
Proof.
  unfold _validate_essential_fields, essential_ids.
  apply ids_seq; [apply full_name_ids_cover|].
  apply ids_seq; [apply date_of_birth_ids_cover|apply sex_ids_cover].
Qed.

Lemma document_dates_ids_cover now i e b p :
  emits (_validate_document_dates now i e b p) (ids_in (date_ids p)).
Proof.
  unfold _validate_document_dates, date_ids.
  apply emits_lift_bind; intros issue _. apply emits_lift_bind; intros expiry _.
  apply emits_lift_bind; intros birth _.
  repeat (apply ids_seq;
          [unfold test_issue_format, test_expiry_format, test_expiry_after_issue,
             test_issue_after_birth, test_validity_period, test_not_expired, optional;
           trace listed|]).
  unfold test_not_expired, optional. trace listed.
Qed.

Lemma test_document_dates_ids_cover now ef md p :
  emits (test_document_dates now ef md p) (ids_in (date_ids p)).
Proof.
  unfold test_document_dates. do 3 (apply emits_lift_bind; intros ? _).
  apply document_dates_ids_cover.
Qed.

Lemma passport_ids_cover now ef md :
  emits (_validate_passport now ef md) (ids_in passport_ids).
Proof.
  unfold _validate_passport, passport_ids.
  apply ids_seq; [unfold test_passport_number; trace listed|].
  apply ids_seq; [unfold test_country_of_issue; trace listed|].
  apply ids_seq; [unfold test_nationality, optional; trace listed|].
  apply test_document_dates_ids_cover.
Qed.

Lemma license_ids_cover now ef md :
  emits (_validate_license now ef md) (ids_in license_ids).
Proof.
  unfold _validate_license, license_ids.
  apply ids_seq; [unfold test_dl_number; trace listed|].
  apply ids_seq; [unfold test_address; trace listed|].
  apply ids_seq; [unfold test_height, optional; trace listed|].
  apply ids_seq; [unfold test_weight, optional; trace listed|].
  apply test_document_dates_ids_cover.
Qed.

Lemma other_id_ids_cover now ef md :
  emits (_validate_other_id now ef md) (ids_in other_id_ids).
Proof.
  unfold _validate_other_id, other_id_ids.
  apply ids_seq; [unfold test_metadata_present; trace listed|].
  apply ids_seq; [unfold test_id_type; trace listed|].
  unfold test_dates_if_present.
  apply emits_lift_bind; intros issue _. apply emits_lift_bind; intros dates _.
  destruct dates.
  - apply (ids_wider _ (date_ids "other_id")); [intros s Hs; right; exact Hs|].
    apply test_document_dates_ids_cover.
  - apply emits_ret. left. reflexivity.
Qed.

Lemma validate_ids now x st r st' :
  status_is_success x = true ->
  validate now x st = (Ok r, st') ->
  In (map o_test (outcomes_of r)) report_ids.
Proof.
  intros Hs H.
  destruct (validate_success now x st r st' Hs H) as [_ Er].
  rewrite Er. clear Er. unfold outcomes_of. rewrite map_map.
  change (map (fun r => o_test (to_dict r)) st') with (ids st').
  revert H. unfold status_is_success in Hs. unfold validate.
  unfold bind at 1. unfold set_results. rewrite Hs. cbv zeta. cbn [negb].
  intros H.
  apply bind_ok_inv in H as ([] & st1 & H1 & H).
  apply bind_ok_inv in H as ([] & st2 & H2 & H).
  unfold bind, get_results, ret in H. injection H as _ <-.
  apply essential_ids_cover in H1 as (l1 & -> & I1).
  set (dt := default (TOther false) (x !! "document_type")) in *.
  assert (D : exists l2, st2 = (([] ++ l1) ++ l2)%list
                         /\ In (ids l2) (passport_ids ++ license_ids ++ other_id_ids ++ [[]])).
  { revert H2.
    destruct (top_eq_str dt "passport"); [|destruct (top_eq_str dt "drivers_license");
      [|destruct (top_eq_str dt "other_id")]]; intros H2.
    - apply passport_ids_cover in H2 as (l2 & -> & I2). exists l2. split; [reflexivity|].
      apply in_or_app. left. exact I2.
    - apply license_ids_cover in H2 as (l2 & -> & I2). exists l2. split; [reflexivity|].
      apply in_or_app. right. apply in_or_app. left. exact I2.
    - apply other_id_ids_cover in H2 as (l2 & -> & I2). exists l2. split; [reflexivity|].
      apply in_or_app. right. apply in_or_app. right. apply in_or_app. left. exact I2.
    - injection H2 as <-. exists []. split; [symmetry; apply app_nil_r|].
      apply in_or_app. right. apply in_or_app. right. apply in_or_app. right.
      left. reflexivity. }
  destruct D as (l2 & -> & I2). simpl app. rewrite ids_app.
  apply seqs_In; assumption.
Qed.

Lemma report_ids_checked :
  forallb (fun s => distinct s && (3 <=? length s)%nat && (length s <=? 16)%nat)
    report_ids = true.
Proof. vm_compute. reflexivity. Qed.

Lemma distinct_NoDup l : distinct l = true -> List.NoDup l.
Proof.
  induction l as [|n l IH]; simpl; [constructor|].
  intros H. apply andb_prop in H as [Hn Hl]. constructor; [|apply IH, Hl].
  intros Hin. apply negb_true_iff in Hn.
  assert (E : existsb (String.eqb n) l = true).
  { apply existsb_exists. exists n. split; [exact Hin|apply String.eqb_refl]. }
  congruence.
Qed.

(** X1: the test identifiers of a report are pairwise distinct, whatever
    the input. *)
Theorem report_ids_unique now x st r st' :
  validate now x st = (Ok r, st') ->
  List.NoDup (map o_test (outcomes_of r)).
Proof.
  intros H. destruct (status_is_success x) eqn:Hs.
  - pose proof (validate_ids now x st r st' Hs H) as I.
    pose proof report_ids_checked as C. rewrite forallb_forall in C.
    specialize (C _ I). cbv beta in C.
    apply andb_prop in C as [C _]. apply andb_prop in C as [C _].
    apply distinct_NoDup, C.
  - rewrite (validate_skip now x st Hs) in H. injection H as <- _. constructor.
Qed.

Lemma report_ids_unique_witness :
  exists r st',
    validate Samples.noon Samples.license [] = (Ok r, st')
    /\ length (outcomes_of r) = 15%nat
    /\ List.NoDup (map o_test (outcomes_of r)).
Proof.
  eexists. eexists. split; [vm_compute; reflexivity|]. split; [reflexivity|].
  eapply (report_ids_unique Samples.noon Samples.license []).
  vm_compute. reflexivity.
Defined.

(** X2: a full report lists between 3 and 16 outcomes, so [total_tests]
    is never 0 and a caller may divide by it. *)
Theorem report_size now x st run total npassed nfailed nerrors nwarnings all
    tests errs warns st' :
  validate now x st
  = (Ok (Report run total npassed nfailed nerrors nwarnings all tests errs warns), st') ->
  total = length tests /\ (3 <= total <= 16)%nat.
Proof.
  intros H. destruct (status_is_success x) eqn:Hs.
  - pose proof (validate_ids now x st _ st' Hs H) as I.
    destruct (validate_success now x st _ st' Hs H) as [_ E]. injection E as _ -> _ _ _ _ _ -> _ _.
    unfold outcomes_of in I.
    pose proof report_ids_checked as C. rewrite forallb_forall in C.
    specialize (C _ I). cbv beta in C.
    apply andb_prop in C as [C C3]. apply andb_prop in C as [_ C2].
    apply Nat.leb_le in C2, C3. rewrite !length_map in C2, C3. rewrite !length_map.
    auto.
  - rewrite (validate_skip now x st Hs) in H. discriminate.
Qed.

Lemma report_size_witness :
  exists tests errs warns st',
    validate Samples.noon Samples.adversarial []
    = (Ok (Report true 6 1 5 3 2 false tests errs warns), st')
    /\ 6%nat = length tests /\ (3 <= 6 <= 16)%nat.
Proof.
  do 4 eexists. split; [vm_compute; reflexivity|].
  eapply (report_size Samples.noon Samples.adversarial []).
  vm_compute. reflexivity.
Defined.

(** ** The severity of each test *)

Ltac preserve_by leaf :=
  repeat
    match goal with
    | |- preserves _ (ret _) => apply preserves_ret
    | |- preserves _ (lift _) => apply preserves_lift
    | |- preserves _ (_add_result_default _ _ _) => apply preserves_add; leaf
    | |- preserves _ (_add_result _ _ _ _) => apply preserves_add; leaf
    | |- preserves _ (bind _ _) => apply preserves_bind; [| intros ? ]
    | |- preserves _ (if ?b then _ else _) => destruct b
    | |- preserves _ (let '(_, _) := ?r in _) => destruct r
    | |- preserves _ (let _ := _ in _) => cbv zeta
    end.

Ltac as_listed :=
  unfold fails_as_listed; cbn [passed severity test_name];
  first [ discriminate | intros _; vm_compute; reflexivity ].

Lemma essential_fields_listed now ef :
  preserves fails_as_listed (_validate_essential_fields now ef).
Proof. unfold_tests. preserve_by as_listed. Qed.

Lemma passport_listed now ef md :
  preserves fails_as_listed (_validate_passport now ef md).
Proof. unfold_tests. preserve_by as_listed. Qed.

Lemma license_listed now ef md :
  preserves fails_as_listed (_validate_license now ef md).
Proof. unfold_tests. preserve_by as_listed. Qed.

Lemma other_id_listed now ef md :
  preserves fails_as_listed (_validate_other_id now ef md).
Proof. unfold_tests. preserve_by as_listed. Qed.

(** X3: in a report the severity of a failed outcome depends on its test
    identifier only: ["warning"] for the name format, the two sex tests,
    the number lengths, the country and nationality look-ups, height,
    weight, the two tests of other identity documents, the validity
    period and the expiry; ["error"] for every other test. *)
Theorem failure_severity_by_test now x st r st' :
  validate now x st = (Ok r, st') ->
  Forall (fun o => o_passed o = false -> o_severity o = failure_severity (o_test o))
         (outcomes_of r).
Proof.
  intros H. destruct (status_is_success x) eqn:Hs.
  - destruct (validate_success now x st r st' Hs H) as [_ E].
    assert (G : Forall fails_as_listed st').
    { revert H. unfold status_is_success in Hs. unfold validate.
      unfold bind at 1. unfold set_results. rewrite Hs. cbv zeta. cbn [negb].
      intros H.
      apply bind_ok_inv in H as ([] & st1 & H1 & H).
      apply bind_ok_inv in H as ([] & st2 & H2 & H).
      unfold bind, get_results, ret in H. injection H as _ <-.
      assert (G1 : Forall fails_as_listed st1).
      { change st1 with (snd (Ok tt, st1)). rewrite <- H1.
        apply essential_fields_listed. constructor. }
      change st2 with (snd (Ok tt, st2)). rewrite <- H2.
      destruct (top_eq_str _ "passport"); [apply passport_listed, G1|].
      destruct (top_eq_str _ "drivers_license"); [apply license_listed, G1|].
      destruct (top_eq_str _ "other_id"); [apply other_id_listed, G1|].
      exact G1. }
    rewrite E. simpl. apply Forall_map. exact G.
  - rewrite (validate_skip now x st Hs) in H. injection H as <- _. constructor.
Qed.

Lemma failure_severity_witness :
  exists r st',
    validate Samples.noon Samples.license [] = (Ok r, st')
    /\ length (List.filter (fun o => negb (o_passed o)) (outcomes_of r)) = 6%nat
    /\ Forall (fun o => o_passed o = false
                        -> o_severity o = failure_severity (o_test o))
              (outcomes_of r).
Proof.
  eexists. eexists. split; [vm_compute; reflexivity|]. split; [reflexivity|].
  eapply (failure_severity_by_test Samples.noon Samples.license []).
  vm_compute. reflexivity.
Defined.

(** ** Calendar dates and their ordinals *)

Lemma month_cases m : 1 <= m <= 12 ->
  m = 1 \/ m = 2 \/ m = 3 \/ m = 4 \/ m = 5 \/ m = 6 \/ m = 7 \/ m = 8 \/ m = 9
  \/ m = 10 \/ m = 11 \/ m = 12.
Proof. lia. Qed.

Ltac each_month m H :=
  destruct (month_cases m H) as [->|[->|[->|[->|[->|[->|[->|[->|[->|[->|[->| ->]]]]]]]]]]].

Lemma days_before_next_year y :
  days_before_year (y + 1) = days_before_year y + year_length y.
Proof.
  unfold days_before_year, year_length, is_leap. cbv zeta.
  replace (y + 1 - 1) with y by lia.
  destruct (y mod 4 =? 0) eqn:E4; destruct (y mod 100 =? 0) eqn:E100;
    destruct (y mod 400 =? 0) eqn:E400; simpl;
    rewrite ?Z.eqb_eq, ?Z.eqb_neq in *;
    Z.div_mod_to_equations; lia.
Qed.

Lemma days_before_year_mono y1 y2 :
  y1 <= y2 -> days_before_year y1 <= days_before_year y2.
Proof.
  unfold days_before_year. cbv zeta. intros H.
  Z.div_mod_to_equations. lia.
Qed.

(** The day of the year of a date that exists. *)
Lemma day_of_year_bounds y m d :
  1 <= m <= 12 -> 1 <= d <= days_in_month y m ->
  1 <= days_before_month y m + d <= year_length y.
Proof.
  intros Hm Hd. unfold days_before_month, days_in_month, year_length in *.
  each_month m Hm; simpl in *; destruct (is_leap y); simpl in *; lia.
Qed.

Lemma day_of_year_lt y m1 d1 m2 d2 :
  1 <= m1 <= 12 -> 1 <= m2 <= 12 ->
  1 <= d1 <= days_in_month y m1 -> 1 <= d2 <= days_in_month y m2 ->
  m1 < m2 \/ (m1 = m2 /\ d1 < d2) ->
  days_before_month y m1 + d1 < days_before_month y m2 + d2.
Proof.
  intros Hm1 Hm2 Hd1 Hd2 H. unfold days_before_month, days_in_month in *.
  each_month m1 Hm1; each_month m2 Hm2; simpl in *; destruct (is_leap y);
    simpl in *; lia.
Qed.

(** A later calendar date has a greater ordinal, and conversely. *)
Lemma ordinal_lt a b :
  exists_date a -> exists_date b ->
  date_after b a -> toordinal a < toordinal b.
Proof.
  unfold exists_date, date_after, toordinal, ymd2ord.
  rewrite !check_date_fields_iff. intros (Ya & Ma & Da) (Yb & Mb & Db) H.
  pose proof (day_of_year_bounds _ _ _ Ma Da) as Ba.
  pose proof (day_of_year_bounds _ _ _ Mb Db) as Bb.
  destruct H as [H|[E H]].
  - pose proof (days_before_next_year (year a)) as N.
    pose proof (days_before_year_mono (year a + 1) (year b)) as Mo. lia.
  - rewrite E in *.
    pose proof (day_of_year_lt (year b) (month a) (day a) (month b) (day b)
                  Ma Mb Da Db) as L. lia.
Qed.

Lemma date_order_total a b :
  date_after b a \/ date_after a b
  \/ (year a = year b /\ month a = month b /\ day a = day b).
Proof. unfold date_after. lia. Qed.

Lemma ordinal_lt_iff a b :
  exists_date a -> exists_date b ->
  (toordinal a < toordinal b <-> date_after b a).
Proof.
  intros Ha Hb. split; [|apply ordinal_lt; assumption].
  intros H. destruct (date_order_total a b) as [L|[G|(Ey & Em & Ed)]]; [exact L| |].
  - apply (ordinal_lt b a Hb Ha) in G. lia.
  - unfold toordinal in H. rewrite Ey, Em, Ed in H. lia.
Qed.

Lemma strptime_exists s d : strptime s = Ok d -> exists_date d /\ is_midnight d.
Proof.
  unfold strptime, exists_date, is_midnight.
  destruct (match_ymd s) as [[[[Y m] d'] rest]|]; [|discriminate].
  destruct (negb (is_empty rest)); [discriminate|].
  destruct (check_date_fields _ _ _) eqn:E; [|discriminate]. intros [= <-].
  simpl. auto.
Qed.

Lemma is_datetime_fields t :
  is_datetime t = true ->
  exists_date t /\ 0 <= hour t < 24 /\ 0 <= minute t < 60 /\ 0 <= second t < 60
  /\ 0 <= microsecond t < 1000000.
Proof.
  unfold is_datetime, exists_date. rewrite !andb_true_iff, !Z.leb_le, !Z.ltb_lt.
  intuition.
Qed.

(** The days of a difference with a midnight are the days between the
    two dates. *)
Lemma sub_days_midnight t d :
  is_datetime t = true -> is_midnight d -> sub_days t d = days_between d t.
Proof.
  intros Ht (H1 & H2 & H3 & H4). apply is_datetime_fields in Ht as (_ & Hh & Hm & Hs & Hu).
  unfold sub_days, days_between. rewrite H1, H2, H3, H4.
  rewrite Z.div_small; lia.
Qed.

Lemma sub_days_midnights e i :
  is_midnight e -> is_midnight i -> sub_days e i = days_between i e.
Proof.
  intros (E1 & E2 & E3 & E4) (H1 & H2 & H3 & H4). unfold sub_days, days_between.
  rewrite E1, E2, E3, E4, H1, H2, H3, H4. cbv zeta.
  rewrite Z.div_small by lia. lia.
Qed.

(** The bounds on a quotient by 365.25, in days. *)
Lemma age_bounds days :
  between (1 # 1) (150 # 1) (years days) = true <-> 366 <= days <= 54787.
Proof.
  unfold between, years, Qle_bool, Qdiv, Qmult, Qinv, inject_Z. simpl.
  rewrite andb_true_iff, !Z.leb_le. lia.
Qed.

Lemma validity_bounds days :
  between (1 # 2) (20 # 1) (years days) = true <-> 183 <= days <= 7305.
Proof.
  unfold between, years, Qle_bool, Qdiv, Qmult, Qinv, inject_Z. simpl.
  rewrite andb_true_iff, !Z.leb_le. lia.
Qed.

Lemma lt_of_date_after a b : date_after b a -> lt a b = true.
Proof.
  unfold date_after, lt, fields. simpl. intros H.
  destruct (Z.compare_spec (year a) (year b)); [|reflexivity|lia].
  destruct (Z.compare_spec (month a) (month b)); [|reflexivity|lia].
  destruct (Z.compare_spec (day a) (day b)); [lia|reflexivity|lia].
Qed.

(** A midnight is after an instant exactly when its date is a later
    one. *)
Lemma gt_midnight_now e t :
  is_midnight e -> is_datetime t = true ->
  (gt e t = true <-> date_after e t).
Proof.
  intros (E1 & E2 & E3 & E4) Ht. apply is_datetime_fields in Ht as (_ & Hh & Hm & Hs & Hu).
  split; [|apply lt_of_date_after].
  unfold gt, lt, fields, date_after. simpl. rewrite E1, E2, E3, E4.
  destruct (Z.compare_spec (year t) (year e)); [|lia|discriminate].
  destruct (Z.compare_spec (month t) (month e)); [|lia|discriminate].
  destruct (Z.compare_spec (day t) (day e)); [|lia|discriminate].
  destruct (Z.compare_spec (hour t) 0); [|lia|discriminate].
  destruct (Z.compare_spec (minute t) 0); [|lia|discriminate].
  destruct (Z.compare_spec (second t) 0); [|lia|discriminate].
  destruct (Z.compare_spec (microsecond t) 0); [discriminate|lia|discriminate].
Qed.

(** ** The tests on the date of birth *)

Lemma validate_date_of_strptime s d :
  strptime s = Ok d -> _validate_date (SStr s) = Ok (true, Some d).
Proof. unfold _validate_date. intros ->. reflexivity. Qed.

Lemma strptime_nonempty s d : strptime s = Ok d -> is_empty s = false.
Proof. destruct s; [discriminate|reflexivity]. Qed.

Lemma date_of_birth_exact now ef s d :
  value_of ef "date_of_birth" (SStr EmptyString) = Ok (SStr s) ->
  strptime s = Ok d ->
  runs (test_date_of_birth now ef)
    (fun _ l => exists m2 m3,
       l = [mkResult "essential_fields.date_of_birth.format" true
              ("Date of birth is in valid format: " ++ s) "error";
            mkResult "essential_fields.date_of_birth.past" (lt d now) m2 "error";
            mkResult "essential_fields.date_of_birth.reasonable"
              (between (1 # 1) (150 # 1) (years (sub_days now d))) m3 "error"]).
Proof.
  intros E Es. unfold test_date_of_birth.
  eapply runs_lift_bind; [exact E|]. cbn [scalar_truthy].
  rewrite (strptime_nonempty s d Es). cbn [negb].
  eapply runs_lift_bind; [apply validate_date_of_strptime, Es|]. cbv beta iota.
  apply runs_add_bind. eapply runs_lift_bind; [reflexivity|].
  destruct (lt d now); apply runs_add_bind;
    (eapply runs_lift_bind; [reflexivity|]); cbv zeta;
    destruct (between _ _ _); apply runs_add; eauto.
Qed.

(** X4: for a date of birth that parses, the common checks record the
    format test passed, then [date_of_birth.past] and
    [date_of_birth.reasonable], both of severity ["error"], between the
    outcomes on the name and on the sex.  The age test passes exactly
    when the birth date lies from 366 to 54787 days before today, and it
    fails whenever the test of the past fails. *)
Theorem date_of_birth_checks now ef s d st :
  is_datetime now = true ->
  fields_ok ef = true ->
  value_of ef "date_of_birth" (SStr EmptyString) = Ok (SStr s) ->
  strptime s = Ok d ->
  exists before r1 r2 r3 after,
    _validate_essential_fields now ef st
    = (Ok tt, (st ++ before ++ [r1; r2; r3] ++ after)%list)
    /\ ids [r1; r2; r3]
       = ["essential_fields.date_of_birth.format"; "essential_fields.date_of_birth.past";
          "essential_fields.date_of_birth.reasonable"]
    /\ passed r1 = true
    /\ passed r2 = lt d now
    /\ (passed r3 = true <-> 366 <= days_between d now <= 54787)
    /\ (passed r2 = false -> passed r3 = false)
    /\ severity r2 = "error" /\ severity r3 = "error"
    /\ Forall (fun o => ~ named date_of_birth_tests o) (before ++ after).
Proof.
  intros Hn Hef E Es.
  assert (R : runs (_validate_essential_fields now ef)
                (framed (named full_name_tests)
                   (fun l => exists m2 m3,
                      l = [mkResult "essential_fields.date_of_birth.format" true
                             ("Date of birth is in valid format: " ++ s) "error";
                           mkResult "essential_fields.date_of_birth.past" (lt d now) m2
                             "error";
                           mkResult "essential_fields.date_of_birth.reasonable"
                             (between (1 # 1) (150 # 1) (years (sub_days now d))) m3
                             "error"])
                   (named sex_tests))).
  { unfold _validate_essential_fields.
    apply framed_before; [apply full_name_only, Hef|].
    apply framed_here; [apply date_of_birth_exact; assumption|].
    apply sex_only, Hef. }
  destruct (framed_result _ _ _ _ st R) as (l1 & l2 & l3 & Er & H1 & (m2 & m3 & ->) & H3).
  destruct (strptime_exists s d Es) as [Hd Hm].
  rewrite (sub_days_midnight now d Hn Hm) in *.
  do 5 eexists. split; [exact Er|]. cbn [ids map test_name passed severity].
  split; [reflexivity|]. split; [reflexivity|]. split; [reflexivity|].
  split; [apply age_bounds|]. split.
  { intros Hp. apply not_true_iff_false. intros Hr. apply age_bounds in Hr.
    assert (L : toordinal d < toordinal now) by (unfold days_between in Hr; lia).
    apply is_datetime_fields in Hn as (Hx & _).
    apply (ordinal_lt_iff d now Hd Hx) in L. apply lt_of_date_after in L. congruence. }
  split; [reflexivity|]. split; [reflexivity|].
  apply Forall_app. split.
  - eapply List.Forall_impl; [|exact H1]. intros o. apply named_among. reflexivity.
  - eapply List.Forall_impl; [|exact H3]. intros o. apply named_among. reflexivity.
Qed.

Lemma date_of_birth_checks_witness :
  exists before r1 r2 r3 after,
    _validate_essential_fields Samples.noon Samples.license_fields []
    = (Ok tt, ([] ++ before ++ [r1; r2; r3] ++ after)%list)
    /\ ids [r1; r2; r3]
       = ["essential_fields.date_of_birth.format"; "essential_fields.date_of_birth.past";
          "essential_fields.date_of_birth.reasonable"]
    /\ passed r1 = true
    /\ passed r2 = lt (mkdt 1990 5 15 0 0 0 0) Samples.noon
    /\ (passed r3 = true
        <-> 366 <= days_between (mkdt 1990 5 15 0 0 0 0) Samples.noon <= 54787)
    /\ (passed r2 = false -> passed r3 = false)
    /\ severity r2 = "error" /\ severity r3 = "error"
    /\ Forall (fun o => ~ named date_of_birth_tests o) (before ++ after).
Proof.
  apply (date_of_birth_checks Samples.noon Samples.license_fields "1990-05-15"
           (mkdt 1990 5 15 0 0 0 0) []); vm_compute; reflexivity.
Defined.

(** ** The tests on the dates of the document *)

Lemma parse_wf v r :
  parse_if_given v = Ok r -> r.1 = true -> exists d, r.2 = Some d.
Proof.
  destruct (parse_if_given_total v) as [[d E]|E]; rewrite E; intros [= <-]; simpl;
    [eauto|discriminate].
Qed.

Lemma parse_if_given_returns v : exists r, parse_if_given v = Ok r.
Proof. destruct (parse_if_given_total v) as [[d E]|E]; rewrite E; eauto. Qed.

Lemma parse_if_given_falsy v : scalar_truthy v = false -> parse_if_given v = Ok (false, None).
Proof. unfold parse_if_given. intros ->. reflexivity. Qed.

Lemma validity_period_exact p di de :
  runs (test_validity_period p (true, Some di) (true, Some de))
    (fun _ l => exists m s,
       l = [mkResult (p ++ ".dates.validity_period")
              (between (1 # 2) (20 # 1) (years (sub_days de di))) m s]
       /\ (between (1 # 2) (20 # 1) (years (sub_days de di)) = false -> s = "warning")).
Proof.
  unfold test_validity_period. cbn [fst snd andb].
  eapply runs_lift_bind; [reflexivity|]. eapply runs_lift_bind; [reflexivity|].
  cbv zeta. destruct (between _ _ _); apply runs_add; eauto. 
  do 2 eexists. split; [reflexivity|discriminate].
Qed.

Lemma not_expired_exact now p e de :
  runs (test_not_expired now p e (true, Some de))
    (fun _ l => exists m s,
       l = [mkResult (p ++ ".dates.not_expired") (gt de now) m s]
       /\ (gt de now = false -> s = "warning")).
Proof.
  unfold test_not_expired. cbn [fst snd].
  eapply runs_lift_bind; [reflexivity|].
  destruct (gt de now); apply runs_add; eauto.
  do 2 eexists. split; [reflexivity|discriminate].
Qed.

Lemma issue_after_birth_only p i b ri rb :
  (ri.1 = true -> exists d, ri.2 = Some d) ->
  (rb.1 = true -> exists d, rb.2 = Some d) ->
  only (named [p ++ ".dates.issue_after_birth"]) (test_issue_after_birth p i b ri rb).
Proof.
  destruct ri as [[] oi], rb as [[] ob]; cbn [fst snd]; intros Hi Hb;
    try (destruct Hi as [di ->]; [reflexivity|]);
    try (destruct Hb as [db ->]; [reflexivity|]);
    unfold test_issue_after_birth; walk.
Qed.

Lemma earlier_dates_only p i e b ri re rb (k : M unit) P3 Q2 :
  (ri.1 = true -> exists d, ri.2 = Some d) ->
  (re.1 = true -> exists d, re.2 = Some d) ->
  (rb.1 = true -> exists d, rb.2 = Some d) ->
  runs k (fun _ l => Q2 l) ->
  runs (test_issue_format p i ri ;;
        test_expiry_format p e re ;;
        test_expiry_after_issue p i e ri re ;;
        test_issue_after_birth p i b ri rb ;;
        test_validity_period p ri re ;;
        k)
    (framed (named (map (String.append p)
                      [".date_of_issue.format"; ".date_of_expiry.format";
                       ".dates.expiry_after_issue"; ".dates.issue_after_birth";
                       ".dates.validity_period"])) Q2 P3).
Proof.
  intros Hi He Hb Hk.
  apply framed_before; [unfold test_issue_format; walk|].
  apply framed_before; [unfold test_expiry_format; walk|].
  apply framed_before.
  { destruct ri as [[] oi], re as [[] oe]; cbn [fst snd] in *;
      try (destruct Hi as [di ->]; [reflexivity|]);
      try (destruct He as [de ->]; [reflexivity|]);
      unfold test_expiry_after_issue; walk. }
  apply framed_before.
  { destruct ri as [[] oi], rb as [[] ob]; cbn [fst snd] in *;
      try (destruct Hi as [di ->]; [reflexivity|]);
      try (destruct Hb as [db ->]; [reflexivity|]);
      unfold test_issue_after_birth; walk. }
  apply framed_before.
  { destruct ri as [[] oi], re as [[] oe]; cbn [fst snd] in *;
      try (destruct Hi as [di ->]; [reflexivity|]);
      try (destruct He as [de ->]; [reflexivity|]);
      unfold test_validity_period; walk. }
  apply framed_last, Hk.
Qed.

(** X5: when the expiry date parses, the date checks end with the outcome
    of [dates.not_expired]; it passes exactly when the expiry date is a
    later calendar day than today, so that a document that expires today
    is reported expired, and a failure is a ["warning"]. *)
Theorem not_expired_check now issue_date expiry_date dob doc_type de st :
  is_datetime now = true ->
  _validate_date expiry_date = Ok (true, Some de) ->
  exists before r,
    _validate_document_dates now issue_date expiry_date dob doc_type st
    = (Ok tt, (st ++ before ++ [r])%list)
    /\ test_name r = doc_type ++ ".dates.not_expired"
    /\ (passed r = true <-> date_after de now)
    /\ (passed r = false -> severity r = "warning")
    /\ Forall (not_named (doc_type ++ ".dates.not_expired")) before.
Proof.
  intros Hn He.
  destruct (parse_if_given_returns issue_date) as [ri Ei].
  destruct (parse_if_given_returns dob) as [rb Eb].
  assert (R : runs (_validate_document_dates now issue_date expiry_date dob doc_type)
                (framed (named (map (String.append doc_type)
                           [".date_of_issue.format"; ".date_of_expiry.format";
                            ".dates.expiry_after_issue"; ".dates.issue_after_birth";
                            ".dates.validity_period"]))
                   (fun l => exists m s,
                      l = [mkResult (doc_type ++ ".dates.not_expired") (gt de now) m s]
                      /\ (gt de now = false -> s = "warning"))
                   (fun _ => False))).
  { unfold _validate_document_dates.
    eapply runs_lift_bind; [exact Ei|].
    eapply runs_lift_bind; [apply parse_if_given_ok, He|].
    eapply runs_lift_bind; [exact Eb|].
    apply earlier_dates_only;
      [apply (parse_wf _ _ Ei)|simpl; eauto|apply (parse_wf _ _ Eb)|].
    apply not_expired_exact. }
  destruct (framed_result _ _ _ _ st R) as (l1 & l2 & l3 & Er & H1 & (m & s & -> & Hs) & H3).
  destruct l3 as [|x l3]; [|inversion H3; contradiction].
  rewrite app_nil_r in Er.
  exists l1, (mkResult (doc_type ++ ".dates.not_expired") (gt de now) m s).
  split; [exact Er|]. split; [reflexivity|].
  destruct (validate_date_ok _ _ He) as (se & _ & Se).
  apply strptime_exists in Se as [_ Hm].
  split; [apply gt_midnight_now; assumption|]. split; [exact Hs|].
  eapply List.Forall_impl; [|exact H1]. intros o.
  apply prefixed_apart. reflexivity.
Qed.

Lemma not_expired_check_witness :
  exists before r,
    _validate_document_dates Samples.noon SNone (SStr "2025-06-15") SNone "passport" []
    = (Ok tt, ([] ++ before ++ [r])%list)
    /\ test_name r = "passport" ++ ".dates.not_expired"
    /\ (passed r = true <-> date_after (mkdt 2025 6 15 0 0 0 0) Samples.noon)
    /\ (passed r = false -> severity r = "warning")
    /\ Forall (not_named ("passport" ++ ".dates.not_expired")) before.
Proof.
  apply (not_expired_check Samples.noon SNone (SStr "2025-06-15") SNone "passport"
           (mkdt 2025 6 15 0 0 0 0) []); vm_compute; reflexivity.
Defined.

Lemma not_expired_only now p e re :
  (re.1 = true -> exists d, re.2 = Some d) ->
  only (named [p ++ ".dates.not_expired"]) (test_not_expired now p e re).
Proof.
  destruct re as [[] oe]; cbn [fst snd]; intros He;
    try (destruct He as [de ->]; [reflexivity|]);
    unfold test_not_expired; walk.
Qed.

Lemma document_dates_parsed now i e b p di de :
  _validate_date i = Ok (true, Some di) ->
  _validate_date e = Ok (true, Some de) ->
  runs (_validate_document_dates now i e b p)
    (fun _ l => exists l1 mid m s last,
       l = (l1 ++ [expiry_after_issue_outcome p i e di de] ++ mid
            ++ [mkResult (p ++ ".dates.validity_period")
                  (between (1 # 2) (20 # 1) (years (sub_days de di))) m s] ++ last)%list
       /\ (between (1 # 2) (20 # 1) (years (sub_days de di)) = false -> s = "warning")
       /\ Forall (named (format_tests p)) l1
       /\ Forall (named [p ++ ".dates.issue_after_birth"]) mid
       /\ Forall (named [p ++ ".dates.not_expired"]) last).
Proof.
  intros Hi He. unfold _validate_document_dates.
  destruct (parse_if_given_returns b) as [rb Eb].
  eapply runs_lift_bind; [apply parse_if_given_ok, Hi|].
  eapply runs_lift_bind; [apply parse_if_given_ok, He|].
  eapply runs_lift_bind; [exact Eb|].
  eapply runs_bind; [apply issue_format_only|]. intros ? l1 H1.
  eapply runs_bind; [apply expiry_format_only|]. intros ? l2 H2.
  eapply runs_bind; [apply expiry_after_issue_exact|]. intros ? l3 ->.
  eapply runs_bind;
    [apply issue_after_birth_only; [simpl; eauto|apply (parse_wf _ _ Eb)]|].
  intros ? l4 H4.
  eapply runs_bind; [apply validity_period_exact|]. intros ? l5 (m & s & -> & Hs).
  eapply runs_weaken; [apply not_expired_only; simpl; eauto|]. intros ? l6 H6.
  exists (l1 ++ l2)%list, l4, m, s, l6. rewrite <- !app_assoc.
  split; [reflexivity|]. split; [exact Hs|].
  split; [apply Forall_app; split; assumption|]. split; assumption.
Qed.

(** X6: when both dates of the document parse, [dates.validity_period]
    is recorded after [dates.expiry_after_issue]; it passes exactly when
    the expiry date lies from 183 to 7305 days after the issue date, a
    failure is a ["warning"], and it fails whenever
    [dates.expiry_after_issue] fails. *)
Theorem validity_period_check now issue_date expiry_date dob doc_type di de st :
  _validate_date issue_date = Ok (true, Some di) ->
  _validate_date expiry_date = Ok (true, Some de) ->
  exists before r_after mid r_period last,
    _validate_document_dates now issue_date expiry_date dob doc_type st
    = (Ok tt, (st ++ before ++ [r_after] ++ mid ++ [r_period] ++ last)%list)
    /\ test_name r_after = doc_type ++ ".dates.expiry_after_issue"
    /\ test_name r_period = doc_type ++ ".dates.validity_period"
    /\ (passed r_period = true <-> 183 <= days_between di de <= 7305)
    /\ (passed r_period = false -> severity r_period = "warning")
    /\ (passed r_after = false -> passed r_period = false)
    /\ Forall (not_named (doc_type ++ ".dates.validity_period"))
         (before ++ [r_after] ++ mid ++ last).
Proof.
  intros Hi He.
  destruct (document_dates_parsed now issue_date expiry_date dob doc_type di de Hi He st)
    as ([] & l & Er & l1 & mid & m & s & last & -> & Hs & H1 & H4 & H6).
  destruct (validate_date_ok _ _ Hi) as (si & _ & Si).
  destruct (validate_date_ok _ _ He) as (se & _ & Se).
  destruct (strptime_exists _ _ Si) as [Xi Mi].
  destruct (strptime_exists _ _ Se) as [Xe Me].
  rewrite (sub_days_midnights de di Me Mi) in *.
  do 5 eexists. split; [exact Er|].
  split; [unfold expiry_after_issue_outcome; destruct (gt de di); reflexivity|].
  split; [reflexivity|]. split; [apply validity_bounds|]. split; [exact Hs|].
  split.
  { cbn [passed]. intros Hp. apply not_true_iff_false. intros Hr.
    apply validity_bounds in Hr.
    assert (L : toordinal di < toordinal de) by (unfold days_between in Hr; lia).
    apply (ordinal_lt_iff di de Xi Xe) in L.
    apply strptime_midnight in Si, Se. rewrite Si, Se in Hp, L.
    apply gt_midnight in L. unfold expiry_after_issue_outcome in Hp.
    rewrite <- Si, <- Se in Hp. rewrite <- Si, <- Se in L. rewrite L in Hp. discriminate. }
  apply Forall_app. split.
  { eapply List.Forall_impl; [|exact H1]. intros o.
    apply (prefixed_apart doc_type [".date_of_issue.format"; ".date_of_expiry.format"]).
    reflexivity. }
  apply Forall_app. split.
  { constructor; [|constructor]. unfold not_named, expiry_after_issue_outcome.
    destruct (gt de di); cbn [test_name]; intros E; apply append_cancel_l in E;
      discriminate. }
  apply Forall_app. split.
  { eapply List.Forall_impl; [|exact H4]. intros o.
    apply (prefixed_apart doc_type [".dates.issue_after_birth"]). reflexivity. }
  eapply List.Forall_impl; [|exact H6]. intros o.
  apply (prefixed_apart doc_type [".dates.not_expired"]). reflexivity.
Qed.

Lemma validity_period_check_witness :
  exists before r_after mid r_period last,
    _validate_document_dates Samples.noon (SStr "2020-01-01") (SStr "2019-01-01")
      (SStr "1990-05-15") "license" []
    = (Ok tt, ([] ++ before ++ [r_after] ++ mid ++ [r_period] ++ last)%list)
    /\ test_name r_after = "license" ++ ".dates.expiry_after_issue"
    /\ test_name r_period = "license" ++ ".dates.validity_period"
    /\ (passed r_period = true
        <-> 183 <= days_between (mkdt 2020 1 1 0 0 0 0) (mkdt 2019 1 1 0 0 0 0) <= 7305)
    /\ (passed r_period = false -> severity r_period = "warning")
    /\ (passed r_after = false -> passed r_period = false)
    /\ Forall (not_named ("license" ++ ".dates.validity_period"))
         (before ++ [r_after] ++ mid ++ last).
Proof.
  apply (validity_period_check Samples.noon (SStr "2020-01-01") (SStr "2019-01-01")
           (SStr "1990-05-15") "license" (mkdt 2020 1 1 0 0 0 0) (mkdt 2019 1 1 0 0 0 0) []);
    vm_compute; reflexivity.
Defined.

Lemma document_dates_none now issue_date expiry_date dob doc_type st :
  scalar_truthy issue_date = false ->
  scalar_truthy expiry_date = false ->
  _validate_document_dates now issue_date expiry_date dob doc_type st = (Ok tt, st).
Proof.
  intros Hi He. unfold _validate_document_dates.
  rewrite (parse_if_given_falsy _ Hi), (parse_if_given_falsy _ He).
  destruct (parse_if_given_returns dob) as [rb ->].
  unfold test_issue_format, test_expiry_format, test_expiry_after_issue,
    test_issue_after_birth, test_validity_period, test_not_expired.
  rewrite Hi, He. cbn [fst snd andb]. reflexivity.
Qed.

Ltac some_outcome := first [ intros ?; discriminate | intros H; discriminate H ].

Lemma document_dates_some now i e b p :
  emits (_validate_document_dates now i e b p)
    (fun _ l => scalar_truthy i = true \/ scalar_truthy e = true -> l <> []).
Proof.
  unfold _validate_document_dates.
  apply emits_lift_bind; intros issue _. apply emits_lift_bind; intros expiry _.
  apply emits_lift_bind; intros birth _.
  eapply emits_bind with (Q1 := fun _ l => scalar_truthy i = true -> l <> []).
  { unfold test_issue_format. destruct (scalar_truthy i); trace some_outcome. }
  intros ? l1 H1.
  eapply emits_bind with (Q1 := fun _ l => scalar_truthy e = true -> l <> []).
  { unfold test_expiry_format. destruct (scalar_truthy e); trace some_outcome. }
  intros ? l2 H2.
  eapply emits_weaken with (Q := fun _ _ => True).
  { repeat (eapply emits_bind with (Q1 := fun _ _ => True);
            [unfold test_expiry_after_issue, test_issue_after_birth,
               test_validity_period;
             trace ltac:(exact I)|intros ? ? _]).
    unfold test_not_expired. trace ltac:(exact I). }
  intros ? l3 _ [H|H] E; apply app_eq_nil in E as [E1 E];
    apply app_eq_nil in E as [E2 _]; [apply (H1 H E1)|apply (H2 H E2)].
Qed.

(** X7: the date checks always return, and they record no outcome
    exactly when neither an issue date nor an expiry date is supplied,
    whatever the date of birth is: a date of birth alone is not
    checked here, and a date that is supplied always leaves an outcome,
    at least that of its format. *)
Theorem dates_recorded_iff_supplied now issue_date expiry_date dob doc_type st :
  exists l,
    _validate_document_dates now issue_date expiry_date dob doc_type st
    = (Ok tt, (st ++ l)%list)
    /\ (l = [] <-> scalar_truthy issue_date = false /\ scalar_truthy expiry_date = false).
Proof.
  destruct (document_dates_only now issue_date expiry_date dob doc_type st)
    as ([] & l & Er & _).
  exists l. split; [exact Er|]. split.
  - intros ->.
    destruct (document_dates_some now issue_date expiry_date dob doc_type _ _ _ Er)
      as (l' & E & H).
    apply app_inv_head in E. subst l'.
    destruct (scalar_truthy issue_date), (scalar_truthy expiry_date); auto;
      exfalso; apply H; auto.
  - intros [Hi He].
    rewrite (document_dates_none now _ _ dob doc_type st Hi He) in Er.
    injection Er as Er. rewrite <- (app_nil_r st) in Er at 1.
    apply app_inv_head in Er. congruence.
Qed.

Lemma issue_after_birth_exact p i b di db :
  runs (test_issue_after_birth p i b (true, Some di) (true, Some db))
    (fun _ l => exists m,
       l = [mkResult (p ++ ".dates.issue_after_birth") (gt di db) m "error"]).
Proof.
  unfold test_issue_after_birth. cbn [fst snd andb].
  eapply runs_lift_bind; [reflexivity|]. eapply runs_lift_bind; [reflexivity|].
  destruct (gt di db); apply runs_add; eauto.
Qed.

(** X8: when the issue date and the date of birth both parse, the date
    checks record [dates.issue_after_birth] once; it passes exactly when
    the issue date is a later calendar day than the date of birth, so a
    document issued on the day of birth fails, and a failure is an
    ["error"]. *)
Theorem issue_after_birth_check now issue_date expiry_date dob doc_type di db st :
  _validate_date issue_date = Ok (true, Some di) ->
  _validate_date dob = Ok (true, Some db) ->
  exists before r after,
    _validate_document_dates now issue_date expiry_date dob doc_type st
    = (Ok tt, (st ++ before ++ [r] ++ after)%list)
    /\ test_name r = doc_type ++ ".dates.issue_after_birth"
    /\ (passed r = true <-> date_after di db)
    /\ (passed r = false -> severity r = "error")
    /\ Forall (not_named (doc_type ++ ".dates.issue_after_birth")) (before ++ after).
Proof.
  intros Hi Hb.
  destruct (parse_if_given_returns expiry_date) as [re Ee].
  pose proof (parse_wf _ _ Ee) as We.
  assert (R : runs (_validate_document_dates now issue_date expiry_date dob doc_type)
                (framed (named (map (String.append doc_type)
                           [".date_of_issue.format"; ".date_of_expiry.format";
                            ".dates.expiry_after_issue"]))
                   (fun l => exists m,
                      l = [mkResult (doc_type ++ ".dates.issue_after_birth")
                             (gt di db) m "error"])
                   (named (map (String.append doc_type)
                           [".dates.validity_period"; ".dates.not_expired"])))).
  { unfold _validate_document_dates.
    eapply runs_lift_bind; [apply parse_if_given_ok, Hi|].
    eapply runs_lift_bind; [exact Ee|].
    eapply runs_lift_bind; [apply parse_if_given_ok, Hb|].
    apply framed_before; [unfold test_issue_format; walk|].
    apply framed_before; [unfold test_expiry_format; walk|].
    apply framed_before.
    { destruct re as [[] oe]; cbn [fst snd] in *;
        try (destruct We as [de ->]; [reflexivity|]);
        unfold test_expiry_after_issue; walk. }
    apply framed_here; [apply issue_after_birth_exact|].
    destruct re as [[] oe]; cbn [fst snd] in *;
      try (destruct We as [de ->]; [reflexivity|]);
      unfold test_validity_period, test_not_expired; walk. }
  destruct (framed_result _ _ _ _ st R) as (l1 & l2 & l3 & Er & H1 & (m & ->) & H3).
  do 3 eexists. split; [exact Er|]. split; [reflexivity|].
  destruct (validate_date_ok _ _ Hi) as (si & _ & Si).
  destruct (validate_date_ok _ _ Hb) as (sb & _ & Sb).
  apply strptime_midnight in Si, Sb.
  split.
  { cbn [passed]. rewrite Si, Sb. apply gt_midnight. }
  split; [reflexivity|].
  apply Forall_app. split.
  - eapply List.Forall_impl; [|exact H1]. intros o. apply prefixed_apart. reflexivity.
  - eapply List.Forall_impl; [|exact H3]. intros o. apply prefixed_apart. reflexivity.
Qed.

Lemma issue_after_birth_check_witness :
  exists before r after,
    _validate_document_dates Samples.noon (SStr "1990-05-15") SNone (SStr "1990-05-15")
      "passport" []
    = (Ok tt, ([] ++ before ++ [r] ++ after)%list)
    /\ test_name r = "passport" ++ ".dates.issue_after_birth"
    /\ (passed r = true
        <-> date_after (mkdt 1990 5 15 0 0 0 0) (mkdt 1990 5 15 0 0 0 0))
    /\ (passed r = false -> severity r = "error")
    /\ Forall (not_named ("passport" ++ ".dates.issue_after_birth")) (before ++ after).
Proof.
  apply (issue_after_birth_check Samples.noon (SStr "1990-05-15") SNone
           (SStr "1990-05-15") "passport" (mkdt 1990 5 15 0 0 0 0)
           (mkdt 1990 5 15 0 0 0 0) []);
    vm_compute; reflexivity.
Defined.

(** ** The length of a document number *)

Lemma sub_delete_app k a b :
  Re.sub_delete k (a ++ b) = Re.sub_delete k a ++ Re.sub_delete k b.
Proof.
  induction a as [|c a IH]; [reflexivity|]. rewrite append_cons. simpl.
  destruct (Re.mem k c); [exact IH|]. rewrite append_cons, IH. reflexivity.
Qed.

Lemma len_app a b : len (a ++ b) = len a + len b.
Proof. unfold len. rewrite append_length. lia. Qed.

Lemma counted_char c : len (Re.sub_delete not_alnum (upper_char c)) = counted c.
Proof.
  apply Z.eqb_eq. revert c. apply for_all_chars. vm_compute. reflexivity.
Qed.

Lemma clean_len_upper s : clean_len (upper s) = alnum_count s.
Proof.
  unfold clean_len. induction s as [|c t IH]; [reflexivity|].
  cbn [upper alnum_count]. rewrite sub_delete_app, len_app, counted_char, IH.
  reflexivity.
Qed.

Lemma passport_number_exact md s :
  value_of md "passport_number" (SStr EmptyString) = Ok (SStr s) ->
  s <> EmptyString ->
  runs (test_passport_number md)
    (fun _ l => exists m sv,
       l = [mkResult "passport.passport_number.length"
              ((6 <=? alnum_count s) && (alnum_count s <=? 15)) m sv]
       /\ ((6 <=? alnum_count s) && (alnum_count s <=? 15) = false -> sv = "warning")).
Proof.
  intros E Hs. unfold test_passport_number.
  eapply runs_lift_bind; [exact E|]. cbn [scalar_truthy].
  destruct s as [|c t]; [congruence|]. cbn [is_empty negb].
  eapply runs_lift_bind; [reflexivity|]. cbv zeta. rewrite clean_len_upper.
  destruct ((6 <=? _) && _); apply runs_add; do 2 eexists;
    (split; [reflexivity|]); [discriminate|reflexivity].
Qed.

Lemma dl_number_exact md s :
  value_of md "dl_number" (SStr EmptyString) = Ok (SStr s) ->
  s <> EmptyString ->
  runs (test_dl_number md)
    (fun _ l => exists m sv,
       l = [mkResult "license.dl_number.length"
              ((5 <=? alnum_count s) && (alnum_count s <=? 20)) m sv]
       /\ ((5 <=? alnum_count s) && (alnum_count s <=? 20) = false -> sv = "warning")).
Proof.
  intros E Hs. unfold test_dl_number.
  eapply runs_lift_bind; [exact E|]. cbn [scalar_truthy].
  destruct s as [|c t]; [congruence|]. cbn [is_empty negb].
  eapply runs_lift_bind; [reflexivity|]. cbv zeta. rewrite clean_len_upper.
  destruct ((5 <=? _) && _); apply runs_add; do 2 eexists;
    (split; [reflexivity|]); [discriminate|reflexivity].
Qed.

Ltac walk_by leaf :=
  repeat first
    [ read_value
    | match goal with
      | |- only _ (ret tt) => apply only_ret
      | |- only _ (_add_result_default _ _ _) => apply only_add; leaf
      | |- only _ (_add_result _ _ _ _) => apply only_add; leaf
      | |- only _ (bind _ _) => apply only_bind; [| intros ? ]
      | |- only _ _ => progress cbn [fst snd andb negb]
      | |- only _ (if ?b then _ else _) =>
          first [ is_var b; destruct b
                | let E := fresh "E" in destruct b eqn:E ]
      end ].

Ltac apart := split; discriminate.

Lemma between_bounds lo hi n : (lo <=? n) && (n <=? hi) = true <-> lo <= n <= hi.
Proof. rewrite andb_true_iff, !Z.leb_le. tauto. Qed.

(** X9: a passport number that is given is judged by the count of its
    digits and ASCII letters alone, a sharp s counting for two: the first
    outcome of the passport checks is [passport.passport_number.length],
    passed exactly when that count is from 6 to 15, a ["warning"] when it
    fails; blanks, hyphens and other signs in the number change
    nothing. *)
Theorem passport_number_check now ef md s st :
  fields_ok ef = true -> fields_ok md = true ->
  value_of md "passport_number" (SStr EmptyString) = Ok (SStr s) ->
  s <> EmptyString ->
  exists r after,
    _validate_passport now ef md st = (Ok tt, (st ++ [r] ++ after)%list)
    /\ test_name r = "passport.passport_number.length"
    /\ (passed r = true <-> 6 <= alnum_count s <= 15)
    /\ (passed r = false -> severity r = "warning")
    /\ Forall (fun o => not_named "passport.passport_number.length" o
                        /\ not_named "passport.passport_number.present" o) after.
Proof.
  intros Hef Hmd E Hs.
  assert (R : runs (_validate_passport now ef md)
                (framed (fun _ => False)
                   (fun l => exists m sv,
                      l = [mkResult "passport.passport_number.length"
                             ((6 <=? alnum_count s) && (alnum_count s <=? 15)) m sv]
                      /\ ((6 <=? alnum_count s) && (alnum_count s <=? 15) = false
                          -> sv = "warning"))
                   (fun o => not_named "passport.passport_number.length" o
                             /\ not_named "passport.passport_number.present" o))).
  { unfold _validate_passport.
    apply framed_here; [apply passport_number_exact; assumption|].
    apply only_bind; [|intros ?; apply only_bind; [|intros ?]].
    - unfold test_country_of_issue. walk_by apart.
    - unfold test_nationality. walk_by apart.
    - eapply only_weaken; [|apply test_document_dates_only; assumption].
      intros r Hr. split; revert Hr; apply named_apart; vm_compute; reflexivity. }
  destruct (framed_result _ _ _ _ st R)
    as (l1 & l2 & l3 & Er & H1 & (m & sv & -> & Hsv) & H3).
  destruct l1 as [|x l1]; [|inversion H1; contradiction].
  do 2 eexists. split; [exact Er|]. split; [reflexivity|].
  split; [apply between_bounds|]. split; [exact Hsv|exact H3].
Qed.

Lemma passport_number_check_witness :
  exists r after,
    _validate_passport Samples.noon (TDict empty)
      (TDict (list_to_map [("passport_number", Samples.fv "ab 12-34")])) []
    = (Ok tt, ([] ++ [r] ++ after)%list)
    /\ test_name r = "passport.passport_number.length"
    /\ (passed r = true <-> 6 <= alnum_count "ab 12-34" <= 15)
    /\ (passed r = false -> severity r = "warning")
    /\ Forall (fun o => not_named "passport.passport_number.length" o
                        /\ not_named "passport.passport_number.present" o) after.
Proof.
  apply (passport_number_check Samples.noon (TDict empty)
           (TDict (list_to_map [("passport_number", Samples.fv "ab 12-34")]))
           "ab 12-34" []); [vm_compute; reflexivity..|discriminate].
Defined.

(** X10: a licence number that is given is judged in the same way, with
    the bounds 5 and 20: the first outcome of the licence checks is
    [license.dl_number.length], passed exactly when the count of digits
    and ASCII letters, a sharp s counting for two, is from 5 to 20. *)
Theorem dl_number_check now ef md s st :
  fields_ok ef = true -> fields_ok md = true ->
  value_of md "dl_number" (SStr EmptyString) = Ok (SStr s) ->
  s <> EmptyString ->
  exists r after,
    _validate_license now ef md st = (Ok tt, (st ++ [r] ++ after)%list)
    /\ test_name r = "license.dl_number.length"
    /\ (passed r = true <-> 5 <= alnum_count s <= 20)
    /\ (passed r = false -> severity r = "warning")
    /\ Forall (fun o => not_named "license.dl_number.length" o
                        /\ not_named "license.dl_number.present" o) after.
Proof.
  intros Hef Hmd E Hs.
  assert (R : runs (_validate_license now ef md)
                (framed (fun _ => False)
                   (fun l => exists m sv,
                      l = [mkResult "license.dl_number.length"
                             ((5 <=? alnum_count s) && (alnum_count s <=? 20)) m sv]
                      /\ ((5 <=? alnum_count s) && (alnum_count s <=? 20) = false
                          -> sv = "warning"))
                   (fun o => not_named "license.dl_number.length" o
                             /\ not_named "license.dl_number.present" o))).
  { unfold _validate_license.
    apply framed_here; [apply dl_number_exact; assumption|].
    apply only_bind;
      [|intros ?; apply only_bind; [|intros ?; apply only_bind; [|intros ?]]].
    - unfold test_address. read_value.
      destruct (scalar_truthy (SStr s0)); walk_by apart.
    - unfold test_height. walk_by apart.
    - unfold test_weight. walk_by apart.
    - eapply only_weaken; [|apply test_document_dates_only; assumption].
      intros r Hr. split; revert Hr; apply named_apart; vm_compute; reflexivity. }
  destruct (framed_result _ _ _ _ st R)
    as (l1 & l2 & l3 & Er & H1 & (m & sv & -> & Hsv) & H3).
  destruct l1 as [|x l1]; [|inversion H1; contradiction].
  do 2 eexists. split; [exact Er|]. split; [reflexivity|].
  split; [apply between_bounds|]. split; [exact Hsv|exact H3].
Qed.

Lemma dl_number_check_witness :
  exists r after,
    _validate_license Samples.noon Samples.license_fields Samples.license_metadata []
    = (Ok tt, ([] ++ [r] ++ after)%list)
    /\ test_name r = "license.dl_number.length"
    /\ (passed r = true <-> 5 <= alnum_count "AB 12-34-567" <= 20)
    /\ (passed r = false -> severity r = "warning")
    /\ Forall (fun o => not_named "license.dl_number.length" o
                        /\ not_named "license.dl_number.present" o) after.
Proof.
  apply (dl_number_check Samples.noon Samples.license_fields Samples.license_metadata
           "AB 12-34-567" []); [vm_compute; reflexivity..|discriminate].
Defined.

(** ** The weight of the licence *)

Lemma star_last (p : ascii -> bool) t :
  Re.star_lang p t -> forall c, p c = true ->
  exists u d, String c t = u ++ String d EmptyString /\ p d = true.
Proof.
  induction 1 as [|c' w Hc Hw IH]; intros c Pc.
  - exists EmptyString, c. split; [reflexivity|exact Pc].
  - destruct (IH c' Hc) as (u & d & E & Pd). exists (String c u), d.
    rewrite E. split; [reflexivity|exact Pd].
Qed.

Lemma lang_number (rest : Re.regex) w :
  Re.lang true (Re.Cat (Re.plus Re.Digit) (Re.Cat (Re.Star Re.Space) rest)) w ->
  exists pre d ws r,
    w = pre ++ String d (ws ++ r) /\ is_digit d = true /\ blank ws = true
    /\ Re.lang true rest r.
Proof.
  unfold Re.plus. intros H. split_lang.
  match goal with
  | Hd : Re.cmem true Re.Digit ?c = true, Hs : Re.lang true (Re.Star Re.Digit) ?t,
    Hb : Re.lang true (Re.Star Re.Space) ?ws, Hr : Re.lang true rest ?r |- _ =>
      destruct (star_last _ t Hs c Hd) as (u & d & E & Pd);
      exists u, d, ws, r; change (String c EmptyString ++ t) with (String c t);
      rewrite E, append_assoc; repeat split;
      [exact Pd|apply star_blank, Hb|exact Hr]
  end.
Qed.

Lemma number_lang (rest : Re.regex) d ws r :
  is_digit d = true -> blank ws = true -> Re.lang true rest r ->
  Re.lang true (Re.Cat (Re.plus Re.Digit) (Re.Cat (Re.Star Re.Space) rest))
    (String d (ws ++ r)).
Proof.
  intros Hd Hb Hr. exists (String d EmptyString), (ws ++ r). split; [reflexivity|]. split.
  - exists (String d EmptyString), EmptyString. split; [reflexivity|]. split.
    + exists d. split; [reflexivity|exact Hd].
    + constructor.
  - exists ws, r. split; [reflexivity|]. split; [apply star_blank, Hb|exact Hr].
Qed.

Lemma letter_ic (x c : ascii) :
  In x ["l"; "b"; "k"; "g"]%char ->
  (Re.cmem true (Re.Lit x) c = true <-> Re.ascii_lower c = x).
Proof.
  intros Hx.
  assert (E : forallb (fun x => Bool.eqb (Re.cmem true (Re.Lit x) c)
                                  (Ascii.eqb (Re.ascii_lower c) x))
                ["l"; "b"; "k"; "g"]%char = true).
  { revert c. apply for_all_chars. vm_compute. reflexivity. }
  rewrite forallb_forall in E. specialize (E x Hx). apply eqb_prop in E.
  rewrite E. apply Ascii.eqb_eq.
Qed.

Lemma two_letters (a b : ascii) (rest : Re.regex) r :
  In a ["l"; "b"; "k"; "g"]%char -> In b ["l"; "b"; "k"; "g"]%char ->
  Re.lang true (Re.Cat (Re.lit a) (Re.Cat (Re.lit b) rest)) r ->
  exists u t, r = u ++ t /\ lower u = String a (String b EmptyString)
              /\ Re.lang true rest t.
Proof.
  intros Ha Hb H. unfold Re.lit in H. split_lang.
  match goal with
  | H1 : Re.cmem true (Re.Lit a) ?x = true, H2 : Re.cmem true (Re.Lit b) ?y = true,
    Hr : Re.lang true rest ?t |- _ =>
      exists (String x (String y EmptyString)), t;
      apply (letter_ic a x Ha) in H1; apply (letter_ic b y Hb) in H2;
      split; [reflexivity|]; split; [simpl; rewrite H1, H2; reflexivity|exact Hr]
  end.
Qed.

Lemma letters_two (a b : ascii) (rest : Re.regex) u t :
  In a ["l"; "b"; "k"; "g"]%char -> In b ["l"; "b"; "k"; "g"]%char ->
  lower u = String a (String b EmptyString) -> Re.lang true rest t ->
  Re.lang true (Re.Cat (Re.lit a) (Re.Cat (Re.lit b) rest)) (u ++ t).
Proof.
  intros Ha Hb Hu Ht.
  destruct u as [|x [|y [|z u]]]; try discriminate. simpl in Hu.
  injection Hu as Hx Hy.
  exists (String x EmptyString), (String y t). split; [reflexivity|]. split.
  - exists x. split; [reflexivity|apply (letter_ic a x Ha), Hx].
  - exists (String y EmptyString), t. split; [reflexivity|]. split; [|exact Ht].
    exists y. split; [reflexivity|apply (letter_ic b y Hb), Hy].
Qed.

Lemma weight_found s : found_in weight_patterns s <-> quantity ["lb"; "kg"] s.
Proof.
  unfold found_in, quantity, weight_patterns, Re.cats. split.
  - intros (p & pre & w & post & Hp & -> & Hw).
    destruct Hp as [<-|[<-|[]]]; apply lang_number in Hw as (u & d & ws & r & -> & Hd & Hb & Hr).
    + apply two_letters in Hr as (un & t & -> & Hu & _); [|simpl; tauto..].
      exists (pre ++ u), d, ws, un, (t ++ post).
      rewrite Hu. split; [flat_append; reflexivity|].
      repeat split; try assumption. left; reflexivity.
    + change (Re.Cat (Re.lit "k") (Re.lit "g"))
        with (Re.Cat (Re.lit "k") (Re.cats [Re.lit "g"])) in Hr.
      assert (Hr' : Re.lang true (Re.Cat (Re.lit "k") (Re.Cat (Re.lit "g") Re.Eps)) r).
      { destruct Hr as (a & b & -> & Ha & Hb'). exists a, b. split; [reflexivity|].
        split; [exact Ha|]. exists b, EmptyString. rewrite append_nil_r.
        split; [reflexivity|]. split; [exact Hb'|reflexivity]. }
      apply two_letters in Hr' as (un & t & -> & Hu & Ht); [|simpl; tauto..].
      simpl in Ht. subst t. rewrite append_nil_r.
      exists (pre ++ u), d, ws, un, post.
      rewrite Hu. split; [flat_append; reflexivity|].
      repeat split; try assumption. right; left; reflexivity.
  - intros (pre & d & ws & u & post & -> & Hd & Hb & [Hu|[Hu|[]]]); symmetry in Hu.
    + eexists _, pre, (String d (ws ++ u ++ EmptyString)), post.
      split; [left; reflexivity|]. split.
      { flat_append. reflexivity. }
      apply number_lang; [assumption..|].
      apply letters_two; [simpl; tauto..|exact Hu|]. right. reflexivity.
    + eexists _, pre, (String d (ws ++ u)), post.
      split; [right; left; reflexivity|]. split.
      { flat_append. reflexivity. }
      apply number_lang; [assumption..|].
      destruct u as [|x [|y [|z u]]]; try discriminate. simpl in Hu.
      injection Hu as Hx Hy.
      exists (String x EmptyString), (String y EmptyString). split; [reflexivity|].
      split; eexists; (split; [reflexivity|]); apply letter_ic; simpl; tauto.
Qed.

Lemma weight_exact md w :
  value_of md "weight" (SStr EmptyString) = Ok (SStr w) ->
  w <> EmptyString ->
  runs (test_weight md)
    (fun _ l => exists m sv,
       l = [mkResult "license.weight.format"
              (existsb (fun p => Re.search true p w) weight_patterns) m sv]
       /\ (existsb (fun p => Re.search true p w) weight_patterns = false
           -> sv = "warning")).
Proof.
  intros E Hw. unfold test_weight.
  eapply runs_lift_bind; [exact E|]. cbn [scalar_truthy].
  destruct w as [|c t]; [congruence|]. cbn [is_empty negb].
  eapply runs_lift_bind; [reflexivity|].
  destruct (existsb _ weight_patterns); apply runs_add; do 2 eexists;
    (split; [reflexivity|]); [discriminate|reflexivity].
Qed.

(** X11: a weight that is given, a text of code points below 256,
    yields one outcome [license.weight.format] among the licence checks;
    it passes exactly when the text has, somewhere, a digit, white space
    if any, and then [lb] or [kg] in ASCII letters of either case, and a
    failure is a ["warning"].  The number before the unit, the plural
    [s] and the rest of the text are not looked at.  (From U+0100 on the
    code also takes other digits and white space, and U+212A for
    [k].) *)
Theorem weight_check now ef md w st :
  fields_ok ef = true -> fields_ok md = true ->
  value_of md "weight" (SStr EmptyString) = Ok (SStr w) ->
  w <> EmptyString ->
  exists before r after,
    _validate_license now ef md st = (Ok tt, (st ++ before ++ [r] ++ after)%list)
    /\ test_name r = "license.weight.format"
    /\ (passed r = true <-> quantity ["lb"; "kg"] w)
    /\ (passed r = false -> severity r = "warning")
    /\ Forall (not_named "license.weight.format") (before ++ after).
Proof.
  intros Hef Hmd E Hw.
  assert (R : runs (_validate_license now ef md)
                (framed (named (number_address_tests ++ ["license.height.format"]))
                   (fun l => exists m sv,
                      l = [mkResult "license.weight.format"
                             (existsb (fun p => Re.search true p w) weight_patterns) m sv]
                      /\ (existsb (fun p => Re.search true p w) weight_patterns = false
                          -> sv = "warning"))
                   (named (date_tests "license")))).
  { unfold _validate_license.
    apply framed_before.
    { eapply only_weaken; [|apply dl_number_only, Hmd]. intros r. apply named_app_l. }
    apply framed_before.
    { eapply only_weaken; [|apply address_only, Hef]. intros r. apply named_app_l. }
    apply framed_before.
    { eapply only_weaken; [|apply height_only, Hmd]. intros r. apply named_app_r. }
    apply framed_here; [apply weight_exact; assumption|].
    apply test_document_dates_only; assumption. }
  destruct (framed_result _ _ _ _ st R)
    as (l1 & l2 & l3 & Er & H1 & (m & sv & -> & Hsv) & H3).
  do 3 eexists. split; [exact Er|]. split; [reflexivity|].
  split; [cbn [passed]; rewrite search_any_found; apply weight_found|].
  split; [exact Hsv|].
  apply Forall_app. split.
  - eapply List.Forall_impl; [|exact H1]. intros o. apply named_apart. reflexivity.
  - eapply List.Forall_impl; [|exact H3]. intros o. apply named_apart.
    vm_compute. reflexivity.
Qed.

Lemma weight_check_witness :
  exists before r after,
    _validate_license Samples.noon (TDict empty)
      (TDict (list_to_map [("weight", Samples.fv "about 70 KG")])) []
    = (Ok tt, ([] ++ before ++ [r] ++ after)%list)
    /\ test_name r = "license.weight.format"
    /\ (passed r = true <-> quantity ["lb"; "kg"] "about 70 KG")
    /\ (passed r = false -> severity r = "warning")
    /\ Forall (not_named "license.weight.format") (before ++ after).
Proof.
  apply (weight_check Samples.noon (TDict empty)
           (TDict (list_to_map [("weight", Samples.fv "about 70 KG")]))
           "about 70 KG" []); [vm_compute; reflexivity..|discriminate].
Defined.

(** ** The checks of other identity documents *)

Lemma any_value_returns d : exists b, any_value (TDict d) = Ok b.
Proof. unfold any_value. destruct (top_truthy (TDict d)); eauto. Qed.

(** A field with a value that counts as true makes [any_value] true. *)
Lemma any_value_of (d : gmap string field) k dflt v :
  scalar_truthy dflt = false ->
  value_of (TDict d) k dflt = Ok v -> scalar_truthy v = true ->
  any_value (TDict d) = Ok true.
Proof.
  intros Hd E Hv. unfold value_of, fields_get in E.
  destruct (d !! k) as [f|] eqn:Ek; simpl in E.
  - assert (Hin : In (k, f) (map_to_list d)).
    { apply list_elem_of_In, elem_of_map_to_list. exact Ek. }
    unfold any_value, top_truthy.
    destruct (map_to_list d) as [|x l] eqn:El; [destruct Hin|]. cbn [is_nil negb].
    f_equal. apply existsb_exists. exists f. split.
    + apply in_map_iff. exists (k, f). split; [reflexivity|exact Hin].
    + destruct f as [fd|b]; [|discriminate]. simpl in E.
      destruct (fd !! "value") as [v'|]; simpl in *; injection E as ->;
        [exact Hv|congruence].
  - rewrite lookup_empty in E. simpl in E. injection E as <-. congruence.
Qed.

Lemma metadata_present_exact d b :
  any_value (TDict d) = Ok b ->
  runs (test_metadata_present (TDict d))
    (fun _ l => exists m sv, l = [mkResult "other_id.metadata.present" b m sv]).
Proof.
  intros E. unfold test_metadata_present.
  eapply runs_lift_bind; [exact E|]. destruct b; apply runs_add; eauto.
Qed.

Lemma id_type_exact md v :
  value_of md "id_type" (SStr EmptyString) = Ok v ->
  runs (test_id_type md)
    (fun _ l => exists m sv,
       l = [mkResult "other_id.id_type.identified" (scalar_truthy v) m sv]).
Proof.
  intros E. unfold test_id_type.
  eapply runs_lift_bind; [exact E|]. destruct (scalar_truthy v); apply runs_add; eauto.
Qed.

Lemma falsy_or_truthy v : scalar_truthy v = false \/ scalar_truthy v = true.
Proof. destruct (scalar_truthy v); auto. Qed.

Lemma dates_if_present_exact now ef d :
  fields_ok ef = true -> fields_ok (TDict d) = true ->
  runs (test_dates_if_present now ef (TDict d))
    (fun _ l => Forall (named (date_tests "other_id")) l
                /\ (any_value (TDict d) = Ok false -> l = [])
                /\ (has_field (TDict d) "date_of_issue" = Ok false ->
                    has_field (TDict d) "date_of_expiry" = Ok false -> l = [])).
Proof.
  intros Hef Hmd.
  assert (D : runs (test_document_dates now ef (TDict d) "other_id")
                (fun _ l => Forall (named (date_tests "other_id")) l
                            /\ (any_value (TDict d) = Ok false -> l = []))).
  { intros st.
    destruct (test_document_dates_only now ef (TDict d) "other_id" Hef Hmd st)
      as ([] & l & Er & Hl).
    exists tt, l. split; [exact Er|]. split; [exact Hl|]. intros Hn.
    unfold test_document_dates in Er.
    destruct (value_of_opt (TDict d) "date_of_issue" Hmd) as [Ei|[si Ei]];
      destruct (value_of_opt (TDict d) "date_of_expiry" Hmd) as [Ee|[se Ee]];
      destruct (value_of_opt ef "date_of_birth" Hef) as [Eb|[sb Eb]];
      rewrite Ei, Ee, Eb in Er; cbn [bind lift] in Er;
      repeat match goal with
        | H : value_of (TDict d) _ SNone = Ok (SStr ?s) |- _ =>
            destruct (falsy_or_truthy (SStr s)) as [F|F];
            [|rewrite (any_value_of d _ SNone (SStr s) eq_refl H F) in Hn; discriminate];
            revert H F
        end; intros;
      rewrite document_dates_none in Er by (assumption || reflexivity);
      injection Er as Er; rewrite <- (app_nil_r st) in Er at 1;
      apply app_inv_head in Er; congruence. }
  unfold test_dates_if_present, has_field.
  eapply runs_lift_bind; [reflexivity|].
  destruct (match d !! "date_of_issue" with Some f => field_truthy f | None => false end);
    (eapply runs_lift_bind; [reflexivity|]).
  - eapply runs_weaken; [exact D|]. intros [] l [H1 H2].
    split; [exact H1|]. split; [exact H2|discriminate].
  - destruct (match d !! "date_of_expiry" with Some f => field_truthy f | None => false end).
    + eapply runs_weaken; [exact D|]. intros [] l [H1 H2].
      split; [exact H1|]. split; [exact H2|discriminate].
    + apply runs_ret. split; [constructor|]. split; reflexivity.
Qed.

(** X12: the checks of another identity document record
    [other_id.metadata.present], then [other_id.id_type.identified], then
    date outcomes only.  An identified type implies that metadata is
    present; and no date outcome follows when no metadata value is
    present, or when neither date field is. *)
Theorem other_id_checks now ef md st :
  fields_ok ef = true -> fields_ok md = true ->
  exists r1 r2 dates,
    _validate_other_id now ef md st = (Ok tt, (st ++ [r1; r2] ++ dates)%list)
    /\ test_name r1 = "other_id.metadata.present"
    /\ test_name r2 = "other_id.id_type.identified"
    /\ (passed r2 = true -> passed r1 = true)
    /\ (passed r1 = false -> dates = [])
    /\ (has_field md "date_of_issue" = Ok false ->
        has_field md "date_of_expiry" = Ok false -> dates = [])
    /\ Forall (named (date_tests "other_id")) dates.
Proof.
  intros Hef Hmd. destruct (fields_ok_dict md Hmd) as [d ->].
  destruct (any_value_returns d) as [b Eb].
  destruct (value_of_str (TDict d) "id_type" Hmd) as [s Es].
  assert (R : runs (_validate_other_id now ef (TDict d))
                (fun _ l => exists m1 s1 m2 s2 dates,
                   l = ([mkResult "other_id.metadata.present" b m1 s1;
                         mkResult "other_id.id_type.identified"
                           (scalar_truthy (SStr s)) m2 s2] ++ dates)%list
                   /\ Forall (named (date_tests "other_id")) dates
                   /\ (any_value (TDict d) = Ok false -> dates = [])
                   /\ (has_field (TDict d) "date_of_issue" = Ok false ->
                       has_field (TDict d) "date_of_expiry" = Ok false -> dates = []))).
  { unfold _validate_other_id.
    eapply runs_bind; [apply metadata_present_exact, Eb|]. intros ? l1 (m1 & s1 & ->).
    eapply runs_bind; [apply id_type_exact, Es|]. intros ? l2 (m2 & s2 & ->).
    eapply runs_weaken; [apply dates_if_present_exact; assumption|].
    intros ? l3 (H1 & H2 & H3). exists m1, s1, m2, s2, l3. auto. }
  destruct (R st) as ([] & l & Er & m1 & s1 & m2 & s2 & dates & -> & H1 & H2 & H3).
  do 3 eexists. split; [exact Er|]. split; [reflexivity|]. split; [reflexivity|].
  cbn [passed]. split.
  { intros Ht. rewrite (any_value_of d "id_type" (SStr EmptyString) (SStr s) eq_refl Es Ht) in Eb. congruence. }
  split; [intros ->; apply H2, Eb|]. split; assumption.
Qed.

Lemma other_id_checks_witness :
  exists r1 r2 dates,
    _validate_other_id Samples.noon Samples.license_fields
      (TDict (list_to_map [("id_type", Samples.fv "Voter card")])) []
    = (Ok tt, ([] ++ [r1; r2] ++ dates)%list)
    /\ test_name r1 = "other_id.metadata.present"
    /\ test_name r2 = "other_id.id_type.identified"
    /\ (passed r2 = true -> passed r1 = true)
    /\ (passed r1 = false -> dates = [])
    /\ (has_field (TDict (list_to_map [("id_type", Samples.fv "Voter card")]))
          "date_of_issue" = Ok false ->
        has_field (TDict (list_to_map [("id_type", Samples.fv "Voter card")]))
          "date_of_expiry" = Ok false -> dates = [])
    /\ Forall (named (date_tests "other_id")) dates.
Proof.
  apply (other_id_checks Samples.noon Samples.license_fields
           (TDict (list_to_map [("id_type", Samples.fv "Voter card")])) []);
    vm_compute; reflexivity.
Defined.

(** ** What a report without failure tells *)

Ltac failed_one :=
  let F := fresh "F" in
  intros F;
  repeat match goal with
         | H : Forall _ (_ :: _) |- _ => inversion H; clear H; subst
         end;
  simpl in *; discriminate.

Lemma full_name_clean ef :
  emits (test_full_name ef)
    (fun _ l => Forall (fun r => passed r = true) l ->
                exists name,
                  value_of ef "full_name" (SStr EmptyString) = Ok (SStr name)
                  /\ (2 <= length (split (strip name)))%nat).
Proof.
  unfold test_full_name.
  apply emits_lift_bind; intros v Ev. apply emits_lift_bind; intros n En.
  destruct v as [|s|b t]; try discriminate. injection En as <-.
  destruct (negb (is_empty (strip s))); [|trace failed_one].
  unfold _add_result_default at 1. apply emits_add_bind. cbv zeta.
  destruct (2 <=? length (split (strip s)))%nat eqn:E; [|trace failed_one].
  trace idtac. intros _. exists s. split; [exact Ev|]. apply Nat.leb_le, E.
Qed.

Lemma validate_date_true v od :
  _validate_date v = Ok (true, od) -> exists s d, v = SStr s /\ strptime s = Ok d /\ od = Some d.
Proof.
  unfold _validate_date. destruct v as [|s|b t]; [discriminate| |discriminate].
  destruct (strptime s) as [d|[]] eqn:E; [|discriminate..]. intros [= <-]. exists s, d. auto.
Qed.

Lemma date_of_birth_clean now ef :
  is_datetime now = true ->
  emits (test_date_of_birth now ef)
    (fun _ l => Forall (fun r => passed r = true) l ->
                exists dob d,
                  value_of ef "date_of_birth" (SStr EmptyString) = Ok (SStr dob)
                  /\ strptime dob = Ok d
                  /\ 366 <= days_between d now <= 54787).
Proof.
  intros Hn. unfold test_date_of_birth.
  apply emits_lift_bind; intros v Ev.
  destruct (scalar_truthy v); [|trace failed_one].
  apply emits_lift_bind; intros [valid od] Er.
  destruct valid; [|trace failed_one].
  apply validate_date_true in Er as (s & d & -> & Es & ->).
  unfold _add_result_default at 1. apply emits_add_bind.
  apply emits_lift_bind; intros d0 [= <-].
  eapply emits_bind with (Q1 := fun _ _ => True).
  { destruct (lt d now); trace ltac:(exact I). }
  intros ? l1 _.
  apply emits_lift_bind; intros d0 [= <-]. cbv zeta.
  destruct (between _ _ _) eqn:B.
  - trace idtac. intros _. exists s, d. split; [exact Ev|]. split; [exact Es|].
    apply strptime_exists in Es as [_ Hm].
    rewrite (sub_days_midnight now d Hn Hm) in B. apply age_bounds, B.
  - trace idtac. intros F. apply Forall_cons_iff in F as [_ F].
    apply Forall_app in F as [_ F]. inversion F. discriminate.
Qed.

Lemma sex_clean ef :
  emits (test_sex ef)
    (fun _ l => Forall (fun r => passed r = true) l ->
                exists sex,
                  value_of ef "sex" (SStr EmptyString) = Ok (SStr sex)
                  /\ In sex ["M"; "F"; "X"]).
Proof.
  unfold test_sex. apply emits_lift_bind; intros v Ev.
  destruct (scalar_in v ["M"; "F"; "X"]) eqn:E; [|trace failed_one].
  trace idtac. intros _. destruct v as [|s|b t]; try discriminate.
  exists s. split; [exact Ev|]. apply str_in_iff. exact E.
Qed.

Lemma essential_fields_clean now ef :
  is_datetime now = true ->
  emits (_validate_essential_fields now ef)
    (fun _ l => Forall (fun r => passed r = true) l ->
                exists name dob d sex,
                  value_of ef "full_name" (SStr EmptyString) = Ok (SStr name)
                  /\ (2 <= length (split (strip name)))%nat
                  /\ value_of ef "date_of_birth" (SStr EmptyString) = Ok (SStr dob)
                  /\ strptime dob = Ok d
                  /\ 366 <= days_between d now <= 54787
                  /\ value_of ef "sex" (SStr EmptyString) = Ok (SStr sex)
                  /\ In sex ["M"; "F"; "X"]).
Proof.
  intros Hn. unfold _validate_essential_fields.
  eapply emits_bind; [apply full_name_clean|]. intros ? l1 H1.
  eapply emits_bind; [apply (date_of_birth_clean now ef Hn)|]. intros ? l2 H2.
  eapply emits_weaken; [apply sex_clean|]. intros ? l3 H3 F.
  apply Forall_app in F as [F1 F]. apply Forall_app in F as [F2 F3].
  destruct (H1 F1) as (name & En & Hp). destruct (H2 F2) as (dob & d & Ed & Es & Hd).
  destruct (H3 F3) as (sex & Ex & Hx). exists name, dob, d, sex. auto 10.
Qed.

Lemma sum_ones_none (p : ValidationResult -> bool) l :
  sum_ones p l = 0%nat -> Forall (fun r => p r = false) l.
Proof.
  rewrite sum_ones_filter. induction l as [|r l IH]; simpl; [constructor|].
  destruct (p r) eqn:E; [discriminate|]. intros H. constructor; auto.
Qed.

(** X13: on an input of the shape of an extraction result (the value of
    a field, when present, is a string), a report that says all tests
    passed vouches for the common fields, whatever the type of the
    document: the name has two tokens at least, counted as the
    specification words it, the date of birth parses and lies from 366
    to 54787 days before today, and the sex is one of [M], [F] and
    [X]. *)
Theorem clean_report now x st run total npassed nfailed nerrors nwarnings
    tests errs warns st' :
  is_datetime now = true ->
  conforms x = true ->
  validate now x st
  = (Ok (Report run total npassed nfailed nerrors nwarnings true tests errs warns), st') ->
  exists name dob d sex,
    let ef := default (TDict empty) (x !! "essential_fields") in
    value_of ef "full_name" (SStr EmptyString) = Ok (SStr name)
    /\ (2 <= token_count name)%nat
    /\ value_of ef "date_of_birth" (SStr EmptyString) = Ok (SStr dob)
    /\ strptime dob = Ok d
    /\ 366 <= days_between d now <= 54787
    /\ value_of ef "sex" (SStr EmptyString) = Ok (SStr sex)
    /\ In sex ["M"; "F"; "X"].
Proof.
  intros Hn Hc H.
  destruct (status_is_success x) eqn:Hs;
    [|rewrite (validate_skip now x st Hs) in H; discriminate].
  remember (Report run total npassed nfailed nerrors nwarnings true tests errs warns)
    as r eqn:Hr.
  destruct (validate_success now x st r st' Hs H) as [_ Er].
  rewrite Hr in Er. injection Er as _ _ _ _ _ _ Ha _ _ _. clear Hr.
  symmetry in Ha. apply Nat.eqb_eq, sum_ones_none in Ha.
  assert (F : Forall (fun r => passed r = true) st').
  { eapply List.Forall_impl; [|exact Ha]. intros o. apply negb_false_iff. }
  clear Ha. revert H. unfold status_is_success in Hs. unfold validate.
  unfold bind at 1. unfold set_results. rewrite Hs. cbv zeta. cbn [negb].
  intros H.
  apply bind_ok_inv in H as ([] & st1 & H1 & H).
  apply bind_ok_inv in H as ([] & st2 & H2 & H).
  unfold bind, get_results, ret in H. injection H as _ <-.
  apply (essential_fields_clean now _ Hn) in H1 as (l1 & -> & I1).
  assert (D : exists l2, st2 = (([] ++ l1) ++ l2)%list).
  { revert H2.
    destruct (top_eq_str _ "passport"); [|destruct (top_eq_str _ "drivers_license");
      [|destruct (top_eq_str _ "other_id")]]; intros H2.
    - apply passport_ids_cover in H2 as (l2 & -> & _). eauto.
    - apply license_ids_cover in H2 as (l2 & -> & _). eauto.
    - apply other_id_ids_cover in H2 as (l2 & -> & _). eauto.
    - injection H2 as <-. exists []. symmetry; apply app_nil_r. }
  destruct D as (l2 & ->). simpl app in F. apply Forall_app in F as [F _].
  destruct (I1 F) as (name & dob & d & sex & E1 & P & E2).
  exists name, dob, d, sex. cbv zeta. rewrite <- split_strip_count. auto.
Qed.

Lemma clean_report_witness :
  exists name dob d sex,
    let ef := default (TDict empty) (Samples.clean_passport !! "essential_fields") in
    value_of ef "full_name" (SStr EmptyString) = Ok (SStr name)
    /\ (2 <= token_count name)%nat
    /\ value_of ef "date_of_birth" (SStr EmptyString) = Ok (SStr dob)
    /\ strptime dob = Ok d
    /\ 366 <= days_between d Samples.noon <= 54787
    /\ value_of ef "sex" (SStr EmptyString) = Ok (SStr sex)
    /\ In sex ["M"; "F"; "X"].
Proof.
  eapply (clean_report Samples.noon Samples.clean_passport []);
    vm_compute; reflexivity.
Defined.

(** ** The age of the extractor *)

Import KYCDocumentExtractor.

Lemma pair_lt_iff a1 a2 b1 b2 :
  pair_lt a1 a2 b1 b2 = true <-> a1 < b1 \/ (a1 = b1 /\ a2 < b2).
Proof.
  unfold pair_lt. simpl.
  destruct (Z.compare_spec a1 b1); destruct (Z.compare_spec a2 b2);
    split; intros; try discriminate; try reflexivity; lia.
Qed.

(** X14: [calculate_age] is [None] exactly on what [strptime] refuses;
    on a date of birth that parses it is the number of birthdays reached
    by today: the birthday of that number is not after today, the next
    one is, and no other number has the two properties. *)
Theorem calculate_age_completed_years now dob :
  match calculate_age now dob with
  | Some a =>
      exists s d,
        dob = SStr s /\ strptime s = Ok d
        /\ ~ date_after (birthday d a) now
        /\ date_after (birthday d (a + 1)) now
        /\ forall k, ~ date_after (birthday d k) now ->
                     date_after (birthday d (k + 1)) now -> k = a
  | None => forall s d, dob = SStr s -> strptime s <> Ok d
  end.
Proof.
  unfold calculate_age. destruct dob as [|s|b t]; [discriminate| |discriminate].
  destruct (strptime s) as [d|e] eqn:E; [|intros s' d' [= <-]; congruence].
  exists s, d. split; [reflexivity|]. split; [exact E|].
  pose proof (pair_lt_iff (month now) (day now) (month d) (day d)) as P.
  unfold date_after, birthday. cbn [year month day].
  destruct (pair_lt _ _ _ _).
  - assert (L : month now < month d \/ (month now = month d /\ day now < day d))
      by (apply P; reflexivity).
    clear P. repeat split; intros; lia.
  - assert (L : ~ (month now < month d \/ (month now = month d /\ day now < day d)))
      by (intros H; apply P in H; discriminate).
    clear P. repeat split; intros; lia.
Qed.

Lemma leap_next y : is_leap y = true -> is_leap (y + 1) = false.
Proof.
  unfold is_leap. intros H. apply andb_prop in H as [H _]. apply Z.eqb_eq in H.
  apply andb_false_intro1. apply Z.eqb_neq. Z.div_mod_to_equations. lia.
Qed.

Lemma year_length_bounds y : 365 <= year_length y <= 366.
Proof. unfold year_length. destruct (is_leap y); lia. Qed.

Lemma years_days y k :
  0 <= k -> 365 * k <= days_before_year (y + k) - days_before_year y.
Proof.
  unfold days_before_year. cbv zeta. intros H. Z.div_mod_to_equations. lia.
Qed.

(** The same month and day, or a later one, of another year is at most
    one day earlier in its year. *)
Lemma day_of_year_back y1 m1 d1 y2 m2 d2 :
  1 <= m1 <= 12 -> 1 <= m2 <= 12 ->
  1 <= d1 <= days_in_month y1 m1 -> 1 <= d2 <= days_in_month y2 m2 ->
  ~ (m2 < m1 \/ (m2 = m1 /\ d2 < d1)) ->
  days_before_month y1 m1 + d1 - 1 <= days_before_month y2 m2 + d2.
Proof.
  intros Hm1 Hm2 Hd1 Hd2 H. unfold days_before_month, days_in_month in *.
  each_month m1 Hm1; each_month m2 Hm2; simpl in *;
    destruct (is_leap y1); destruct (is_leap y2); simpl in *; lia.
Qed.

(** An earlier month and day of the next year is less than 366 days
    away. *)
Lemma day_of_next_year y m1 d1 m2 d2 :
  1 <= m1 <= 12 -> 1 <= m2 <= 12 ->
  1 <= d1 <= days_in_month y m1 -> 1 <= d2 <= days_in_month (y + 1) m2 ->
  m2 < m1 \/ (m2 = m1 /\ d2 < d1) ->
  year_length y + (days_before_month (y + 1) m2 + d2) - (days_before_month y m1 + d1)
  <= 365.
Proof.
  intros Hm1 Hm2 Hd1 Hd2 H. pose proof (leap_next y) as N.
  unfold days_before_month, days_in_month, year_length in *.
  destruct (is_leap y); [rewrite (N eq_refl) in *|clear N; destruct (is_leap (y + 1))];
    each_month m1 Hm1; each_month m2 Hm2; simpl in *; lia.
Qed.



(** ** The table of models *)

Import Config.

Lemma lookup_first options key info :
  List.NoDup (model_ids options) -> In (key, info) options ->
  name_in options (id info) = key
  /\ pricing_in options (id info)
     = mkPricing (input_cost_per_1m info) (output_cost_per_1m info).
Proof.
  induction options as [|[k i] rest IH]; intros N H; [destruct H|].
  simpl in N. inversion N as [|? ? Hn N']; subst. simpl.
  destruct H as [[= -> ->]|H].
  - rewrite String.eqb_refl. auto.
  - destruct (String.eqb_spec (id i) (id info)) as [E|_]; [|apply IH; assumption].
    exfalso. apply Hn. rewrite E. unfold model_ids.
    apply (in_map (fun e => id (snd e)) rest (key, info)), H.
Qed.

Lemma lookup_none options model_id :
  ~ In model_id (model_ids options) ->
  name_in options model_id = "Unknown Model"
  /\ pricing_in options model_id = mkPricing (9 # 10) (9 # 10).
Proof.
  induction options as [|[k i] rest IH]; intros H; [auto|]. simpl in *.
  destruct (String.eqb_spec (id i) model_id) as [E|_]; [tauto|]. apply IH. tauto.
Qed.

Lemma lookup_some options model_id :
  In model_id (model_ids options) -> In (name_in options model_id) (map fst options).
Proof.
  induction options as [|[k i] rest IH]; intros H; [destruct H|]. simpl in *.
  destruct (String.eqb_spec (id i) model_id) as [E|N]; [auto|].
  right. apply IH. tauto.
Qed.

(** X16: the two lookups by identifier invert the table of models: for
    every entry of [MODEL_OPTIONS], [get_model_name] of its identifier is
    its key and [get_model_pricing] of its identifier is its two costs;
    no entry is hidden by an earlier one with the same identifier. *)
Theorem model_lookup_round_trip key info :
  In (key, info) MODEL_OPTIONS ->
  get_model_name (id info) = key
  /\ get_model_pricing (id info)
     = mkPricing (input_cost_per_1m info) (output_cost_per_1m info).
Proof.
  intros H. apply lookup_first; [|exact H].
  apply distinct_NoDup. vm_compute. reflexivity.
Qed.

Lemma model_lookup_round_trip_witness :
  get_model_name DEFAULT_CLASSIFICATION_MODEL = "🎯 Llama Maverick (Balanced)"
  /\ get_model_pricing DEFAULT_CLASSIFICATION_MODEL = mkPricing (22 # 100) (88 # 100).
Proof.
  apply (model_lookup_round_trip "🎯 Llama Maverick (Balanced)"
           (mkModel DEFAULT_CLASSIFICATION_MODEL "Llama 3.2 90B Vision Maverick"
              "medium" "Balanced speed and accuracy" (22 # 100) (88 # 100))).
  right. left. reflexivity.
Defined.

(** X17: [get_model_name] answers ["Unknown Model"] exactly on the
    identifiers that are not in the table, and on those
    [get_model_pricing] answers the fallback of 0.9 for both costs. *)
Theorem unknown_model model_id :
  (get_model_name model_id = "Unknown Model"
   <-> ~ In model_id (model_ids MODEL_OPTIONS))
  /\ (~ In model_id (model_ids MODEL_OPTIONS) ->
      get_model_pricing model_id = mkPricing (9 # 10) (9 # 10)).
Proof.
  split; [split|]; try (intros H; apply (lookup_none MODEL_OPTIONS model_id H)).
  intros E H. apply lookup_some in H. fold (get_model_name model_id) in H.
  rewrite E in H. vm_compute in H. intuition discriminate.
Qed.
